(** * TibQA: question/answer extraction from Tibetan documents

    A shallow embedding of the Python sources under [src/TibQA] and the
    properties of their specification.

    Python [str] values are sequences of Unicode code points; they are
    modelled as [list Z], one code point per element.  The paragraph
    source ([docx.Document(...).paragraphs], BeautifulSoup) and the file
    system are outside the repository: a document is the list of its
    paragraph texts, a text file the list [readlines()] returns. *)

From Stdlib Require Import ZArith List Bool Lia String Ascii.
From stdpp Require Import base option list gmap.
Import ListNotations.
Local Open Scope Z_scope.

(** ** Code points and string literals *)

Abbreviation char := Z (only parsing).
Abbreviation str := (list Z) (only parsing).

(** UTF-8 decoding of a Rocq string literal into code points, so that the
    literals of the Python sources can be written as they are. *)
Fixpoint utf8_decode (bs : list Z) : str :=
  match bs with
  | [] => []
  | b :: r =>
      if b <? 0x80 then b :: utf8_decode r
      else if b <? 0xE0 then
        match r with
        | b1 :: r1 => ((b - 0xC0) * 64 + (b1 - 0x80)) :: utf8_decode r1
        | _ => []
        end
      else if b <? 0xF0 then
        match r with
        | b1 :: b2 :: r2 =>
            ((b - 0xE0) * 4096 + (b1 - 0x80) * 64 + (b2 - 0x80)) :: utf8_decode r2
        | _ => []
        end
      else
        match r with
        | b1 :: b2 :: b3 :: r3 =>
            ((b - 0xF0) * 262144 + (b1 - 0x80) * 4096 + (b2 - 0x80) * 64 + (b3 - 0x80))
              :: utf8_decode r3
        | _ => []
        end
  end.

Definition bytes_of (s : string) : list Z :=
  List.map (fun a => Z.of_N (N_of_ascii a)) (list_ascii_of_string s).

Definition u (s : string) : str := utf8_decode (bytes_of s).

Definition SPACE : char := 0x20.
Definition NEWLINE : char := 0x0A.
Definition MINUS : char := 0x2D.
Definition DOT : char := 0x2E.
Definition ASCII_ZERO : char := 0x30.
Definition TIB_ZERO : char := 0x0F20.   (* ༠ *)
Definition TIB_NINE : char := 0x0F29.   (* ༩ *)
Definition YIG_MGO : char := 0x0F08.    (* ༈ *)
Definition TSEG : char := 0x0F0B.       (* ་ *)
Definition SHEY : char := 0x0F0D.       (* ། *)
Definition ANG_OPEN : char := 0x0F3C.   (* ༼ *)
Definition ANG_CLOSE : char := 0x0F3D.  (* ༽ *)
Definition TIB_KA : char := 0x0F40.     (* ཀ *)
Definition TIB_A : char := 0x0F68.      (* ཨ *)

(** ** Exceptions *)

Inductive exn := ValueError | IndexError | OSError.

Inductive result (A : Type) :=
| Ok (a : A)
| Raise (e : exn).
Arguments Ok {A} a.
Arguments Raise {A} e.

#[export] Instance result_ret : MRet result := fun A a => Ok a.

#[export] Instance result_bind : MBind result := fun A B k r =>
  match r with
  | Ok a => k a
  | Raise e => Raise e
  end.

Fixpoint traverse {A B} (f : A -> result B) (l : list A) : result (list B) :=
  match l with
  | [] => Ok []
  | a :: r => b ← f a; bs ← traverse f r; Ok (b :: bs)
  end.

(** ** Python primitives used by the encoders *)

(** [str(num)] for a non-negative [num]: the decimal digits, most
    significant first.  [fuel] bounds the number of further digits. *)
Fixpoint digits_acc (fuel : nat) (n : Z) (acc : str) : str :=
  let acc' := (ASCII_ZERO + n mod 10) :: acc in
  match fuel with
  | O => acc'
  | S f => if n / 10 =? 0 then acc' else digits_acc f (n / 10) acc'
  end.

Definition str_of_nonneg (n : Z) : str :=
  digits_acc (Z.to_nat (Z.log2 n)) n [].

(** [str(num)] for a Python [int]. *)
Definition py_str_int (n : Z) : str :=
  if n <? 0 then MINUS :: str_of_nonneg (- n) else str_of_nonneg n.

(** [int(d)] for a one-character string [d], on the characters [str(num)]
    produces: a decimal digit gives its value, anything else (the sign)
    raises [ValueError]. *)
Definition py_int_char (d : char) : result Z :=
  if (ASCII_ZERO <=? d) && (d <=? ASCII_ZERO + 9) then Ok (d - ASCII_ZERO)
  else Raise ValueError.

(** [s[i]] for a sequence [s]: negative indices count from the end,
    anything out of range raises [IndexError]. *)
Definition py_index {A} (s : list A) (i : Z) : result A :=
  let len := Z.of_nat (length s) in
  let j := if i <? 0 then i + len else i in
  if (0 <=? j) && (j <? len) then
    match nth_error s (Z.to_nat j) with
    | Some a => Ok a
    | None => Raise IndexError
    end
  else Raise IndexError.

(** ** The numeral encoders *)

(** [TIBETAN_DIGITS] (qa_2.py, qa_3.py), [TIBETAN_NUMBERS] (qa_6.py) and
    the lists [tibetan_digits] (qa.py, html_parser.py) and
    [tibetan_numbers] (qa_7.py): the same ten symbols. *)
Definition TIBETAN_DIGITS : str := u "༠༡༢༣༤༥༦༧༨༩".

(** The generator expression common to all encoders:
    [TIBETAN_DIGITS[int(d)] for d in str(num)]. *)
Definition tibetan_digits_of (num : Z) : result str :=
  traverse (fun d => i ← py_int_char d; py_index TIBETAN_DIGITS i)
           (py_str_int num).

(** qa_2.py / qa_3.py [int_to_tibetan_numeral]: [ValueError] and
    [IndexError] are caught and a [ValueError] is raised. *)
Definition int_to_tibetan_numeral (num : Z) : result str :=
  match tibetan_digits_of num with
  | Ok s => Ok s
  | Raise ValueError => Raise ValueError
  | Raise IndexError => Raise ValueError
  | Raise e => Raise e
  end.

(** qa_6.py [int_to_tibetan] and qa_7.py [convert_to_tibetan_number]:
    no handler. *)
Definition int_to_tibetan (num : Z) : result str := tibetan_digits_of num.

(** qa.py [convert_to_tibetan_number] and html_parser.py
    [get_tibetan_number]: the digits followed by the closing glyph. *)
Definition convert_to_tibetan_number (n : Z) : result str :=
  s ← tibetan_digits_of n; Ok (s ++ [ANG_CLOSE]).

(** The value a string of glyphs denotes in base ten, reading each glyph
    as its offset from [zero]. *)
Definition decimal_value (zero : char) (s : str) : Z :=
  fold_left (fun acc c => acc * 10 + (c - zero)) s 0.


(** ** Python string methods *)

(** [str.isspace] on one character; [str.strip()] and the regular
    expression class [\s] (on [str] patterns) use the same table. *)
Definition py_isspace (c : char) : bool :=
  ((0x09 <=? c) && (c <=? 0x0D)) || ((0x1C <=? c) && (c <=? 0x20))
  || (c =? 0x85) || (c =? 0xA0) || (c =? 0x1680)
  || ((0x2000 <=? c) && (c <=? 0x200A))
  || (c =? 0x2028) || (c =? 0x2029) || (c =? 0x202F) || (c =? 0x205F)
  || (c =? 0x3000).

Fixpoint lstrip (s : str) : str :=
  match s with
  | [] => []
  | c :: r => if py_isspace c then lstrip r else s
  end.

Definition rstrip (s : str) : str := rev (lstrip (rev s)).

(** [s.strip()] *)
Definition strip (s : str) : str := rstrip (lstrip s).

(** [s.startswith(p)] *)
Fixpoint startswith (s p : str) : bool :=
  match p, s with
  | [], _ => true
  | _ :: _, [] => false
  | a :: p', b :: s' => (a =? b) && startswith s' p'
  end.

(** [s.endswith(p)] *)
Definition endswith (s p : str) : bool := startswith (rev s) (rev p).

(** [sub in s] *)
Fixpoint contains (s sub : str) : bool :=
  startswith s sub ||
  match s with
  | [] => false
  | _ :: r => contains r sub
  end.

(** [sep.join(l)] *)
Fixpoint join (sep : str) (l : list str) : str :=
  match l with
  | [] => []
  | [x] => x
  | x :: r => x ++ sep ++ join sep r
  end.

(** Truthiness of a [str] or a [list]. *)
Definition truthy {A} (l : list A) : bool :=
  match l with
  | [] => false
  | _ :: _ => true
  end.

(** Truthiness of a variable that holds [None] or a [str]. *)
Definition truthy_opt (o : option str) : bool :=
  match o with
  | None => false
  | Some s => truthy s
  end.

(** ** Substitution of all matches

    [re.sub] and [str.replace] scan from the left; where a match starts
    the replacement is emitted and the scan goes on behind the match,
    elsewhere the character is copied.  [m s'] is the length of the match
    at the start of the suffix [s'], if there is one; [at_start] tells
    the matcher whether the suffix is the whole string (for [^]).  All
    patterns and needles of the sources match at least one character.
    [skip] counts the characters of the current match still to drop. *)
Fixpoint sub_all (m : bool -> str -> option nat) (repl : str)
    (at_start : bool) (skip : nat) (s : str) : str :=
  match s with
  | [] => []
  | c :: r =>
      match skip with
      | S k => sub_all m repl false k r
      | O =>
          match m at_start s with
          | Some n => repl ++ sub_all m repl false (n - 1) r
          | None => c :: sub_all m repl false 0 r
          end
      end
  end.

Definition re_sub (m : bool -> str -> option nat) (repl s : str) : str :=
  sub_all m repl true 0 s.

(** [s.replace(old, new)] for a non-empty [old]. *)
Definition replace (s old new : str) : str :=
  re_sub (fun _ s' => if startswith s' old then Some (length old) else None) new s.

(** [s.split(sep, 1)]: at most one split, at the first occurrence. *)
Fixpoint partition_first (s sep : str) {struct s} : option (str * str) :=
  if startswith s sep then Some ([], drop (length sep) s)
  else
    match s with
    | [] => None
    | c :: r =>
        match partition_first r sep with
        | Some (a, b) => Some (c :: a, b)
        | None => None
        end
    end.

Definition split1 (s sep : str) : list str :=
  match partition_first s sep with
  | Some (a, b) => [a; b]
  | None => [s]
  end.

(** ** Regular expression pieces *)

(** Length of the longest prefix whose characters satisfy [p]: what a
    greedy [[class]*] consumes. *)
Fixpoint span_len (p : char -> bool) (s : str) : nat :=
  match s with
  | [] => O
  | c :: r => if p c then S (span_len p r) else O
  end.

Definition is_tib_digit (c : char) : bool := (TIB_ZERO <=? c) && (c <=? TIB_NINE).
Definition is_tib_letter (c : char) : bool := (TIB_KA <=? c) && (c <=? TIB_A).

(** [\s+] at the start of [s]. *)
Definition m_ws_plus (_ : bool) (s : str) : option nat :=
  match span_len py_isspace s with
  | O => None
  | n => Some n
  end.

(** [^[༠-༩]+] *)
Definition m_initial_number (at_start : bool) (s : str) : option nat :=
  if at_start then
    match span_len is_tib_digit s with
    | O => None
    | n => Some n
    end
  else None.

(** [^[༠-༩]+\s*] *)
Definition m_question_number (at_start : bool) (s : str) : option nat :=
  match m_initial_number at_start s with
  | Some n => Some (n + span_len py_isspace (drop n s))%nat
  | None => None
  end.

(** [༽\s*[༠-༩]+\s*]: the classes are disjoint, so each greedy star
    stops at one place only. *)
Definition m_duplicate_number (_ : bool) (s : str) : option nat :=
  match s with
  | c :: r =>
      if c =? ANG_CLOSE then
        let w1 := span_len py_isspace r in
        let r1 := drop w1 r in
        match span_len is_tib_digit r1 with
        | O => None
        | d =>
            let w2 := span_len py_isspace (drop d r1) in
            Some (1 + w1 + d + w2)%nat
        end
      else None
  | [] => None
  end.

(** [༼\s*([༠-༩]+)\s*༽] at the start of [s]. *)
Definition m_question_marker (s : str) : option nat :=
  match s with
  | c :: r =>
      if c =? ANG_OPEN then
        let w1 := span_len py_isspace r in
        let r1 := drop w1 r in
        match span_len is_tib_digit r1 with
        | O => None
        | d =>
            let r2 := drop d r1 in
            let w2 := span_len py_isspace r2 in
            match drop w2 r2 with
            | c' :: _ => if c' =? ANG_CLOSE then Some (1 + w1 + d + w2 + 1)%nat else None
            | [] => None
            end
        end
      else None
  | [] => None
  end.

(** [pattern.search(s)] for the pattern above: [group(0)] of the leftmost
    match. *)
Fixpoint search_question_marker (s : str) : option str :=
  match m_question_marker s with
  | Some n => Some (take n s)
  | None =>
      match s with
      | [] => None
      | _ :: r => search_question_marker r
      end
  end.

(** [re.compile(r"་$").search(s)]: [$] matches at the end and before a
    newline that ends the string. *)
Definition tseg_search (s : str) : bool :=
  endswith s [TSEG] || endswith s [TSEG; NEWLINE].

(** [^[ཀ-ཨ]\s*$]: after the letter only white space may follow ([$]
    can only succeed with nothing but white space behind it). *)
Definition alphabet_match (s : str) : bool :=
  match s with
  | c :: r => is_tib_letter c && forallb py_isspace r
  | [] => false
  end.

(** [^[ཀ-ཨ]\s*] *)
Definition m_alphabet_marker (at_start : bool) (s : str) : option nat :=
  if at_start then
    match s with
    | c :: r => if is_tib_letter c then Some (S (span_len py_isspace r)) else None
    | [] => None
    end
  else None.

Definition ANSWER_PHRASE_1 : str := u "དེའི་ལན་ནི།".
Definition ANSWER_PHRASE_2 : str := u "དེའི་དོན་ནི།".

(** [^(དེའི་ལན་ནི།|དེའི་དོན་ནི།)] *)
Definition m_answer_phrase (at_start : bool) (s : str) : option nat :=
  if at_start then
    if startswith s ANSWER_PHRASE_1 then Some (length ANSWER_PHRASE_1)
    else if startswith s ANSWER_PHRASE_2 then Some (length ANSWER_PHRASE_2)
    else None
  else None.

(** Matching with [pattern.match(s)]: is there a match at the start. *)
Definition re_match (m : bool -> str -> option nat) (s : str) : bool :=
  match m true s with
  | Some _ => true
  | None => false
  end.

(** ** qa.py *)

(** [clean_tibetan_text]: [re.sub(r"\s+", " ", text.strip())] *)
Definition clean_tibetan_text (text : str) : str :=
  re_sub m_ws_plus [SPACE] (strip text).

(** ** Loops that may raise *)

Fixpoint foldM {S A} (step : S -> A -> result S) (l : list A) (st : S) : result S :=
  match l with
  | [] => Ok st
  | a :: r => st' ← step st a; foldM step r st'
  end.

Definition CLOSE_SP : str := u "༽ ".   (* the text between index and entry *)

(** ** qa_2.py: questions start with a Tibetan numeral (variant A) *)

Module Qa2.

Definition answer_prefix : str := u "ལན། ".

Definition clean_question_text (text : str) : str :=
  let text := strip (re_sub m_initial_number [] text) in
  let text := strip (re_sub m_duplicate_number CLOSE_SP text) in
  text.

(** [_process_current_qa]: returns the two lists it appends to. *)
Definition _process_current_qa (question : str) (answer_lines : list str)
    (counter : Z) (questions_list answers_list : list str)
  : result (list str * list str) :=
  let cleaned_question := clean_question_text question in
  n ← int_to_tibetan_numeral counter;
  let numbered_question := n ++ CLOSE_SP ++ cleaned_question in
  let questions_list := questions_list ++ [numbered_question] in
  let cleaned_answer :=
    map (fun line =>
           if startswith line answer_prefix
           then drop (length answer_prefix) line else line)
        answer_lines in
  n' ← int_to_tibetan_numeral counter;
  let numbered_answer := n' ++ CLOSE_SP ++ join [NEWLINE] cleaned_answer in
  Ok (questions_list, answers_list ++ [numbered_answer]).

Record state := mk {
  parsed_questions : list str;
  parsed_answers : list str;
  current_question : option str;
  current_answer : list str;
  question_counter : Z }.

Definition init : state := mk [] [] None [] 1.

(** One iteration of [for paragraph in document.paragraphs]. *)
Definition step (st : state) (paragraph : str) : result state :=
  let line := strip paragraph in
  if negb (truthy line) then Ok st
  else if re_match m_initial_number line then
    st ←
      (if truthy_opt (current_question st) then
         '(qs, ans) ← _process_current_qa
                       (default [] (current_question st)) (current_answer st)
                       (question_counter st)
                       (parsed_questions st) (parsed_answers st);
         Ok (mk qs ans (current_question st) (current_answer st)
                (question_counter st + 1))
       else Ok st);
    Ok (mk (parsed_questions st) (parsed_answers st) (Some line) []
           (question_counter st))
  else
    Ok (mk (parsed_questions st) (parsed_answers st) (current_question st)
           (current_answer st ++ [line]) (question_counter st)).

(** The code after the loop. *)
Definition finish (st : state) : result (list str * list str) :=
  if truthy_opt (current_question st) then
    _process_current_qa (default [] (current_question st)) (current_answer st)
                        (question_counter st)
                        (parsed_questions st) (parsed_answers st)
  else Ok (parsed_questions st, parsed_answers st).

Definition run (paragraphs : list str) : result state := foldM step paragraphs init.

Definition parse_docx (paragraphs : list str) : result (list str * list str) :=
  st ← run paragraphs; finish st.

End Qa2.

(** ** qa_3.py: numeral, then the answer keyword (variant B) *)

Module Qa3.

Definition answer_prefix : str := u "ལན།".

Definition clean_question_text (text : str) : str :=
  strip (re_sub m_question_number [] text).

Record state := mk {
  parsed_questions : list str;
  parsed_answers : list str;
  current_question : str;
  current_answer : list str;
  is_answer : bool;
  question_counter : Z }.

Definition init : state := mk [] [] [] [] false 1.

(** The two [append]s, written twice in the source. *)
Definition emit (st : state) : result (list str * list str) :=
  n ← int_to_tibetan_numeral (question_counter st);
  let q := n ++ CLOSE_SP ++ clean_question_text (current_question st) in
  n' ← int_to_tibetan_numeral (question_counter st);
  let a := n' ++ CLOSE_SP ++ join [NEWLINE] (current_answer st) in
  Ok (parsed_questions st ++ [q], parsed_answers st ++ [a]).

Definition step (st : state) (paragraph : str) : result state :=
  let line := strip paragraph in
  if negb (truthy line) then Ok st
  else if re_match m_question_number line then
    st ←
      (if truthy (current_question st) && truthy (current_answer st) then
         '(qs, ans) ← emit st;
         Ok (mk qs ans [] [] (is_answer st) (question_counter st + 1))
       else Ok st);
    Ok (mk (parsed_questions st) (parsed_answers st) line (current_answer st)
           false (question_counter st))
  else if startswith line answer_prefix then
    Ok (mk (parsed_questions st) (parsed_answers st) (current_question st)
           (current_answer st ++ [strip (drop (length answer_prefix) line)])
           true (question_counter st))
  else if is_answer st then
    Ok (mk (parsed_questions st) (parsed_answers st) (current_question st)
           (current_answer st ++ [line]) (is_answer st) (question_counter st))
  else
    Ok (mk (parsed_questions st) (parsed_answers st)
           (current_question st ++ [SPACE] ++ line)
           (current_answer st) (is_answer st) (question_counter st)).

Definition finish (st : state) : result (list str * list str) :=
  if truthy (current_question st) && truthy (current_answer st) then emit st
  else Ok (parsed_questions st, parsed_answers st).

Definition run (paragraphs : list str) : result state := foldM step paragraphs init.

Definition parse_docx (paragraphs : list str) : result (list str * list str) :=
  st ← run paragraphs; finish st.

End Qa3.

(** ** qa_4.py: sentinel glyph and answer phrases (variant C) *)

Module Qa4.

Definition shey_character : str := u "།".

Definition clean_question_text (text : str) : result str :=
  if contains text shey_character then
    rest ← py_index (split1 text shey_character) 1; Ok (strip rest)
  else Ok (strip text).

Definition clean_answer_text (text : str) : str :=
  strip (re_sub m_answer_phrase [] text).

Definition m_question_start (at_start : bool) (s : str) : option nat :=
  if at_start then
    match s with
    | c :: _ => if c =? YIG_MGO then Some 1%nat else None
    | [] => None
    end
  else None.

Definition _process_current_qa (question : str) (answer_lines : list str)
    (counter : Z) (questions_list answers_list : list str)
  : list str * list str :=
  let numbered_question := py_str_int counter ++ CLOSE_SP ++ question in
  let questions_list := questions_list ++ [numbered_question] in
  let cleaned_answer := join [NEWLINE] answer_lines in
  let numbered_answer := py_str_int counter ++ CLOSE_SP ++ cleaned_answer in
  (questions_list, answers_list ++ [numbered_answer]).

Record state := mk {
  parsed_questions : list str;
  parsed_answers : list str;
  current_question : option str;
  current_answer : list str;
  question_counter : Z }.

Definition init : state := mk [] [] None [] 1.

Definition step (st : state) (paragraph : str) : result state :=
  let line := strip paragraph in
  if negb (truthy line) then Ok st
  else if re_match m_question_start line then
    let st :=
      if truthy_opt (current_question st) then
        let '(qs, ans) := _process_current_qa
                            (default [] (current_question st)) (current_answer st)
                            (question_counter st)
                            (parsed_questions st) (parsed_answers st) in
        mk qs ans (current_question st) (current_answer st)
           (question_counter st + 1)
      else st in
    q ← clean_question_text line;
    Ok (mk (parsed_questions st) (parsed_answers st) (Some q) []
           (question_counter st))
  else if re_match m_answer_phrase line then
    Ok (mk (parsed_questions st) (parsed_answers st) (current_question st)
           (current_answer st ++ [clean_answer_text line]) (question_counter st))
  else
    Ok (mk (parsed_questions st) (parsed_answers st) (current_question st)
           (current_answer st ++ [line]) (question_counter st)).

Definition finish (st : state) : list str * list str :=
  if truthy_opt (current_question st) then
    _process_current_qa (default [] (current_question st)) (current_answer st)
                        (question_counter st)
                        (parsed_questions st) (parsed_answers st)
  else (parsed_questions st, parsed_answers st).

Definition run (paragraphs : list str) : result state := foldM step paragraphs init.

Definition parse_docx (paragraphs : list str) : result (list str * list str) :=
  st ← run paragraphs; Ok (finish st).

End Qa4.

(** ** qa_5.py: a lone alphabet letter opens a record (variant D) *)

Module Qa5.

Definition _process_current_qa (question answer : list str)
    (counter : Z) (questions_list answers_list : list str)
  : list str * list str :=
  let cleaned_question := strip (join [SPACE] question) in
  let cleaned_question := strip (re_sub m_alphabet_marker [] cleaned_question) in
  let numbered_question := py_str_int counter ++ CLOSE_SP ++ cleaned_question in
  let questions_list := questions_list ++ [numbered_question] in
  let numbered_answer := py_str_int counter ++ CLOSE_SP ++ strip (join [SPACE] answer) in
  (questions_list, answers_list ++ [numbered_answer]).

Record state := mk {
  parsed_questions : list str;
  parsed_answers : list str;
  current_question : list str;
  current_answer : list str;
  question_counter : Z }.

Definition init : state := mk [] [] [] [] 1.

Definition step (st : state) (paragraph : str) : state :=
  let line := strip paragraph in
  if negb (truthy line) then st
  else if alphabet_match line then
    let st :=
      if truthy (current_question st) || truthy (current_answer st) then
        let '(qs, ans) := _process_current_qa
                            (current_question st) (current_answer st)
                            (question_counter st)
                            (parsed_questions st) (parsed_answers st) in
        mk qs ans [] [] (question_counter st + 1)
      else st in
    mk (parsed_questions st) (parsed_answers st)
       (current_question st ++ [line]) (current_answer st) (question_counter st)
  else if truthy (current_question st) then
    if (length (current_question st) =? 1)%nat then
      mk (parsed_questions st) (parsed_answers st)
         (current_question st ++ [line]) (current_answer st) (question_counter st)
    else
      mk (parsed_questions st) (parsed_answers st)
         (current_question st) (current_answer st ++ [line]) (question_counter st)
  else st.

Definition finish (st : state) : list str * list str :=
  if truthy (current_question st) || truthy (current_answer st) then
    _process_current_qa (current_question st) (current_answer st)
                        (question_counter st)
                        (parsed_questions st) (parsed_answers st)
  else (parsed_questions st, parsed_answers st).

Definition run (paragraphs : list str) : state := fold_left step paragraphs init.

Definition parse_docx (paragraphs : list str) : list str * list str :=
  finish (run paragraphs).

End Qa5.

(** ** qa_6.py: a bracketed numeral anywhere in the line (variant E) *)

Module Qa6.

Record state := mk {
  questions : list str;
  answers : list str;
  current_question : str;
  current_answer : list str;
  question_counter : Z }.

Definition init : state := mk [] [] [] [] 1.

(** The two [append]s that close a record. *)
Definition emit (st : state) : result (list str * list str) :=
  let qs := questions st ++ [strip (current_question st)] in
  n ← int_to_tibetan (question_counter st);
  Ok (qs, answers st ++ [n ++ CLOSE_SP ++ strip (join [NEWLINE] (current_answer st))]).

Definition step (st : state) (para : str) : result state :=
  let line := strip para in
  if negb (truthy line) then Ok st
  else
    match search_question_marker line with
    | Some group0 =>
        st ←
          (if truthy (current_question st) then
             '(qs, ans) ← emit st;
             Ok (mk qs ans [] [] (question_counter st + 1))
           else Ok st);
        let current_question := strip (replace line group0 []) in
        n ← int_to_tibetan (question_counter st);
        let current_question := n ++ CLOSE_SP ++ current_question in
        Ok (mk (questions st) (answers st) current_question (current_answer st)
               (question_counter st))
    | None =>
        if truthy (current_question st) && tseg_search (current_question st) then
          Ok (mk (questions st) (answers st)
                 (current_question st ++ [SPACE] ++ line)
                 (current_answer st) (question_counter st))
        else
          Ok (mk (questions st) (answers st) (current_question st)
                 (current_answer st ++ [line]) (question_counter st))
    end.

Definition finish (st : state) : result (list str * list str) :=
  if truthy (current_question st) then emit st
  else Ok (questions st, answers st).

Definition run (paragraphs : list str) : result state := foldM step paragraphs init.

(** [process_docx], up to the two lists handed to [save_to_file]. *)
Definition process_docx (paragraphs : list str) : result (list str * list str) :=
  st ← run paragraphs; finish st.

End Qa6.

(** ** qa_7.py: [<digits>.] and the answer keyword (variant F) *)

Module Qa7.

Definition ANSWER_KEYWORD : str := u "ལན།".

Section Digits.

(** The class [\d] of the regular expression engine: the decimal
    digits of the Unicode database the interpreter ships. *)
Variable isdecimal : char -> bool.

(** [^\d+\.] as a test: one digit, then either the dot or the rest
    of the digits and the dot. *)
Fixpoint digits_dot (s : str) : bool :=
  match s with
  | c :: r => isdecimal c && (startswith r [DOT] || digits_dot r)
  | [] => false
  end.

Record state := mk {
  questions : list str;
  answers : list str;
  current_question : list str;
  current_answer : list str;
  is_question : bool;
  is_answer : bool }.

Definition init : state := mk [] [] [] [] false false.

Definition step (st : state) (para : str) : result state :=
  let text := strip para in
  if negb (truthy text) then Ok st
  else if digits_dot text then
    let st :=
      if truthy (current_question st) then
        mk (questions st ++ [strip (join [SPACE] (current_question st))])
           (answers st) [] (current_answer st) (is_question st) (is_answer st)
      else st in
    head ← py_index (split1 text [DOT]) 1;
    Ok (mk (questions st) (answers st)
           (current_question st ++ [strip head]) (current_answer st)
           true false)
  else if startswith text ANSWER_KEYWORD then
    let st :=
      if truthy (current_answer st) then
        mk (questions st)
           (answers st ++ [strip (join [SPACE] (current_answer st))])
           (current_question st) [] (is_question st) (is_answer st)
      else st in
    Ok (mk (questions st) (answers st) (current_question st)
           (current_answer st ++ [strip (replace text ANSWER_KEYWORD [])])
           false true)
  else if is_question st then
    Ok (mk (questions st) (answers st) (current_question st ++ [text])
           (current_answer st) (is_question st) (is_answer st))
  else if is_answer st then
    Ok (mk (questions st) (answers st) (current_question st)
           (current_answer st ++ [text]) (is_question st) (is_answer st))
  else Ok st.

Definition finish (st : state) : list str * list str :=
  let qs :=
    if truthy (current_question st)
    then questions st ++ [strip (join [SPACE] (current_question st))]
    else questions st in
  let ans :=
    if truthy (current_answer st)
    then answers st ++ [strip (join [SPACE] (current_answer st))]
    else answers st in
  (qs, ans).

Definition run (paragraphs : list str) : result state := foldM step paragraphs init.

(** [process]: the contents of [self.questions], [self.answers]. *)
Definition process (paragraphs : list str) : result (list str * list str) :=
  st ← run paragraphs; Ok (finish st).

End Digits.

(** [enumerate(l, start=1)] *)
Definition enumerate1 {A} (l : list A) : list (Z * A) :=
  imap (fun i a => (Z.of_nat i + 1, a)) l.

(** One of the two loops of [save_to_files]: the strings written. *)
Definition write_numbered (entries : list str) : result (list str) :=
  traverse (fun '(idx, entry) =>
              tibetan_num ← int_to_tibetan idx;
              Ok (tibetan_num ++ CLOSE_SP ++ entry ++ [NEWLINE; NEWLINE]))
           (enumerate1 entries).

(** [save_to_files]: what is written to the questions file and to the
    answers file. *)
Definition save_to_files (qs ans : list str) : result (list str * list str) :=
  qf ← write_numbered qs; af ← write_numbered ans; Ok (qf, af).

End Qa7.

(** ** html_parser.py: one unit per paragraph (variant G) *)

Module HtmlParser.

Definition ANSWER_KEYWORD : str := u "ལན།".

Definition get_tibetan_number (index : Z) : result str :=
  convert_to_tibetan_number index.

Record state := mk {
  questions : list str;
  answers : list str;
  question_index : Z;
  answer_index : Z }.

Definition init : state := mk [] [] 1 1.

(** A paragraph is given by the text of its first [span.span0], if it
    has one. *)
Definition step (st : state) (span : option str) : result state :=
  match span with
  | None => Ok st
  | Some text =>
      let content := strip text in
      if contains content ANSWER_KEYWORD then
        let answer := strip (replace content ANSWER_KEYWORD []) in
        n ← get_tibetan_number (answer_index st);
        Ok (mk (questions st) (answers st ++ [n ++ [SPACE] ++ answer])
               (question_index st) (answer_index st + 1))
      else
        question ←
          (if contains content [SPACE]
           then py_index (split1 content [SPACE]) (-1)
           else Ok content);
        n ← get_tibetan_number (question_index st);
        Ok (mk (questions st ++ [n ++ [SPACE] ++ question]) (answers st)
               (question_index st + 1) (answer_index st))
  end.

Definition parse_html (paragraphs : list (option str)) : result (list str * list str) :=
  st ← foldM step paragraphs init; Ok (questions st, answers st).

End HtmlParser.

(** ** combine_q_n_a.py: the aggregator *)

Module Combine.

Definition QUESTIONS_SUFFIX : str := u "_questions.txt".
Definition ANSWERS_SUFFIX : str := u "_answers.txt".

(** A directory: the names [os.listdir] returns, in that order, each
    with the lines [readlines()] gives for the file. *)
Definition directory := list (str * list str).

Definition listdir (dir : directory) : list str := map fst dir.

Fixpoint readlines (dir : directory) (name : str) : option (list str) :=
  match dir with
  | [] => None
  | (n, lines) :: r => if decide (n = name) then Some lines else readlines r name
  end.

(** [os.path.exists(os.path.join(directory, name))] *)
Definition path_exists (dir : directory) (name : str) : bool :=
  match readlines dir name with
  | Some _ => true
  | None => false
  end.

(** [parse_text_file], given the lines read; opening a file that is not
    there raises (not caught below). *)
Definition parse_text_file (dir : directory) (name : str) : result (list str) :=
  match readlines dir name with
  | Some file => Ok (map strip (filter (fun line => truthy (strip line)) file))
  | None => Raise OSError
  end.

Record qa_pair := mk_pair {
  question : str;
  answer : str;
  filename : str }.

(** [range(n)] *)
Definition range (n : Z) : list Z := map Z.of_nat (seq 0 (Z.to_nat n)).

(** [entry.split(" ", 1)[-1]], commented "Remove indexing". *)
Definition remove_indexing (entry : str) : result str :=
  py_index (split1 entry [SPACE]) (-1).

Record state := mk {
  combined_data : list qa_pair;
  total_records : Z;
  file_statistics : gmap (list Z) Z }.

Definition init : state := mk [] 0 ∅.

(** The body of [for i in range(record_count)]. *)
Definition pair_at (questions answers : list str) (base_filename : str) (i : Z)
  : result qa_pair :=
  qi ← py_index questions i;
  q ← remove_indexing qi;
  ai ← py_index answers i;
  a ← remove_indexing ai;
  Ok (mk_pair q a base_filename).

(** One iteration of [for filename in os.listdir(directory)]. *)
Definition step (dir : directory) (st : state) (fname : str) : result state :=
  if endswith fname QUESTIONS_SUFFIX then
    let question_file := fname in
    let base_filename := replace fname QUESTIONS_SUFFIX [] in
    let answer_file := base_filename ++ ANSWERS_SUFFIX in
    if path_exists dir answer_file then
      questions ← parse_text_file dir question_file;
      answers ← parse_text_file dir answer_file;
      let record_count :=
        Z.min (Z.of_nat (length questions)) (Z.of_nat (length answers)) in
      let total := total_records st + record_count in
      let stats := <[base_filename := record_count]> (file_statistics st) in
      pairs ← traverse (pair_at questions answers base_filename) (range record_count);
      Ok (mk (combined_data st ++ pairs) total stats)
    else Ok st
  else Ok st.

Definition combine_question_answer_files (dir : directory)
  : result (list qa_pair * Z * gmap (list Z) Z) :=
  st ← foldM (step dir) (listdir dir) init;
  Ok (combined_data st, total_records st, file_statistics st).

End Combine.

(** ** Text files between the parsers and the aggregator *)

Module TextFile.

Definition CR : char := 0x0D.

(** [save_output] (qa_2.py to qa_5.py) and [save_to_file] (qa_6.py):
    the text written to a file, [list] being its entries. *)
Definition save_output (entries : list str) : str := join [NEWLINE; NEWLINE] entries.

(** Reading in text mode with the default [newline=None]: a carriage
    return, with the newline behind it if there is one, arrives as one
    newline. *)
Fixpoint universal_newlines (text : str) : str :=
  match text with
  | [] => []
  | c :: r =>
      if c =? CR then
        NEWLINE :: match r with
                   | d :: r' =>
                       if d =? NEWLINE then universal_newlines r' else universal_newlines r
                   | [] => []
                   end
      else c :: universal_newlines r
  end.

(** [file.readlines()] on the text read: the text cut behind every
    newline, each line with its newline. *)
Fixpoint readlines (text : str) : list str :=
  match text with
  | [] => []
  | c :: r =>
      if c =? NEWLINE then [c] :: readlines r
      else
        match readlines r with
        | l :: ls => (c :: l) :: ls
        | [] => [[c]]
        end
  end.

(** What [readlines()] gives for a file to which [text] was written in
    text mode, where [os.linesep] is the newline. *)
Definition written (text : str) : list str := readlines (universal_newlines text).

End TextFile.

(** ** Notions used to state the properties *)

Definition is_ascii_digit (c : char) : Prop := ASCII_ZERO <= c <= ASCII_ZERO + 9.

(** The glyph of the alphabet for an ASCII digit. *)
Definition to_tib (c : char) : char := TIB_ZERO + (c - ASCII_ZERO).

(** [tib n]: the digits of [str(n)], each through the alphabet. *)
Definition tib (n : Z) : str := map to_tib (py_str_int n).

(** Replacing every run of white space by one space, with [in_run]
    telling whether the previous character was white space. *)
Fixpoint sub_ws (in_run : bool) (s : str) : str :=
  match s with
  | [] => []
  | c :: r =>
      if py_isspace c then (if in_run then sub_ws true r else SPACE :: sub_ws true r)
      else c :: sub_ws false r
  end.

Definition starts_with_space (s : str) : bool :=
  match s with
  | c :: _ => py_isspace c
  | [] => false
  end.

(** The words of a string: its maximal runs of characters that are not
    white space, in order ([s.split()] in Python). *)
Fixpoint words (s : str) : list str :=
  match s with
  | [] => []
  | c :: r =>
      if py_isspace c then words r
      else
        match r with
        | d :: _ =>
            if py_isspace d then [c] :: words r
            else
              match words r with
              | w :: ws => (c :: w) :: ws
              | [] => [[c]]
              end
        | [] => [[c]]
        end
  end.

(** A string that is empty or ends with a character that is not white
    space. *)
Fixpoint ends_nonspace (s : str) : bool :=
  match s with
  | [] => true
  | [c] => negb (py_isspace c)
  | _ :: r => ends_nonspace r
  end.

(** *** The aggregator *)

(** What is left of an entry behind its first space; the whole entry
    when it has none. *)
Definition after_index (entry : str) : str :=
  match partition_first entry [SPACE] with
  | Some (_, rest) => rest
  | None => entry
  end.

(** The lines of a file that are not blank, stripped. *)
Definition text_lines (file : list str) : list str :=
  map strip (List.filter (fun line => truthy (strip line)) file).

(** A document of the directory: its base name, its question entries and
    its answer entries. *)
Record document := mk_doc {
  doc_name : str;
  doc_questions : list str;
  doc_answers : list str }.

(** The document a file name stands for: the name ends with the
    questions suffix and the answers file of the same base name is in
    the directory. *)
Definition document_of (dir : Combine.directory) (fname : str) : option document :=
  if endswith fname Combine.QUESTIONS_SUFFIX then
    let base := replace fname Combine.QUESTIONS_SUFFIX [] in
    match Combine.readlines dir fname, Combine.readlines dir (base ++ Combine.ANSWERS_SUFFIX) with
    | Some qf, Some af => Some (mk_doc base (text_lines qf) (text_lines af))
    | _, _ => None
    end
  else None.

(** The documents of a directory, in the order of [os.listdir]. *)
Definition documents (dir : Combine.directory) : list document :=
  omap (document_of dir) (Combine.listdir dir).

(** The number of pairs a document yields: the shorter of its two
    lists. *)
Definition pair_count (d : document) : Z :=
  Z.min (Z.of_nat (length (doc_questions d))) (Z.of_nat (length (doc_answers d))).

(** The records of a document: entry [i] of the questions with entry
    [i] of the answers, as long as both exist. *)
Definition records_of (d : document) : list Combine.qa_pair :=
  zip_with (fun q a => Combine.mk_pair (after_index q) (after_index a) (doc_name d))
           (doc_questions d) (doc_answers d).

Definition sum_list (l : list Z) : Z := fold_right Z.add 0 l.

(** The sum of the counts a statistics dictionary holds. *)
Definition sum_values (m : gmap (list Z) Z) : Z :=
  map_fold (fun _ v acc => v + acc) 0 m.

(** The statistics after the counts of [docs] have been stored, one
    after the other, in the dictionary [m]. *)
Definition record_stats (m : gmap (list Z) Z) (docs : list document) : gmap (list Z) Z :=
  foldl (fun m d => <[doc_name d := pair_count d]> m) m docs.

(** The state of the aggregator after the documents [docs]. *)
Definition after_documents (docs : list document) (st : Combine.state) : Combine.state :=
  Combine.mk
    (Combine.combined_data st ++ concat (map records_of docs))
    (Combine.total_records st + sum_list (map pair_count docs))
    (record_stats (Combine.file_statistics st) docs).

(** *** Paragraph streams *)

(** The lines the loops see: stripped, the empty ones skipped. *)
Definition seen_lines (paragraphs : list str) : list str :=
  List.filter truthy (map strip paragraphs).

(** The number of paragraphs that open a question under the test
    [is_start] of a variant. *)
Definition question_starts (is_start : str -> bool) (paragraphs : list str) : nat :=
  length (List.filter is_start (seen_lines paragraphs)).

(** The entries of [l] carry the indices [k], [k+1], ... in this order:
    each starts with the encoding of its index and the closing glyph. *)
Fixpoint indexed (enc : Z -> str) (k : Z) (l : list str) : Prop :=
  match l with
  | [] => True
  | e :: r => (exists body, e = enc k ++ ANG_CLOSE :: body) /\ indexed enc (k + 1) r
  end.

(** The test that makes a line open a question under variant E. *)
Definition has_question_marker (line : str) : bool :=
  match search_question_marker line with
  | Some _ => true
  | None => false
  end.

(** What holds of the state of the loop of qa_6.py after the paragraphs
    [seen]. *)
Definition qa6_inv (seen : list str) (st : Qa6.state) : Prop :=
  Qa6.question_counter st = 1 + Z.of_nat (length (Qa6.questions st)) /\
  length (Qa6.answers st) = length (Qa6.questions st) /\
  indexed tib 1 (Qa6.questions st) /\
  indexed tib 1 (Qa6.answers st) /\
  endswith (Qa6.current_question st) [NEWLINE] = false /\
  (truthy (Qa6.current_question st) = true ->
   exists body, Qa6.current_question st
                = tib (Qa6.question_counter st) ++ ANG_CLOSE :: body) /\
  (length (Qa6.questions st) + (if truthy (Qa6.current_question st) then 1 else 0)
   = question_starts has_question_marker seen)%nat.

(** The test that makes a line open a question under variant A. *)
Definition starts_with_numeral (line : str) : bool := re_match m_initial_number line.

(** What holds of the state of the loop of qa_2.py after the paragraphs
    [seen]. *)
Definition qa2_inv (seen : list str) (st : Qa2.state) : Prop :=
  Qa2.question_counter st = 1 + Z.of_nat (length (Qa2.parsed_questions st)) /\
  length (Qa2.parsed_answers st) = length (Qa2.parsed_questions st) /\
  indexed tib 1 (Qa2.parsed_questions st) /\
  indexed tib 1 (Qa2.parsed_answers st) /\
  (length (Qa2.parsed_questions st)
   + (if truthy_opt (Qa2.current_question st) then 1 else 0)
   = question_starts starts_with_numeral seen)%nat.

(** The pair [_process_current_qa] of qa_2.py appends for the open
    record of [st]. *)
Definition qa2_entry (st : Qa2.state) : str * str :=
  (tib (Qa2.question_counter st) ++ CLOSE_SP
   ++ Qa2.clean_question_text (default [] (Qa2.current_question st)),
   tib (Qa2.question_counter st) ++ CLOSE_SP
   ++ join [NEWLINE]
        (map (fun line => if startswith line Qa2.answer_prefix
                          then drop (length Qa2.answer_prefix) line else line)
             (Qa2.current_answer st))).

(** The lists [parse_docx] of qa_2.py returns from the final state. *)
Definition qa2_result (st : Qa2.state) : list str * list str :=
  if truthy_opt (Qa2.current_question st)
  then (Qa2.parsed_questions st ++ [fst (qa2_entry st)],
        Qa2.parsed_answers st ++ [snd (qa2_entry st)])
  else (Qa2.parsed_questions st, Qa2.parsed_answers st).

(** *** qa_3.py *)

(** The test that makes a line open a question under variant B. *)
Definition starts_with_number (line : str) : bool := re_match m_question_number line.

(** The line carries the answer keyword of variant B. *)
Definition is_answer_line (paragraph : str) : bool :=
  startswith (strip paragraph) Qa3.answer_prefix.

Definition qa3_inv (st : Qa3.state) : Prop :=
  Qa3.question_counter st = 1 + Z.of_nat (length (Qa3.parsed_questions st)) /\
  length (Qa3.parsed_answers st) = length (Qa3.parsed_questions st) /\
  indexed tib 1 (Qa3.parsed_questions st) /\
  indexed tib 1 (Qa3.parsed_answers st).

(** The guard of both emissions of qa_3.py. *)
Definition qa3_pending (st : Qa3.state) : bool :=
  truthy (Qa3.current_question st) && truthy (Qa3.current_answer st).

Definition qa3_entry (st : Qa3.state) : str * str :=
  (tib (Qa3.question_counter st) ++ CLOSE_SP
   ++ Qa3.clean_question_text (Qa3.current_question st),
   tib (Qa3.question_counter st) ++ CLOSE_SP
   ++ join [NEWLINE] (Qa3.current_answer st)).

(** The lists [parse_docx] of qa_3.py returns from the final state. *)
Definition qa3_result (st : Qa3.state) : list str * list str :=
  if qa3_pending st
  then (Qa3.parsed_questions st ++ [fst (qa3_entry st)],
        Qa3.parsed_answers st ++ [snd (qa3_entry st)])
  else (Qa3.parsed_questions st, Qa3.parsed_answers st).

(** A stream that is a sequence of records: a question line and the
    lines up to the next question line. *)
Definition flatten_records (recs : list (str * list str)) : list str :=
  concat (map (fun r => fst r :: snd r) recs).

Definition record_wf (r : str * list str) : Prop :=
  truthy (strip (fst r)) = true /\
  starts_with_number (strip (fst r)) = true /\
  Forall (fun l => starts_with_number (strip l) = false) (snd r).

(** The record has a line with the answer keyword. *)
Definition has_answer_line (r : str * list str) : bool :=
  existsb is_answer_line (snd r).

(** *** qa_4.py *)

(** The text [clean_question_text] of qa_4.py keeps: what follows the
    first shey, or the whole line when there is none; stripped. *)
Definition cleaned_question (text : str) : str :=
  match partition_first text Qa4.shey_character with
  | Some (_, rest) => strip rest
  | None => strip text
  end.

(** The line starts with the sentinel glyph of variant C. *)
Definition starts_with_sentinel (line : str) : bool := re_match Qa4.m_question_start line.

(** The line opens a question whose cleaned text is not empty. *)
Definition opens_question4 (line : str) : bool :=
  starts_with_sentinel line && truthy (cleaned_question line).

(** What a line that opens no question adds to the answer buffer. *)
Definition answer_fragment4 (line : str) : str :=
  if re_match m_answer_phrase line then Qa4.clean_answer_text line else line.

Definition qa4_inv (seen : list str) (st : Qa4.state) : Prop :=
  Qa4.question_counter st = 1 + Z.of_nat (length (Qa4.parsed_questions st)) /\
  length (Qa4.parsed_answers st) = length (Qa4.parsed_questions st) /\
  indexed py_str_int 1 (Qa4.parsed_questions st) /\
  indexed py_str_int 1 (Qa4.parsed_answers st) /\
  (length (Qa4.parsed_questions st)
   + (if truthy_opt (Qa4.current_question st) then 1 else 0)
   = question_starts opens_question4 seen)%nat.

(** The lists [parse_docx] of qa_4.py returns from the final state. *)
Definition qa4_result (st : Qa4.state) : list str * list str :=
  if truthy_opt (Qa4.current_question st)
  then (Qa4.parsed_questions st
        ++ [py_str_int (Qa4.question_counter st) ++ CLOSE_SP
            ++ default [] (Qa4.current_question st)],
        Qa4.parsed_answers st
        ++ [py_str_int (Qa4.question_counter st) ++ CLOSE_SP
            ++ join [NEWLINE] (Qa4.current_answer st)])
  else (Qa4.parsed_questions st, Qa4.parsed_answers st).

(** *** qa_5.py *)

Definition qa5_inv (seen : list str) (st : Qa5.state) : Prop :=
  Qa5.question_counter st = 1 + Z.of_nat (length (Qa5.parsed_questions st)) /\
  length (Qa5.parsed_answers st) = length (Qa5.parsed_questions st) /\
  indexed py_str_int 1 (Qa5.parsed_questions st) /\
  indexed py_str_int 1 (Qa5.parsed_answers st) /\
  (truthy (Qa5.current_question st) = false -> Qa5.current_answer st = []) /\
  (length (Qa5.parsed_questions st)
   + (if truthy (Qa5.current_question st) then 1 else 0)
   = question_starts alphabet_match seen)%nat.

(** The pair [_process_current_qa] of qa_5.py appends for the open
    record of [st]. *)
Definition qa5_entry (st : Qa5.state) : str * str :=
  (py_str_int (Qa5.question_counter st) ++ CLOSE_SP
   ++ strip (re_sub m_alphabet_marker []
               (strip (join [SPACE] (Qa5.current_question st)))),
   py_str_int (Qa5.question_counter st) ++ CLOSE_SP
   ++ strip (join [SPACE] (Qa5.current_answer st))).

(** *** qa_7.py *)

(** The line carries the answer keyword and is no numbered line. *)
Definition is_answer_start7 (isdecimal : char -> bool) (line : str) : bool :=
  negb (Qa7.digits_dot isdecimal line) && startswith line Qa7.ANSWER_KEYWORD.

(** What follows the first dot of a line. *)
Definition after_dot (text : str) : str :=
  match partition_first text [DOT] with
  | Some (_, rest) => rest
  | None => []
  end.

Definition qa7_inv (isdecimal : char -> bool) (seen : list str) (st : Qa7.state) : Prop :=
  (Qa7.is_question st = true -> truthy (Qa7.current_question st) = true) /\
  (Qa7.is_answer st = true -> truthy (Qa7.current_answer st) = true) /\
  (length (Qa7.questions st) + (if truthy (Qa7.current_question st) then 1 else 0)
   = question_starts (Qa7.digits_dot isdecimal) seen)%nat /\
  (length (Qa7.answers st) + (if truthy (Qa7.current_answer st) then 1 else 0)
   = question_starts (is_answer_start7 isdecimal) seen)%nat.

(** *** html_parser.py *)

(** The paragraphs that have a span. *)
Definition span_texts (paragraphs : list (option str)) : list str :=
  omap id paragraphs.

(** The span is taken for an answer. *)
Definition is_answer_unit (text : str) : bool :=
  contains (strip text) HtmlParser.ANSWER_KEYWORD.

Definition html_inv (seen : list (option str)) (st : HtmlParser.state) : Prop :=
  HtmlParser.question_index st = 1 + Z.of_nat (length (HtmlParser.questions st)) /\
  HtmlParser.answer_index st = 1 + Z.of_nat (length (HtmlParser.answers st)) /\
  indexed tib 1 (HtmlParser.questions st) /\
  indexed tib 1 (HtmlParser.answers st) /\
  length (HtmlParser.answers st)
  = length (List.filter is_answer_unit (span_texts seen)) /\
  length (HtmlParser.questions st)
  = length (List.filter (fun t => negb (is_answer_unit t)) (span_texts seen)).

(** *** Text files *)

(** [text.split("\n")]: the lines of a text, without their newlines. *)
Fixpoint split_newline (text : str) : list str :=
  match text with
  | [] => [[]]
  | c :: r =>
      if c =? NEWLINE then [] :: split_newline r
      else
        match split_newline r with
        | l :: ls => (c :: l) :: ls
        | [] => [[c]]
        end
  end.

(** The lines as [readlines()] gives them: each with its newline, but
    for the last, which is left out when empty. *)
Fixpoint line_ends (ls : list str) : list str :=
  match ls with
  | [] => []
  | l :: ls' =>
      match ls' with
      | [] => if truthy l then [l] else []
      | _ :: _ => (l ++ [NEWLINE]) :: line_ends ls'
      end
  end.

(** *** qa_6.py: two runs that differ in the answer of the first record *)

(** [st'] is [st] with the lines [a] in front of the answer lines of the
    first record: in its answer buffer while the first record is open,
    in the first entry of the answers afterwards.  The answer lines of
    the first record are taken from [pool]. *)
Definition qa6_prefixed (a pool : list str) (st st' : Qa6.state) : Prop :=
  Qa6.questions st' = Qa6.questions st /\
  Qa6.current_question st' = Qa6.current_question st /\
  Qa6.question_counter st' = Qa6.question_counter st /\
  1 <= Qa6.question_counter st /\
  ((Qa6.answers st = [] /\ Qa6.answers st' = [] /\
    Qa6.question_counter st = 1 /\
    truthy (Qa6.current_question st) = true /\
    Qa6.current_answer st' = a ++ Qa6.current_answer st /\
    Forall (fun l => In l pool) (Qa6.current_answer st))
   \/
   (exists lines ans,
      Qa6.answers st = (tib 1 ++ CLOSE_SP ++ strip (join [NEWLINE] lines)) :: ans /\
      Qa6.answers st' = (tib 1 ++ CLOSE_SP ++ strip (join [NEWLINE] (a ++ lines))) :: ans /\
      Qa6.current_answer st' = Qa6.current_answer st /\
      Forall (fun l => In l pool) lines)).

(** *** Directories for the aggregator *)

(** Two documents with different base names, the second with fewer
    questions than answers. *)
Definition two_documents : Combine.directory :=
  [(u "doc1_questions.txt", [u "༡༽ q"; u "༢༽ q"; u "༣༽ q"]);
   (u "doc1_answers.txt", [u "༡༽ a"; u "༢༽ a"; u "༣༽ a"]);
   (u "doc2_questions.txt", [u "༡༽ q"; u "༢༽ q"]);
   (u "doc2_answers.txt", [u "༡༽ a"; u "༢༽ a"; u "༣༽ a"; u "༤༽ a"; u "༥༽ a"])].

(** Two questions files that have the same base name. *)
Definition colliding_directory : Combine.directory :=
  [(u "x_questions.txt_questions.txt", [u "༡༽ q"]);
   (u "x_questions.txt", [u "༡༽ q"; u "༢༽ q"]);
   (u "x_answers.txt", [u "༡༽ a"; u "༢༽ a"])].
(** * Properties *)

(** ** Literals and encoders on examples *)

Example TIBETAN_DIGITS_codes :
  TIBETAN_DIGITS = [0x0F20; 0x0F21; 0x0F22; 0x0F23; 0x0F24; 0x0F25; 0x0F26; 0x0F27; 0x0F28; 0x0F29].
Proof. reflexivity. Qed.

Example glyph_codes :
  u "༈་།༼༽ཀཨ" = [YIG_MGO; TSEG; SHEY; ANG_OPEN; ANG_CLOSE; TIB_KA; TIB_A].
Proof. reflexivity. Qed.

Example encode_120 : int_to_tibetan_numeral 120 = Ok (u "༡༢༠").
Proof. reflexivity. Qed.

Example encode_bracketed_7 : convert_to_tibetan_number 7 = Ok (u "༧༽").
Proof. reflexivity. Qed.

Example encode_negative : int_to_tibetan_numeral (-3) = Raise ValueError.
Proof. reflexivity. Qed.

(** ** The numeral encoders *)

Lemma bind_ok {A B} (a : A) (k : A -> result B) : (x ← Ok a; k x) = k a.
Proof. reflexivity. Qed.


Lemma decimal_value_snoc zero s c :
  decimal_value zero (s ++ [c]) = decimal_value zero s * 10 + (c - zero).
Proof. unfold decimal_value. now rewrite fold_left_app. Qed.

Lemma digits_acc_app fuel : forall n acc,
  digits_acc fuel n acc = digits_acc fuel n [] ++ acc.
Proof.
  induction fuel as [|f IH]; intros n acc; simpl.
  - reflexivity.
  - destruct (n / 10 =? 0); [reflexivity|].
    rewrite (IH _ (_ :: acc)), (IH _ [_]).
    now rewrite <- app_assoc.
Qed.

Lemma digits_acc_step f n :
  n / 10 <> 0 ->
  digits_acc (S f) n [] = digits_acc f (n / 10) [] ++ [ASCII_ZERO + n mod 10].
Proof.
  intros H. simpl. apply Z.eqb_neq in H. rewrite H. apply digits_acc_app.
Qed.

Lemma digits_acc_last f n :
  n / 10 = 0 -> digits_acc f n [] = [ASCII_ZERO + n mod 10].
Proof. intros H. destruct f; simpl; [reflexivity|]. now rewrite H. Qed.

Lemma pow2_fuel_step f n :
  0 <= n < 2 ^ (Z.of_nat (S f) + 1) -> 0 <= n / 10 < 2 ^ (Z.of_nat f + 1).
Proof.
  intros [H0 H1]. split; [apply Z.div_pos; lia|].
  replace (Z.of_nat (S f) + 1) with (Z.succ (Z.of_nat f + 1)) in H1 by lia.
  rewrite Z.pow_succ_r in H1 by lia.
  apply Z.div_lt_upper_bound; lia.
Qed.

Lemma digits_acc_value fuel : forall n,
  0 <= n < 2 ^ (Z.of_nat fuel + 1) ->
  decimal_value ASCII_ZERO (digits_acc fuel n []) = n.
Proof.
  induction fuel as [|f IH]; intros n Hn.
  - simpl in Hn. change (2 ^ 1) with 2 in Hn.
    rewrite digits_acc_last by (apply Z.div_small; lia).
    unfold decimal_value; simpl. rewrite Z.mod_small; lia.
  - destruct (Z.eq_dec (n / 10) 0) as [E|E].
    + rewrite digits_acc_last by assumption.
      unfold decimal_value; simpl.
      pose proof (Z.div_mod n 10 ltac:(lia)). lia.
    + rewrite digits_acc_step, decimal_value_snoc by assumption.
      rewrite IH by (now apply pow2_fuel_step).
      pose proof (Z.div_mod n 10 ltac:(lia)). lia.
Qed.

Lemma digits_acc_ascii fuel : forall n,
  Forall is_ascii_digit (digits_acc fuel n []).
Proof.
  assert (D : forall n, is_ascii_digit (ASCII_ZERO + n mod 10)).
  { intros n. unfold is_ascii_digit.
    pose proof (Z.mod_pos_bound n 10 ltac:(lia)). lia. }
  induction fuel as [|f IH]; intros n.
  - simpl. constructor; [apply D | constructor].
  - destruct (Z.eq_dec (n / 10) 0) as [E|E].
    + rewrite digits_acc_last by assumption. constructor; [apply D | constructor].
    + rewrite digits_acc_step by assumption.
      apply Forall_app. split; [apply IH|]. constructor; [apply D | constructor].
Qed.

Lemma digits_acc_head fuel : forall n,
  1 <= n < 2 ^ (Z.of_nat fuel + 1) ->
  exists d r, digits_acc fuel n [] = (ASCII_ZERO + d) :: r /\ 1 <= d <= 9.
Proof.
  induction fuel as [|f IH]; intros n Hn.
  - simpl in Hn. change (2 ^ 1) with 2 in Hn.
    exists 1, []. simpl. replace n with 1 by lia. split; [reflexivity | lia].
  - destruct (Z.eq_dec (n / 10) 0) as [E|E].
    + rewrite digits_acc_last by assumption.
      apply Z.div_small_iff in E; [|lia].
      exists n, []. rewrite Z.mod_small by lia. split; [reflexivity | lia].
    + rewrite digits_acc_step by assumption.
      destruct (IH (n / 10)) as (d & r & Hr & Hd).
      { pose proof (pow2_fuel_step f n ltac:(lia)). lia. }
      rewrite Hr. exists d, (r ++ [ASCII_ZERO + n mod 10]). split; [reflexivity | lia].
Qed.

(** The digit at position [i] of [str(n)] is the base-10 digit of that
    weight. *)
Lemma digits_acc_nth fuel : forall n (i : nat),
  0 <= n < 2 ^ (Z.of_nat fuel + 1) ->
  (i < length (digits_acc fuel n []))%nat ->
  digits_acc fuel n [] !! i =
    Some (ASCII_ZERO +
          (n / 10 ^ (Z.of_nat (length (digits_acc fuel n [])) - 1 - Z.of_nat i)) mod 10).
Proof.
  induction fuel as [|f IH]; intros n i Hn Hi.
  - simpl in *. destruct i; [|lia]. simpl. now rewrite Z.div_1_r.
  - destruct (Z.eq_dec (n / 10) 0) as [E|E].
    + rewrite digits_acc_last in * by assumption. simpl in *.
      destruct i; [|lia]. simpl. now rewrite Z.div_1_r.
    + rewrite digits_acc_step in * by assumption.
      rewrite length_app in *. simpl in Hi |- *.
      set (L := digits_acc f (n / 10) []) in *.
      destruct (decide (i < length L)%nat) as [Hlt|Hge].
      * rewrite lookup_app_l by assumption.
        unfold L. rewrite IH by (try apply pow2_fuel_step; assumption).
        fold L. do 3 f_equal.
        rewrite Z.div_div by (try apply Z.pow_pos_nonneg; lia).
        f_equal.
        replace (Z.of_nat (length L + 1) - 1 - Z.of_nat i)
          with (Z.succ (Z.of_nat (length L) - 1 - Z.of_nat i)) by lia.
        rewrite Z.pow_succ_r by lia. reflexivity.
      * assert (i = length L) as -> by lia.
        rewrite lookup_app_r by lia. rewrite Nat.sub_diag. simpl.
        replace (Z.of_nat (length L + 1) - 1 - Z.of_nat (length L)) with 0 by lia.
        now rewrite Z.div_1_r.
Qed.

Lemma log2_fuel n : 0 <= n -> 0 <= n < 2 ^ (Z.of_nat (Z.to_nat (Z.log2 n)) + 1).
Proof.
  intros Hn. rewrite Z2Nat.id by apply Z.log2_nonneg.
  destruct (Z.eq_dec n 0) as [->|Hne]; [simpl; lia|].
  pose proof (Z.log2_spec n ltac:(lia)). unfold Z.succ in *. lia.
Qed.

Lemma py_str_int_nonneg n : 0 <= n -> py_str_int n = str_of_nonneg n.
Proof.
  intros Hn. unfold py_str_int.
  destruct (Z.ltb_spec n 0); [lia | reflexivity].
Qed.

Lemma alphabet_entry d :
  0 <= d <= 9 -> py_index TIBETAN_DIGITS d = Ok (TIB_ZERO + d).
Proof.
  intros Hd.
  assert (d = 0 \/ d = 1 \/ d = 2 \/ d = 3 \/ d = 4 \/ d = 5 \/ d = 6 \/
          d = 7 \/ d = 8 \/ d = 9) as H by lia.
  repeat (destruct H as [->|H]; [reflexivity|]). now subst.
Qed.

Lemma encode_digit c :
  is_ascii_digit c ->
  (i ← py_int_char c; py_index TIBETAN_DIGITS i) = Ok (to_tib c).
Proof.
  unfold is_ascii_digit, py_int_char. intros Hc.
  destruct (Z.leb_spec ASCII_ZERO c); [|lia].
  destruct (Z.leb_spec c (ASCII_ZERO + 9)); [|lia].
  simpl. apply alphabet_entry. lia.
Qed.

Lemma traverse_digits l :
  Forall is_ascii_digit l ->
  traverse (fun d => i ← py_int_char d; py_index TIBETAN_DIGITS i) l = Ok (map to_tib l).
Proof.
  induction 1 as [|c l Hc _ IH]; [reflexivity|].
  cbn [traverse map]. rewrite encode_digit by assumption.
  rewrite bind_ok, IH. reflexivity.
Qed.

Lemma tibetan_digits_of_nonneg n : 0 <= n -> tibetan_digits_of n = Ok (tib n).
Proof.
  intros Hn. unfold tibetan_digits_of, tib.
  apply traverse_digits. rewrite py_str_int_nonneg by assumption.
  apply digits_acc_ascii.
Qed.

Lemma int_to_tibetan_numeral_ok n : 0 <= n -> int_to_tibetan_numeral n = Ok (tib n).
Proof.
  intros Hn. unfold int_to_tibetan_numeral. now rewrite tibetan_digits_of_nonneg.
Qed.

Lemma int_to_tibetan_ok n : 0 <= n -> int_to_tibetan n = Ok (tib n).
Proof. apply tibetan_digits_of_nonneg. Qed.

Lemma convert_to_tibetan_number_ok n :
  0 <= n -> convert_to_tibetan_number n = Ok (tib n ++ [ANG_CLOSE]).
Proof.
  intros Hn. unfold convert_to_tibetan_number. now rewrite tibetan_digits_of_nonneg.
Qed.

Lemma decimal_value_to_tib l :
  decimal_value TIB_ZERO (map to_tib l) = decimal_value ASCII_ZERO l.
Proof.
  induction l as [|c l IH] using rev_ind; [reflexivity|].
  rewrite map_app. simpl. rewrite !decimal_value_snoc, IH. unfold to_tib. lia.
Qed.

(** The number of decimal digits of [n]: the least [k] with [n < 10^k]. *)
Lemma digits_acc_length fuel : forall n,
  1 <= n < 2 ^ (Z.of_nat fuel + 1) ->
  10 ^ (Z.of_nat (length (digits_acc fuel n [])) - 1) <= n
    < 10 ^ Z.of_nat (length (digits_acc fuel n [])).
Proof.
  induction fuel as [|f IH]; intros n Hn.
  - simpl in *. change (2 ^ 1) with 2 in Hn. lia.
  - destruct (Z.eq_dec (n / 10) 0) as [E|E].
    + rewrite digits_acc_last by assumption. simpl.
      apply Z.div_small_iff in E; lia.
    + rewrite digits_acc_step by assumption. rewrite length_app. simpl.
      set (L := digits_acc f (n / 10) []) in *.
      assert (Hq : 1 <= n / 10 < 2 ^ (Z.of_nat f + 1)).
      { pose proof (pow2_fuel_step f n ltac:(lia)).
        assert (0 <= n / 10) by (apply Z.div_pos; lia). lia. }
      specialize (IH _ Hq). fold L in IH.
      assert (0 < length L)%nat.
      { destruct (digits_acc_head f (n / 10) Hq) as (d & r & Hr & _).
        unfold L. rewrite Hr. simpl. lia. }
      replace (Z.of_nat (length L + 1) - 1)
        with (Z.succ (Z.of_nat (length L) - 1)) by lia.
      replace (Z.of_nat (length L + 1)) with (Z.succ (Z.of_nat (length L))) by lia.
      rewrite !Z.pow_succ_r by lia.
      pose proof (Z.div_mod n 10 ltac:(lia)).
      pose proof (Z.mod_pos_bound n 10 ltac:(lia)). lia.
Qed.

(** C7. For a positive [n] the encoder returns, in the order of the
    digits of [n], the alphabet entry of each base-10 digit: the result
    has as many glyphs as [n] has decimal digits, the glyph at position
    [i] is entry [(n / 10^(len-1-i)) mod 10] of the ten-symbol alphabet,
    so it reads back as [n], and nothing else (no sign, no separator)
    is in it; the bracketed mode returns the same string followed by the
    closing glyph. *)
Theorem numeral_encoder_digits (n : Z) (Hn : 1 <= n) :
  exists s : str,
    int_to_tibetan_numeral n = Ok s /\
    convert_to_tibetan_number n = Ok (s ++ [ANG_CLOSE]) /\
    10 ^ (Z.of_nat (length s) - 1) <= n < 10 ^ Z.of_nat (length s) /\
    (forall i : nat, (i < length s)%nat ->
       Ok <$> (s !! i) =
         Some (py_index TIBETAN_DIGITS
                 ((n / 10 ^ (Z.of_nat (length s) - 1 - Z.of_nat i)) mod 10))) /\
    decimal_value TIB_ZERO s = n.
Proof.
  exists (tib n). split; [apply int_to_tibetan_numeral_ok; lia|].
  split; [apply convert_to_tibetan_number_ok; lia|].
  pose proof (log2_fuel n ltac:(lia)) as Hf.
  unfold tib. rewrite py_str_int_nonneg by lia. unfold str_of_nonneg.
  set (fuel := Z.to_nat (Z.log2 n)) in *.
  rewrite length_map. split; [apply digits_acc_length; lia|]. split.
  - intros i Hi. rewrite list_lookup_fmap, digits_acc_nth by (assumption || lia).
    simpl.
    match goal with |- context [py_index _ (?a mod 10)] =>
      pose proof (Z.mod_pos_bound a 10 ltac:(lia)) end.
    rewrite alphabet_entry by lia.
    unfold to_tib. do 2 f_equal. lia.
  - rewrite decimal_value_to_tib. now apply digits_acc_value.
Qed.

Lemma numeral_encoder_digits_witness :
  exists s : str,
    int_to_tibetan_numeral 2024 = Ok s /\
    convert_to_tibetan_number 2024 = Ok (s ++ [ANG_CLOSE]) /\
    10 ^ (Z.of_nat (length s) - 1) <= 2024 < 10 ^ Z.of_nat (length s) /\
    (forall i : nat, (i < length s)%nat ->
       Ok <$> (s !! i) =
         Some (py_index TIBETAN_DIGITS
                 ((2024 / 10 ^ (Z.of_nat (length s) - 1 - Z.of_nat i)) mod 10))) /\
    decimal_value TIB_ZERO s = 2024.
Proof. apply (numeral_encoder_digits 2024). lia. Defined.

(** C9. For an index [n >= 1] the conversion returns a string: the
    handler that raises [ValueError] is not entered.  (For a negative
    number it is: see [encode_negative].) *)
Theorem numeral_conversion_total (n : Z) (Hn : 1 <= n) :
  exists s : str,
    int_to_tibetan_numeral n = Ok s /\
    tibetan_digits_of n = Ok s /\
    forall e, int_to_tibetan_numeral n <> Raise e.
Proof.
  exists (tib n). rewrite int_to_tibetan_numeral_ok, tibetan_digits_of_nonneg by lia.
  repeat split; discriminate.
Qed.

Lemma numeral_conversion_total_witness :
  exists s : str,
    int_to_tibetan_numeral 10 = Ok s /\
    tibetan_digits_of 10 = Ok s /\
    forall e, int_to_tibetan_numeral 10 <> Raise e.
Proof. apply (numeral_conversion_total 10). lia. Defined.

(** ** White space: [strip] and the substitution of [\s+] *)

Lemma space_is_space : py_isspace SPACE = true.
Proof. reflexivity. Qed.

Lemma lstrip_span s : lstrip s = drop (span_len py_isspace s) s.
Proof.
  induction s as [|c r IH]; [reflexivity|].
  simpl. destruct (py_isspace c); [exact IH | reflexivity].
Qed.

Lemma lstrip_idem s : lstrip (lstrip s) = lstrip s.
Proof.
  induction s as [|c r IH]; [reflexivity|].
  simpl. destruct (py_isspace c) eqn:E; [exact IH|].
  simpl. now rewrite E.
Qed.

Lemma lstrip_head_nonspace c r : py_isspace c = false -> lstrip (c :: r) = c :: r.
Proof. intros E. simpl. now rewrite E. Qed.

Lemma lstrip_fixed_cases s :
  lstrip s = s ->
  s = [] \/ exists c r, s = c :: r /\ py_isspace c = false.
Proof.
  destruct s as [|c r]; [now left|]. intros H. right. exists c, r. split; [reflexivity|].
  destruct (py_isspace c) eqn:E; [|reflexivity].
  simpl in H. rewrite E in H. exfalso.
  assert (Hl : (length (lstrip r) <= length r)%nat).
  { rewrite lstrip_span, length_drop. lia. }
  rewrite H in Hl. simpl in Hl. lia.
Qed.

Lemma rstrip_snoc_nonspace s c : py_isspace c = false -> rstrip (s ++ [c]) = s ++ [c].
Proof.
  intros E. unfold rstrip. rewrite rev_unit, lstrip_head_nonspace by assumption.
  change (c :: rev s) with ([c] ++ rev s). now rewrite rev_app_distr, rev_involutive.
Qed.

Lemma rstrip_snoc_space s c : py_isspace c = true -> rstrip (s ++ [c]) = rstrip s.
Proof. intros E. unfold rstrip. rewrite rev_unit. simpl. now rewrite E. Qed.

Lemma rstrip_nil : rstrip [] = [].
Proof. reflexivity. Qed.

Lemma ends_nonspace_snoc s c : ends_nonspace (s ++ [c]) = negb (py_isspace c).
Proof.
  induction s as [|x s IH]; [reflexivity|].
  simpl. destruct (s ++ [c]) eqn:E; [now destruct s|]. exact IH.
Qed.

Lemma ends_nonspace_rstrip s : ends_nonspace (rstrip s) = true.
Proof.
  induction s as [|c s IH] using rev_ind; [reflexivity|].
  destruct (py_isspace c) eqn:E.
  - now rewrite rstrip_snoc_space.
  - rewrite rstrip_snoc_nonspace, ends_nonspace_snoc by assumption. now rewrite E.
Qed.

Lemma ends_nonspace_fixed s : ends_nonspace s = true -> rstrip s = s.
Proof.
  destruct s as [|c s _] using rev_ind; [reflexivity|].
  rewrite ends_nonspace_snoc. intros H. apply negb_true_iff in H.
  now apply rstrip_snoc_nonspace.
Qed.

Lemma rstrip_cons_nonspace c s : py_isspace c = false -> rstrip (c :: s) = c :: rstrip s.
Proof.
  intros E. induction s as [|x s IH] using rev_ind.
  - exact (rstrip_snoc_nonspace [] c E).
  - destruct (py_isspace x) eqn:Ex.
    + change (c :: s ++ [x]) with ((c :: s) ++ [x]).
      now rewrite !rstrip_snoc_space.
    + change (c :: s ++ [x]) with ((c :: s) ++ [x]).
      now rewrite !rstrip_snoc_nonspace.
Qed.

Lemma strip_lstrip_fixed s : lstrip (strip s) = strip s.
Proof.
  unfold strip.
  destruct (lstrip_fixed_cases (lstrip s) (lstrip_idem s)) as [->|(c & r & -> & E)].
  - reflexivity.
  - rewrite rstrip_cons_nonspace by assumption. now apply lstrip_head_nonspace.
Qed.

Lemma strip_rstrip_fixed s : rstrip (strip s) = strip s.
Proof. apply ends_nonspace_fixed, ends_nonspace_rstrip. Qed.

Lemma strip_idem s : strip (strip s) = strip s.
Proof.
  unfold strip at 1. now rewrite strip_lstrip_fixed, strip_rstrip_fixed.
Qed.

(** A string that [strip] leaves alone. *)
Lemma strip_fixed s : lstrip s = s -> ends_nonspace s = true -> strip s = s.
Proof. intros H1 H2. unfold strip. rewrite H1. now apply ends_nonspace_fixed. Qed.

Lemma sub_all_skip m repl k : forall b s,
  sub_all m repl b (S k) s = sub_all m repl false 0 (drop (S k) s).
Proof.
  induction k as [|k IH]; intros b [|c r]; try reflexivity.
  change (sub_all m repl b (S (S k)) (c :: r)) with (sub_all m repl false (S k) r).
  now rewrite IH.
Qed.

Lemma sub_all_skip' m repl k s :
  sub_all m repl false k s = sub_all m repl false 0 (drop k s).
Proof. destruct k; [reflexivity | apply sub_all_skip]. Qed.

Lemma sub_ws_true_lstrip s : sub_ws true s = sub_ws false (lstrip s).
Proof.
  induction s as [|c r IH]; [reflexivity|].
  simpl. destruct (py_isspace c) eqn:E; [exact IH|].
  simpl. now rewrite E.
Qed.

(** The substitution [re.sub(r"\s+", " ", s)] is [sub_ws]. *)
Lemma re_sub_ws s : re_sub m_ws_plus [SPACE] s = sub_ws false s.
Proof.
  unfold re_sub.
  assert (G : forall n s b, (length s <= n)%nat ->
            sub_all m_ws_plus [SPACE] b 0 s = sub_ws false s).
  { clear s. induction n as [|n IH]; intros [|c r] b Hl; try reflexivity.
    - simpl in Hl. lia.
    - simpl in Hl. cbn [sub_all sub_ws]. unfold m_ws_plus. cbn [span_len].
      destruct (py_isspace c) eqn:E.
      + cbn. rewrite Nat.sub_0_r, sub_all_skip', IH.
        * rewrite sub_ws_true_lstrip. now rewrite lstrip_span.
        * rewrite length_drop. lia.
      + rewrite IH by lia. reflexivity. }
  now apply (G (length s)).
Qed.

Lemma clean_tibetan_text_eq x : clean_tibetan_text x = sub_ws false (strip x).
Proof. apply re_sub_ws. Qed.

Lemma sub_ws_idem s : forall b, sub_ws b (sub_ws b s) = sub_ws b s.
Proof.
  induction s as [|c r IH]; intros b; [reflexivity|].
  simpl. destruct (py_isspace c) eqn:E.
  - destruct b; [apply IH|].
    cbn [sub_ws]. rewrite space_is_space. now rewrite IH.
  - simpl. rewrite E. now rewrite IH.
Qed.

Lemma sub_ws_snoc_nonspace s c : forall b,
  py_isspace c = false -> sub_ws b (s ++ [c]) = sub_ws b s ++ [c].
Proof.
  induction s as [|x s IH]; intros b E; simpl.
  - now rewrite E.
  - destruct (py_isspace x); [destruct b|]; simpl; now rewrite IH.
Qed.

Lemma sub_ws_keeps_strip s :
  lstrip s = s -> ends_nonspace s = true -> strip (sub_ws false s) = sub_ws false s.
Proof.
  intros Hl Hr. apply strip_fixed.
  - destruct (lstrip_fixed_cases s Hl) as [->|(c & r & -> & E)]; [reflexivity|].
    simpl. rewrite E. now apply lstrip_head_nonspace.
  - destruct s as [|c s _] using rev_ind; [reflexivity|].
    rewrite ends_nonspace_snoc in Hr. apply negb_true_iff in Hr.
    rewrite sub_ws_snoc_nonspace, ends_nonspace_snoc by assumption. now rewrite Hr.
Qed.

(** *** The normalizer in terms of words *)

Lemma words_lstrip s : words (lstrip s) = words s.
Proof.
  induction s as [|c r IH]; [reflexivity|].
  simpl lstrip. destruct (py_isspace c) eqn:E; [|reflexivity].
  simpl. now rewrite E.
Qed.

Lemma words_all_space s : forallb py_isspace s = true -> words s = [].
Proof.
  induction s as [|c r IH]; [reflexivity|].
  simpl. intros H. apply andb_prop in H as [Hc Hr]. rewrite Hc. auto.
Qed.

Lemma words_snoc_space s c : py_isspace c = true -> words (s ++ [c]) = words s.
Proof.
  intros E. induction s as [|x s IH].
  - simpl. now rewrite E.
  - simpl. destruct (py_isspace x); [exact IH|].
    destruct s as [|y s].
    + simpl. now rewrite E.
    + simpl app in *. cbv beta iota. destruct (py_isspace y); now rewrite IH.
Qed.

Lemma words_rstrip s : words (rstrip s) = words s.
Proof.
  induction s as [|c s IH] using rev_ind; [reflexivity|].
  destruct (py_isspace c) eqn:E.
  - now rewrite rstrip_snoc_space, words_snoc_space.
  - now rewrite rstrip_snoc_nonspace.
Qed.

Lemma words_strip s : words (strip s) = words s.
Proof. unfold strip. now rewrite words_rstrip, words_lstrip. Qed.

Lemma ends_nonspace_cons c r : r <> [] -> ends_nonspace (c :: r) = ends_nonspace r.
Proof. destruct r; [congruence | reflexivity]. Qed.

Lemma words_nonempty s : s <> [] -> ends_nonspace s = true -> words s <> [].
Proof.
  induction s as [|c r IH]; [congruence|]. intros _ H.
  simpl. destruct r as [|d r'].
  - simpl in H. apply negb_true_iff in H. now rewrite H.
  - rewrite ends_nonspace_cons in H by discriminate.
    destruct (py_isspace c); [now apply IH|].
    destruct (py_isspace d); [discriminate|].
    destruct (words (d :: r')); discriminate.
Qed.

Lemma join_cons_cons sep (c : Z) w ws : join sep ((c :: w) :: ws) = c :: join sep (w :: ws).
Proof. destruct ws; reflexivity. Qed.

Lemma join_cons_nonempty sep x l : l <> [] -> join sep (x :: l) = x ++ sep ++ join sep l.
Proof. destruct l; [congruence | reflexivity]. Qed.

Lemma sub_ws_words s :
  ends_nonspace s = true ->
  sub_ws true s = join [SPACE] (words s) /\
  sub_ws false s =
    (if starts_with_space s then SPACE :: join [SPACE] (words s)
     else join [SPACE] (words s)).
Proof.
  induction s as [|c r IH]; intros H; [split; reflexivity|].
  destruct r as [|d r'].
  - simpl in H. apply negb_true_iff in H. simpl. rewrite H. split; reflexivity.
  - rewrite ends_nonspace_cons in H by discriminate.
    destruct (IH H) as [IHt IHf].
    pose proof (words_nonempty (d :: r') ltac:(discriminate) H) as Hne.
    remember (d :: r') as r eqn:Er.
    cbn [sub_ws words starts_with_space].
    destruct (py_isspace c) eqn:E.
    + rewrite IHt. split; reflexivity.
    + rewrite IHf. subst r. cbv beta iota delta [starts_with_space].
      destruct (py_isspace d) eqn:Ed.
      * rewrite join_cons_nonempty by assumption.
        split; reflexivity.
      * destruct (words (d :: r')) as [|w ws]; [congruence|].
        rewrite join_cons_cons. split; reflexivity.
Qed.

(** The normalizer joins the words of its argument with single spaces. *)
Lemma clean_tibetan_text_words x :
  clean_tibetan_text x = join [SPACE] (words x).
Proof.
  rewrite clean_tibetan_text_eq.
  destruct (sub_ws_words (strip x)) as [_ H]; [apply ends_nonspace_rstrip|].
  rewrite H, words_strip.
  destruct (lstrip_fixed_cases _ (strip_lstrip_fixed x)) as [->|(c & r & -> & E)].
  - reflexivity.
  - simpl. now rewrite E.
Qed.

Lemma filter_lstrip s :
  List.filter (fun c => negb (py_isspace c)) (lstrip s)
  = List.filter (fun c => negb (py_isspace c)) s.
Proof.
  induction s as [|c r IH]; [reflexivity|].
  simpl lstrip. destruct (py_isspace c) eqn:E; [|reflexivity].
  simpl. now rewrite E.
Qed.

Lemma words_cons_nonspace d r : py_isspace d = false -> words (d :: r) <> [].
Proof.
  intros E. cbn [words]. rewrite E.
  destruct r as [|e r']; [discriminate|].
  destruct (py_isspace e); [discriminate|].
  destruct (words (e :: r')); discriminate.
Qed.

Lemma filter_concat_words s :
  concat (words s) = List.filter (fun c => negb (py_isspace c)) s.
Proof.
  induction s as [|c r IH]; [reflexivity|].
  cbn [words List.filter]. destruct (py_isspace c) eqn:E; cbn [negb]; [exact IH|].
  rewrite <- IH. destruct r as [|d r']; [reflexivity|].
  cbv iota. destruct (py_isspace d) eqn:Ed; [reflexivity|].
  pose proof (words_cons_nonspace d r' Ed) as Hne.
  destruct (words (d :: r')) as [|w ws]; [congruence | reflexivity].
Qed.

Lemma words_nonspace s :
  Forall (fun w => w <> [] /\ forallb (fun c => negb (py_isspace c)) w = true) (words s).
Proof.
  induction s as [|c r IH]; [constructor|].
  cbn [words]. destruct (py_isspace c) eqn:E; [exact IH|].
  assert (Hc : [c] <> [] /\ forallb (fun c => negb (py_isspace c)) [c] = true).
  { split; [discriminate|]. cbn [forallb]. now rewrite E. }
  destruct r as [|d r']; [constructor; auto|].
  cbv iota. destruct (py_isspace d); [constructor; auto|].
  destruct (words (d :: r')) as [|w ws]; [constructor; auto|].
  inversion IH as [|? ? [_ Hw] Hws]; subst.
  constructor; [|assumption]. split; [discriminate|]. cbn [forallb]. now rewrite E, Hw.
Qed.

(** C8. The normalizer is idempotent.  It is the function that joins
    the words of the text (its maximal runs of characters other than
    white space) with one space each: every run of white space between
    two words becomes a single space, white space before the first and
    after the last word goes, and the characters that are not white space
    come out unchanged and in order. *)
Theorem normalizer_idempotent (x : str) :
  clean_tibetan_text (clean_tibetan_text x) = clean_tibetan_text x /\
  clean_tibetan_text x = join [SPACE] (words x) /\
  strip (clean_tibetan_text x) = clean_tibetan_text x /\
  concat (words x) = List.filter (fun c => negb (py_isspace c)) x /\
  Forall (fun w => w <> [] /\ forallb (fun c => negb (py_isspace c)) w = true) (words x).
Proof.
  split; [|split; [|split; [|split]]].
  - rewrite !clean_tibetan_text_eq.
    rewrite sub_ws_keeps_strip
      by (apply strip_lstrip_fixed || apply ends_nonspace_rstrip).
    apply sub_ws_idem.
  - apply clean_tibetan_text_words.
  - rewrite clean_tibetan_text_eq.
    apply sub_ws_keeps_strip; [apply strip_lstrip_fixed | apply ends_nonspace_rstrip].
  - apply filter_concat_words.
  - apply words_nonspace.
Qed.

(** ** The aggregator *)

Lemma nth_error_lookup {A} (l : list A) i : nth_error l i = l !! i.
Proof. revert i. induction l as [|a l IH]; intros [|i]; simpl; auto. Qed.

Lemma py_index_lookup {A} (l : list A) (i : nat) x :
  l !! i = Some x -> py_index l (Z.of_nat i) = Ok x.
Proof.
  intros H. pose proof (lookup_lt_Some _ _ _ H) as Hlt.
  unfold py_index.
  destruct (Z.ltb_spec (Z.of_nat i) 0); [lia|].
  destruct (Z.leb_spec 0 (Z.of_nat i)); [|lia].
  destruct (Z.ltb_spec (Z.of_nat i) (Z.of_nat (length l))); [|lia].
  simpl. now rewrite Nat2Z.id, nth_error_lookup, H.
Qed.

Lemma py_index_last1 {A} (x : A) : py_index [x] (-1) = Ok x.
Proof. reflexivity. Qed.

Lemma py_index_last2 {A} (x y : A) : py_index [x; y] (-1) = Ok y.
Proof. reflexivity. Qed.

Lemma startswith_nil (s : str) : startswith s [] = true.
Proof. now destruct s. Qed.

Lemma startswith_cons_false (s : str) c : (forall r, s <> c :: r) -> startswith s [c] = false.
Proof.
  intros H. destruct s as [|d r]; [reflexivity|]. simpl.
  destruct (Z.eqb_spec c d) as [->|]; [|reflexivity]. now destruct (H r).
Qed.

Lemma partition_first_none (s : str) c : ~ In c s -> partition_first s [c] = None.
Proof.
  induction s as [|d r IH]; intros H; [reflexivity|].
  cbn [partition_first startswith].
  destruct (Z.eqb_spec c d) as [->|Hne]; [destruct H; now left|].
  cbn [andb]. rewrite IH; [reflexivity|]. intros Hin. apply H. now right.
Qed.

Lemma partition_first_some (tok rest : str) c :
  ~ In c tok -> partition_first (tok ++ c :: rest) [c] = Some (tok, rest).
Proof.
  induction tok as [|d r IH]; intros H.
  - cbn [app partition_first startswith]. rewrite Z.eqb_refl, startswith_nil. reflexivity.
  - cbn [app partition_first startswith].
    destruct (Z.eqb_spec c d) as [->|Hne]; [destruct H; now left|].
    cbn [andb]. rewrite IH; [reflexivity|]. intros Hin. apply H. now right.
Qed.

Lemma remove_indexing_total entry : Combine.remove_indexing entry = Ok (after_index entry).
Proof.
  unfold Combine.remove_indexing, after_index, split1.
  destruct (partition_first entry [SPACE]) as [[a b]|]; reflexivity.
Qed.

Lemma after_index_no_space entry : ~ In SPACE entry -> after_index entry = entry.
Proof. intros H. unfold after_index. now rewrite partition_first_none. Qed.

Lemma after_index_token tok rest :
  ~ In SPACE tok -> after_index (tok ++ SPACE :: rest) = rest.
Proof. intros H. unfold after_index. now rewrite partition_first_some. Qed.

Lemma pair_at_lookup questions answers base (i : nat) q a :
  questions !! i = Some q -> answers !! i = Some a ->
  Combine.pair_at questions answers base (Z.of_nat i)
  = Ok (Combine.mk_pair (after_index q) (after_index a) base).
Proof.
  intros Hq Ha. unfold Combine.pair_at.
  rewrite (py_index_lookup _ _ _ Hq), bind_ok, remove_indexing_total, bind_ok.
  rewrite (py_index_lookup _ _ _ Ha), bind_ok, remove_indexing_total, bind_ok.
  reflexivity.
Qed.

(** C10. The index is removed by splitting an entry at its first space
    and keeping what follows; an entry without any space therefore goes
    into the record as it is, index token included. *)
Theorem entry_without_space_kept
    (questions answers : list str) (base : str) (i : nat) (q a : str)
    (Hq : questions !! i = Some q) (Ha : answers !! i = Some a) :
  exists p,
    Combine.pair_at questions answers base (Z.of_nat i) = Ok p /\
    Combine.filename p = base /\
    (~ In SPACE q -> Combine.question p = q) /\
    (~ In SPACE a -> Combine.answer p = a) /\
    (forall tok rest, q = tok ++ SPACE :: rest -> ~ In SPACE tok ->
       Combine.question p = rest) /\
    (forall tok rest, a = tok ++ SPACE :: rest -> ~ In SPACE tok ->
       Combine.answer p = rest).
Proof.
  eexists. split; [exact (pair_at_lookup _ _ base _ _ _ Hq Ha)|]. cbn.
  split; [reflexivity|].
  split; [apply after_index_no_space|].
  split; [apply after_index_no_space|].
  split; intros tok rest -> H; now apply after_index_token.
Qed.

Lemma entry_without_space_kept_witness :
  exists p,
    Combine.pair_at [u "༡༽question"] [u "༡༽ answer text"] (u "doc") (Z.of_nat 0) = Ok p /\
    Combine.filename p = u "doc" /\
    (~ In SPACE (u "༡༽question") -> Combine.question p = u "༡༽question") /\
    (~ In SPACE (u "༡༽ answer text") -> Combine.answer p = u "༡༽ answer text") /\
    (forall tok rest, u "༡༽question" = tok ++ SPACE :: rest -> ~ In SPACE tok ->
       Combine.question p = rest) /\
    (forall tok rest, u "༡༽ answer text" = tok ++ SPACE :: rest -> ~ In SPACE tok ->
       Combine.answer p = rest).
Proof.
  apply (entry_without_space_kept [u "༡༽question"] [u "༡༽ answer text"] (u "doc") 0);
    reflexivity.
Defined.

Example entry_without_space_run :
  Combine.combine_question_answer_files
    [(u "d_questions.txt", [u "༡༽question"]); (u "d_answers.txt", [u "༡༽ answer text"])]
  = Ok ([Combine.mk_pair (u "༡༽question") (u "answer text") (u "d")], 1,
        {[ u "d" := 1 ]}).
Proof. vm_compute. reflexivity. Qed.

Lemma traverse_ok_map {A B} (f : A -> result B) (g : A -> B) (l : list A) :
  (forall x, In x l -> f x = Ok (g x)) -> traverse f l = Ok (map g l).
Proof.
  induction l as [|a l IH]; intros H; [reflexivity|].
  cbn [traverse map]. rewrite (H a) by now left.
  rewrite bind_ok, IH by (intros x Hx; apply H; now right).
  reflexivity.
Qed.

Lemma range_lookup n (i : nat) :
  Combine.range n !! i = if decide (i < Z.to_nat n)%nat then Some (Z.of_nat i) else None.
Proof.
  unfold Combine.range.
  change (map Z.of_nat (seq 0 (Z.to_nat n))) with (Z.of_nat <$> seq 0 (Z.to_nat n)).
  rewrite list_lookup_fmap.
  destruct (decide (i < Z.to_nat n)%nat) as [Hlt|Hge].
  - now rewrite lookup_seq_lt.
  - rewrite lookup_ge_None_2; [reflexivity|]. rewrite length_seq. lia.
Qed.

Lemma In_range n x : In x (Combine.range n) -> exists i : nat, x = Z.of_nat i /\ (i < Z.to_nat n)%nat.
Proof.
  unfold Combine.range. rewrite in_map_iff. intros (i & <- & Hi).
  apply in_seq in Hi. exists i. split; [reflexivity | lia].
Qed.

(** The loop over [range(record_count)] pairs the entries position by
    position and stops with the shorter list. *)
Lemma traverse_pairs (d : document) :
  traverse (Combine.pair_at (doc_questions d) (doc_answers d) (doc_name d))
           (Combine.range (pair_count d))
  = Ok (records_of d).
Proof.
  destruct d as [base qs ans]. unfold pair_count, records_of. cbn [doc_name doc_questions doc_answers].
  set (h := fun q a => Combine.mk_pair (after_index q) (after_index a) base).
  set (g := fun i : Z => h (nth (Z.to_nat i) qs []) (nth (Z.to_nat i) ans [])).
  rewrite <- Nat2Z.inj_min.
  rewrite (traverse_ok_map _ g).
  - f_equal. apply list_eq. intros i.
    change (map g ?l) with (g <$> l).
    rewrite list_lookup_fmap, range_lookup, lookup_zip_with, Nat2Z.id.
    destruct (decide (i < Nat.min (length qs) (length ans))%nat) as [Hlt|Hge].
    + destruct (lookup_lt_is_Some_2 qs i ltac:(lia)) as [q Hq].
      destruct (lookup_lt_is_Some_2 ans i ltac:(lia)) as [a Ha].
      rewrite Hq, Ha. cbn. unfold g. rewrite Nat2Z.id.
      now rewrite (nth_lookup_Some _ _ _ _ Hq), (nth_lookup_Some _ _ _ _ Ha).
    + cbn. destruct (qs !! i) as [q|] eqn:Hq; [|reflexivity].
      destruct (ans !! i) as [a|] eqn:Ha; [|reflexivity].
      apply lookup_lt_Some in Hq, Ha. lia.
  - intros x Hx. apply In_range in Hx as (i & -> & Hi). rewrite Nat2Z.id in Hi.
    destruct (lookup_lt_is_Some_2 qs i ltac:(lia)) as [q Hq].
    destruct (lookup_lt_is_Some_2 ans i ltac:(lia)) as [a Ha].
    rewrite (pair_at_lookup _ _ _ _ _ _ Hq Ha). unfold g. rewrite Nat2Z.id.
    now rewrite (nth_lookup_Some _ _ _ _ Hq), (nth_lookup_Some _ _ _ _ Ha).
Qed.


Lemma filter_bool {A} (f : A -> bool) (l : list A) :
  filter (fun x => Is_true (f x)) l = List.filter f l.
Proof.
  induction l as [|a l IH]; [reflexivity|].
  rewrite filter_cons. cbn [List.filter].
  case_decide as Hd; destruct (f a); cbn in Hd.
  - now rewrite IH.
  - destruct Hd.
  - destruct Hd. exact I.
  - exact IH.
Qed.

Lemma parse_text_file_lines dir name file :
  Combine.readlines dir name = Some file ->
  Combine.parse_text_file dir name = Ok (text_lines file).
Proof.
  intros H. unfold Combine.parse_text_file, text_lines. rewrite H.
  now rewrite filter_bool.
Qed.

Lemma step_document dir st fname :
  is_Some (Combine.readlines dir fname) ->
  Combine.step dir st fname
  = Ok (match document_of dir fname with
        | Some d => after_documents [d] st
        | None => st
        end).
Proof.
  intros [qf Hqf]. unfold Combine.step, document_of, Combine.path_exists.
  destruct (endswith fname Combine.QUESTIONS_SUFFIX); [|reflexivity].
  rewrite Hqf.
  destruct (Combine.readlines dir (replace fname Combine.QUESTIONS_SUFFIX [] ++ Combine.ANSWERS_SUFFIX))
    as [af|] eqn:Haf; [|reflexivity].
  rewrite (parse_text_file_lines _ _ _ Hqf), bind_ok.
  rewrite (parse_text_file_lines _ _ _ Haf), bind_ok.
  set (d := mk_doc (replace fname Combine.QUESTIONS_SUFFIX []) (text_lines qf) (text_lines af)).
  pose proof (traverse_pairs d) as Ht. unfold pair_count in Ht. cbn [doc_name doc_questions doc_answers d] in Ht.
  rewrite Ht, bind_ok.
  unfold after_documents. cbn. rewrite app_nil_r, Z.add_0_r. reflexivity.
Qed.

Lemma sum_list_app a b : sum_list (a ++ b) = sum_list a + sum_list b.
Proof.
  induction a as [|x a IH]; [reflexivity|].
  cbn [app]. change (sum_list (x :: ?l)) with (x + sum_list l). rewrite IH. lia.
Qed.

Lemma after_documents_app docs1 docs2 st :
  after_documents (docs1 ++ docs2) st = after_documents docs2 (after_documents docs1 st).
Proof.
  unfold after_documents, record_stats. cbn.
  rewrite !map_app, concat_app, foldl_app, app_assoc, sum_list_app.
  f_equal. lia.
Qed.

Lemma after_documents_nil st : after_documents [] st = st.
Proof.
  destruct st. unfold after_documents. cbn. now rewrite app_nil_r, Z.add_0_r.
Qed.

Lemma foldM_documents dir names : forall st,
  (forall n, In n names -> is_Some (Combine.readlines dir n)) ->
  foldM (Combine.step dir) names st
  = Ok (after_documents (omap (document_of dir) names) st).
Proof.
  induction names as [|n names IH]; intros st H.
  - cbn. now rewrite after_documents_nil.
  - cbn [foldM]. rewrite step_document by (apply H; now left).
    rewrite bind_ok, IH by (intros x Hx; apply H; now right).
    change (omap (document_of dir) (n :: names))
      with (match document_of dir n with
            | Some d => [d] ++ omap (document_of dir) names
            | None => omap (document_of dir) names
            end).
    destruct (document_of dir n) as [d|].
    + now rewrite after_documents_app.
    + reflexivity.
Qed.

Lemma readlines_listed dir n : In n (Combine.listdir dir) -> is_Some (Combine.readlines dir n).
Proof.
  induction dir as [|[m file] dir IH]; [intros []|].
  cbn. intros [->|Hin].
  - rewrite decide_True by reflexivity. eauto.
  - destruct (decide (m = n)); [eauto | auto].
Qed.

Lemma records_of_length d : Z.of_nat (length (records_of d)) = pair_count d.
Proof. unfold records_of, pair_count. now rewrite length_zip_with, Nat2Z.inj_min. Qed.

Lemma concat_records_length docs :
  Z.of_nat (length (concat (map records_of docs))) = sum_list (map pair_count docs).
Proof.
  induction docs as [|d docs IH]; [reflexivity|].
  cbn [map concat]. rewrite length_app, Nat2Z.inj_add, records_of_length, IH.
  reflexivity.
Qed.

(** *** The statistics dictionary *)


Lemma record_stats_snoc m docs d :
  record_stats m (docs ++ [d]) = <[doc_name d := pair_count d]> (record_stats m docs).
Proof. unfold record_stats. now rewrite foldl_app. Qed.

Lemma record_stats_recorded docs : forall d,
  In d docs -> is_Some (record_stats ∅ docs !! doc_name d).
Proof.
  induction docs as [|d' docs IH] using rev_ind; intros d Hin; [destruct Hin|].
  rewrite record_stats_snoc. apply in_app_or in Hin as [Hin|[->|[]]].
  - destruct (decide (doc_name d' = doc_name d)) as [E|E].
    + rewrite E, lookup_insert_eq. eauto.
    + rewrite lookup_insert_ne by assumption. now apply IH.
  - rewrite lookup_insert_eq. eauto.
Qed.

Lemma record_stats_origin docs : forall base n,
  record_stats ∅ docs !! base = Some n ->
  exists d, In d docs /\ doc_name d = base /\ n = pair_count d.
Proof.
  induction docs as [|d' docs IH] using rev_ind; intros base n H.
  - cbn in H. now rewrite lookup_empty in H.
  - rewrite record_stats_snoc in H.
    destruct (decide (doc_name d' = base)) as [E|E].
    + rewrite E, lookup_insert_eq in H. injection H as <-.
      exists d'. split; [apply in_or_app; right; now left | auto].
    + rewrite lookup_insert_ne in H by assumption.
      destruct (IH _ _ H) as (d & Hin & Hd). exists d.
      split; [apply in_or_app; now left | assumption].
Qed.

Lemma record_stats_fresh docs base :
  ~ In base (map doc_name docs) -> record_stats ∅ docs !! base = None.
Proof.
  intros H. destruct (record_stats ∅ docs !! base) as [n|] eqn:E; [|reflexivity].
  destruct (record_stats_origin _ _ _ E) as (d & Hin & <- & _).
  destruct H. now apply in_map.
Qed.

Lemma NoDup_snoc_inv {A} (l : list A) x : List.NoDup (l ++ [x]) -> List.NoDup l /\ ~ In x l.
Proof.
  intros H. apply List.NoDup_remove in H. rewrite app_nil_r in H. exact H.
Qed.

Lemma record_stats_distinct docs :
  List.NoDup (map doc_name docs) ->
  (forall d, In d docs -> record_stats ∅ docs !! doc_name d = Some (pair_count d)) /\
  sum_values (record_stats ∅ docs) = sum_list (map pair_count docs).
Proof.
  induction docs as [|d' docs IH] using rev_ind; intros Hnd.
  - split; [intros d []|]. unfold sum_values. cbn. now rewrite map_fold_empty.
  - rewrite map_app in Hnd. cbn in Hnd. apply NoDup_snoc_inv in Hnd as [Hnd Hfresh].
    destruct (IH Hnd) as [IH1 IH2]. rewrite record_stats_snoc. split.
    + intros d Hin. apply in_app_or in Hin as [Hin|[->|[]]].
      * rewrite lookup_insert_ne; [now apply IH1|].
        intros E. apply Hfresh. rewrite E. now apply in_map.
      * apply lookup_insert_eq.
    + unfold sum_values in *. rewrite map_fold_insert_L.
      * rewrite IH2, map_app, sum_list_app. cbn [map sum_list fold_right]. lia.
      * intros; lia.
      * now apply record_stats_fresh.
Qed.

(** X26. The aggregator never raises.  Each document (a questions file
    whose answers file exists) contributes its entries paired position
    by position up to the shorter of the two lists, so
    [min (number of question entries) (number of answer entries)]
    records; the total is the sum of these numbers over the documents
    and the number of records returned.  The statistics have an entry
    under every document's base name, and every entry is the count of a
    document with that base name. *)
Theorem aggregator_pairs_and_total (dir : Combine.directory) :
  exists data total stats,
    Combine.combine_question_answer_files dir = Ok (data, total, stats) /\
    data = concat (map records_of (documents dir)) /\
    (forall d, Z.of_nat (length (records_of d))
               = Z.min (Z.of_nat (length (doc_questions d)))
                       (Z.of_nat (length (doc_answers d)))) /\
    total = sum_list (map (fun d => Z.min (Z.of_nat (length (doc_questions d)))
                                          (Z.of_nat (length (doc_answers d))))
                          (documents dir)) /\
    Z.of_nat (length data) = total /\
    (forall d, In d (documents dir) -> is_Some (stats !! doc_name d)) /\
    (forall base n, stats !! base = Some n ->
       exists d, In d (documents dir) /\ doc_name d = base /\
                 n = Z.min (Z.of_nat (length (doc_questions d)))
                           (Z.of_nat (length (doc_answers d)))).
Proof.
  unfold Combine.combine_question_answer_files.
  rewrite foldM_documents by apply readlines_listed.
  rewrite bind_ok. fold (documents dir).
  do 3 eexists. split; [reflexivity|].
  cbn [after_documents Combine.combined_data Combine.total_records
       Combine.file_statistics Combine.init app].
  split; [reflexivity|].
  split; [apply records_of_length|].
  split; [reflexivity|].
  split; [apply concat_records_length|].
  split; [apply record_stats_recorded|].
  apply record_stats_origin.
Qed.

(** X27. When the documents of the directory have pairwise distinct
    base names, the statistics hold the count of every document under
    its base name, and these counts add up to the total. *)
Theorem aggregator_statistics_per_document (dir : Combine.directory)
    (Hnd : List.NoDup (map doc_name (documents dir))) :
  exists data total stats,
    Combine.combine_question_answer_files dir = Ok (data, total, stats) /\
    (forall d, In d (documents dir) ->
       stats !! doc_name d
       = Some (Z.min (Z.of_nat (length (doc_questions d)))
                     (Z.of_nat (length (doc_answers d))))) /\
    sum_values stats = total /\
    Z.of_nat (length data) = total.
Proof.
  unfold Combine.combine_question_answer_files.
  rewrite foldM_documents by apply readlines_listed.
  rewrite bind_ok. fold (documents dir).
  do 3 eexists. split; [reflexivity|].
  cbn [after_documents Combine.combined_data Combine.total_records
       Combine.file_statistics Combine.init app].
  destruct (record_stats_distinct (documents dir) Hnd) as [H1 H2].
  split; [exact H1|]. split; [exact H2|]. apply concat_records_length.
Qed.

Lemma aggregator_statistics_per_document_witness :
  exists data total stats,
    Combine.combine_question_answer_files two_documents = Ok (data, total, stats) /\
    (forall d, In d (documents two_documents) ->
       stats !! doc_name d
       = Some (Z.min (Z.of_nat (length (doc_questions d)))
                     (Z.of_nat (length (doc_answers d))))) /\
    sum_values stats = total /\
    Z.of_nat (length data) = total.
Proof.
  apply (aggregator_statistics_per_document two_documents).
  vm_compute.
  apply List.NoDup_cons; [intros [H|[]]; discriminate H|].
  apply List.NoDup_cons; [intros []|]. apply List.NoDup_nil.
Defined.

(** C6. Two questions files with one base name.  [str.replace] takes
    every occurrence of the suffix out of a file name, so
    [x_questions.txt_questions.txt] and [x_questions.txt] both have the
    base name [x] and the answers file [x_answers.txt].  Both documents
    are processed, with 1 and 2 records and the total 3, but the
    statistics keep one count only: the second overwrites the first, and
    the counts of the statistics add up to 2. *)
Theorem statistics_lose_a_document :
  map doc_name (documents colliding_directory) = [u "x"; u "x"] /\
  map pair_count (documents colliding_directory) = [1; 2] /\
  exists data stats,
    Combine.combine_question_answer_files colliding_directory = Ok (data, 3, stats) /\
    length data = 3%nat /\
    stats = {[ u "x" := 2 ]} /\
    sum_values stats = 2.
Proof.
  split; [vm_compute; reflexivity|]. split; [vm_compute; reflexivity|].
  eexists _, _. split; [vm_compute; reflexivity|].
  split; [reflexivity|]. split; [vm_compute; reflexivity|].
  vm_compute. reflexivity.
Qed.

(** The example of the specification: counts 3 and 5, the second
    document with 2 questions for its 5 answers. *)
Example aggregator_example :
  let q := u "༡༽ q" in
  let a := u "༡༽ a" in
  Combine.combine_question_answer_files
    [(u "doc1_questions.txt", [q; q; q]); (u "doc1_answers.txt", [a; a; a]);
     (u "doc2_questions.txt", [q; q]); (u "doc2_answers.txt", [a; a; a; a; a])]
  = Ok (replicate 3 (Combine.mk_pair (u "q") (u "a") (u "doc1"))
        ++ replicate 2 (Combine.mk_pair (u "q") (u "a") (u "doc2")),
        5, {[ u "doc1" := 3; u "doc2" := 2 ]}).
Proof. vm_compute. reflexivity. Qed.

(** ** Loops *)

Lemma foldM_app {S A} (step : S -> A -> result S) (a b : list A) (st : S) :
  foldM step (a ++ b) st = (st' ← foldM step a st; foldM step b st').
Proof.
  revert st. induction a as [|x a IH]; intros st; [reflexivity|].
  cbn [app foldM]. destruct (step st x) as [st1|e]; [|reflexivity].
  rewrite !bind_ok. apply IH.
Qed.

Lemma seen_lines_cons p ps :
  seen_lines (p :: ps) = if truthy (strip p) then strip p :: seen_lines ps else seen_lines ps.
Proof. reflexivity. Qed.

Lemma seen_lines_app a b : seen_lines (a ++ b) = seen_lines a ++ seen_lines b.
Proof. unfold seen_lines. now rewrite map_app, List.filter_app. Qed.

Lemma indexed_snoc enc l : forall k e,
  indexed enc k (l ++ [e]) <->
  indexed enc k l /\ exists body, e = enc (k + Z.of_nat (length l)) ++ ANG_CLOSE :: body.
Proof.
  induction l as [|x l IH]; intros k e.
  - cbn. rewrite Z.add_0_r. tauto.
  - cbn [app indexed length]. rewrite IH.
    replace (k + 1 + Z.of_nat (length l)) with (k + Z.of_nat (S (length l))) by lia.
    tauto.
Qed.

Lemma indexed_lookup enc l : forall k (i : nat) e,
  indexed enc k l -> l !! i = Some e ->
  exists body, e = enc (k + Z.of_nat i) ++ ANG_CLOSE :: body.
Proof.
  induction l as [|x l IH]; intros k i e H Hi; [discriminate|].
  destruct H as [Hx Hl]. destruct i as [|i].
  - injection Hi as <-. now rewrite Z.add_0_r.
  - cbn in Hi. destruct (IH _ _ _ Hl Hi) as [body ->]. exists body.
    do 2 f_equal. lia.
Qed.

(** ** qa_5.py (variant D) *)

Lemma qa5_step_skip st p : truthy (strip p) = false -> Qa5.step st p = st.
Proof. intros H. unfold Qa5.step. now rewrite H. Qed.

(** After a marker line the question buffer holds the marker alone and
    the answer buffer is empty, whatever the state before. *)
Lemma qa5_step_marker st p :
  alphabet_match (strip p) = true ->
  Qa5.current_question (Qa5.step st p) = [strip p] /\
  Qa5.current_answer (Qa5.step st p) = [].
Proof.
  intros H. unfold Qa5.step.
  assert (Ht : truthy (strip p) = true) by (destruct (strip p); [discriminate | reflexivity]).
  rewrite Ht, H. cbn [negb].
  destruct (Qa5.current_question st) as [|q0 cq] eqn:Eq;
    destruct (Qa5.current_answer st) as [|a0 ca] eqn:Ea;
    unfold Qa5._process_current_qa; cbn [truthy orb Qa5.current_question Qa5.current_answer app];
    rewrite ?Eq, ?Ea; auto.
Qed.

(** With two lines in the question buffer, every further line that is
    no marker goes to the answer buffer. *)
Lemma qa5_body_to_answer body : forall st mk q1,
  Forall (fun l => alphabet_match (strip l) = false) body ->
  Qa5.current_question st = [mk; q1] ->
  Qa5.current_question (fold_left Qa5.step body st) = [mk; q1] /\
  Qa5.current_answer (fold_left Qa5.step body st) = Qa5.current_answer st ++ seen_lines body.
Proof.
  induction body as [|l body IH]; intros st mk q1 Hb Hq.
  - cbn. now rewrite app_nil_r.
  - inversion Hb as [|? ? Hl Hb']; subst. cbn [fold_left]. rewrite seen_lines_cons.
    destruct (truthy (strip l)) eqn:Ht.
    + assert (Hs : Qa5.step st l =
                   Qa5.mk (Qa5.parsed_questions st) (Qa5.parsed_answers st) [mk; q1]
                          (Qa5.current_answer st ++ [strip l]) (Qa5.question_counter st)).
      { unfold Qa5.step. rewrite Ht, Hl, Hq. reflexivity. }
      rewrite Hs.
      match goal with |- context [fold_left _ _ ?s] =>
        destruct (IH s mk q1 Hb' eq_refl) as [H1 H2] end.
      rewrite H1, H2. cbn. now rewrite <- app_assoc.
    + rewrite qa5_step_skip by assumption. now apply IH.
Qed.

(** With the marker alone in the question buffer, the first line seen
    goes to the question buffer and the rest to the answer buffer. *)
Lemma qa5_body_after_marker body : forall st mk,
  Forall (fun l => alphabet_match (strip l) = false) body ->
  Qa5.current_question st = [mk] ->
  Qa5.current_answer st = [] ->
  Qa5.current_question (fold_left Qa5.step body st) = mk :: take 1 (seen_lines body) /\
  Qa5.current_answer (fold_left Qa5.step body st) = drop 1 (seen_lines body).
Proof.
  induction body as [|l body IH]; intros st mk Hb Hq Ha.
  - cbn. auto.
  - inversion Hb as [|? ? Hl Hb']; subst. cbn [fold_left]. rewrite seen_lines_cons.
    destruct (truthy (strip l)) eqn:Ht.
    + assert (Hs : Qa5.step st l =
                   Qa5.mk (Qa5.parsed_questions st) (Qa5.parsed_answers st) [mk; strip l]
                          [] (Qa5.question_counter st)).
      { unfold Qa5.step. rewrite Ht, Hl, Hq, Ha. reflexivity. }
      rewrite Hs.
      match goal with |- context [fold_left _ _ ?s] =>
        destruct (qa5_body_to_answer body s mk (strip l) Hb' eq_refl) as [H1 H2] end.
      rewrite H1, H2. cbn. auto.
    + rewrite qa5_step_skip by assumption. now apply IH.
Qed.

(** X2 (the behaviour claim C5 is about).  Under variant D, after a
    marker line (one letter of the alphabet, white space around it aside) the first following line that
    is not blank is put into the question buffer and all later ones, up
    to the next marker, into the answer buffer, whatever these lines
    contain. *)
Theorem marker_then_question_then_answer
    (before : list str) (marker : str) (body : list str)
    (Hm : alphabet_match (strip marker) = true)
    (Hb : Forall (fun l => alphabet_match (strip l) = false) body) :
  let st := Qa5.run (before ++ marker :: body) in
  Qa5.current_question st = strip marker :: take 1 (seen_lines body) /\
  Qa5.current_answer st = drop 1 (seen_lines body).
Proof.
  cbv zeta. unfold Qa5.run. rewrite fold_left_app. cbn [fold_left].
  destruct (qa5_step_marker (fold_left Qa5.step before Qa5.init) marker Hm) as [Hq Ha].
  now apply qa5_body_after_marker.
Qed.

Lemma marker_then_question_then_answer_witness :
  Qa5.current_question
    (Qa5.run ([u "title"] ++ u "ཀ " :: [u "ཁ་ question"; u ""; u "first"; u " ག second "]))
  = [u "ཀ"; u "ཁ་ question"] /\
  Qa5.current_answer
    (Qa5.run ([u "title"] ++ u "ཀ " :: [u "ཁ་ question"; u ""; u "first"; u " ག second "]))
  = [u "first"; u "ག second"].
Proof.
  apply (marker_then_question_then_answer
           [u "title"] (u "ཀ ") [u "ཁ་ question"; u ""; u "first"; u " ག second "]).
  - reflexivity.
  - repeat constructor.
Defined.

(** ** Index tokens and white space *)

Lemma CLOSE_SP_eq : CLOSE_SP = [ANG_CLOSE; SPACE].
Proof. reflexivity. Qed.

Lemma to_tib_nonspace c : is_ascii_digit c -> py_isspace (to_tib c) = false.
Proof.
  unfold is_ascii_digit, ASCII_ZERO. intros H.
  assert (c = 48 \/ c = 49 \/ c = 50 \/ c = 51 \/ c = 52 \/ c = 53 \/ c = 54 \/
          c = 55 \/ c = 56 \/ c = 57) as Hc by lia.
  repeat (destruct Hc as [->|Hc]; [reflexivity|]). now subst.
Qed.

Lemma tib_nonspace n : 0 <= n -> Forall (fun c => py_isspace c = false) (tib n).
Proof.
  intros Hn. unfold tib. rewrite py_str_int_nonneg by assumption.
  apply Forall_map. eapply Forall_impl; [apply digits_acc_ascii|].
  intros c Hc. now apply to_tib_nonspace.
Qed.

Lemma digits_acc_nonempty fuel n : digits_acc fuel n [] <> [].
Proof.
  destruct fuel; cbn; [discriminate|].
  destruct (n / 10 =? 0); [discriminate|].
  rewrite digits_acc_app. now destruct (digits_acc fuel (n / 10) []).
Qed.

Lemma tib_nonempty n : 0 <= n -> tib n <> [].
Proof.
  intros Hn. unfold tib. rewrite py_str_int_nonneg by assumption.
  unfold str_of_nonneg.
  pose proof (digits_acc_nonempty (Z.to_nat (Z.log2 n)) n).
  now destruct (digits_acc _ n []).
Qed.

Lemma rstrip_app_nonspace a b :
  Forall (fun c => py_isspace c = false) a -> rstrip (a ++ b) = a ++ rstrip b.
Proof.
  induction 1 as [|c a Hc _ IH]; [reflexivity|].
  cbn [app]. now rewrite rstrip_cons_nonspace, IH.
Qed.

(** [strip] leaves a prefix without white space alone. *)
Lemma strip_app_nonspace a b :
  a <> [] -> Forall (fun c => py_isspace c = false) a ->
  strip (a ++ b) = a ++ rstrip b.
Proof.
  intros Hne Ha. unfold strip.
  destruct a as [|c a]; [congruence|]. inversion Ha; subst.
  cbn [app]. rewrite lstrip_head_nonspace by assumption.
  now apply (rstrip_app_nonspace (c :: a)).
Qed.

Lemma strip_index_prefix n body :
  0 <= n -> strip (tib n ++ ANG_CLOSE :: body) = tib n ++ ANG_CLOSE :: rstrip body.
Proof.
  intros Hn.
  change (tib n ++ ANG_CLOSE :: body) with (tib n ++ [ANG_CLOSE] ++ body).
  rewrite app_assoc, strip_app_nonspace.
  - now rewrite <- app_assoc.
  - pose proof (tib_nonempty n Hn). now destruct (tib n).
  - apply Forall_app. split; [now apply tib_nonspace | now repeat constructor].
Qed.

Lemma endswith_snoc s c d : endswith (s ++ [c]) [d] = (d =? c).
Proof.
  unfold endswith. rewrite rev_unit. cbn. rewrite startswith_nil. apply andb_true_r.
Qed.

Lemma endswith_nil_char d : endswith [] [d] = false.
Proof. reflexivity. Qed.

(** A string that does not end with white space does not end with a
    newline. *)
Lemma ends_nonspace_no_newline a t :
  t <> [] -> ends_nonspace t = true -> endswith (a ++ t) [NEWLINE] = false.
Proof.
  destruct t as [|c t _] using rev_ind; [congruence|]. intros _ H.
  rewrite ends_nonspace_snoc in H. apply negb_true_iff in H.
  rewrite app_assoc, endswith_snoc.
  destruct (Z.eqb_spec NEWLINE c) as [<-|]; [discriminate | reflexivity].
Qed.

Lemma strip_nonempty_truthy p : truthy (strip p) = true -> strip p <> [].
Proof. now destruct (strip p). Qed.

(** Without a final newline [$] can only match at the very end. *)
Lemma tseg_search_endswith s :
  endswith s [NEWLINE] = false -> tseg_search s = endswith s [TSEG].
Proof.
  intros H. unfold tseg_search.
  destruct s as [|c s _] using rev_ind; [reflexivity|].
  rewrite endswith_snoc in H. unfold endswith at 2. rewrite rev_unit.
  cbn [rev app startswith]. rewrite H. cbn [andb]. apply orb_false_r.
Qed.

(** ** qa_6.py (variant E) *)

Lemma question_starts_snoc is_start seen p :
  question_starts is_start (seen ++ [p])
  = (question_starts is_start seen
     + (if truthy (strip p) && is_start (strip p) then 1 else 0))%nat.
Proof.
  unfold question_starts. rewrite seen_lines_app, List.filter_app, length_app.
  f_equal. unfold seen_lines. cbn [map List.filter].
  destruct (truthy (strip p)); [|reflexivity].
  cbn [List.filter andb]. now destruct (is_start (strip p)).
Qed.

Lemma qa6_step_blank st p : truthy (strip p) = false -> Qa6.step st p = Ok st.
Proof. intros H. unfold Qa6.step. now rewrite H. Qed.

Lemma qa6_step_plain st p :
  truthy (strip p) = true -> search_question_marker (strip p) = None ->
  Qa6.step st p
  = Ok (if truthy (Qa6.current_question st) && tseg_search (Qa6.current_question st)
        then Qa6.mk (Qa6.questions st) (Qa6.answers st)
                    (Qa6.current_question st ++ [SPACE] ++ strip p)
                    (Qa6.current_answer st) (Qa6.question_counter st)
        else Qa6.mk (Qa6.questions st) (Qa6.answers st) (Qa6.current_question st)
                    (Qa6.current_answer st ++ [strip p]) (Qa6.question_counter st)).
Proof.
  intros Ht Hs. unfold Qa6.step. rewrite Ht, Hs. cbn [negb].
  now destruct (truthy (Qa6.current_question st) && tseg_search (Qa6.current_question st)).
Qed.

Lemma qa6_step_start st p g :
  truthy (strip p) = true -> search_question_marker (strip p) = Some g ->
  0 <= Qa6.question_counter st ->
  Qa6.step st p
  = Ok (if truthy (Qa6.current_question st)
        then Qa6.mk (Qa6.questions st ++ [strip (Qa6.current_question st)])
                    (Qa6.answers st
                     ++ [tib (Qa6.question_counter st) ++ CLOSE_SP
                         ++ strip (join [NEWLINE] (Qa6.current_answer st))])
                    (tib (Qa6.question_counter st + 1) ++ CLOSE_SP
                     ++ strip (replace (strip p) g []))
                    [] (Qa6.question_counter st + 1)
        else Qa6.mk (Qa6.questions st) (Qa6.answers st)
                    (tib (Qa6.question_counter st) ++ CLOSE_SP
                     ++ strip (replace (strip p) g []))
                    (Qa6.current_answer st) (Qa6.question_counter st)).
Proof.
  intros Ht Hs Hc. unfold Qa6.step, Qa6.emit. rewrite Ht, Hs. cbn [negb].
  destruct (truthy (Qa6.current_question st)).
  - rewrite int_to_tibetan_ok by assumption. rewrite !bind_ok.
    cbn [Qa6.questions Qa6.answers Qa6.question_counter Qa6.current_answer].
    rewrite int_to_tibetan_ok by lia. now rewrite bind_ok.
  - rewrite bind_ok, int_to_tibetan_ok by assumption. now rewrite bind_ok.
Qed.

Lemma new_question_shape n rest :
  endswith (n ++ CLOSE_SP ++ strip rest) [NEWLINE] = false.
Proof.
  destruct (strip rest) as [|c t] eqn:E.
  - rewrite CLOSE_SP_eq, app_nil_r.
    change (n ++ [ANG_CLOSE; SPACE]) with (n ++ [ANG_CLOSE] ++ [SPACE]).
    now rewrite app_assoc, endswith_snoc.
  - rewrite app_assoc, <- E. apply ends_nonspace_no_newline.
    + rewrite E. discriminate.
    + apply ends_nonspace_rstrip.
Qed.

Lemma truthy_app_l {A} (a b : list A) : truthy a = true -> truthy (a ++ b) = true.
Proof. now destruct a. Qed.

Lemma truthy_index_prefix n body : 0 <= n -> truthy (tib n ++ ANG_CLOSE :: body) = true.
Proof. intros Hn. pose proof (tib_nonempty n Hn). now destruct (tib n). Qed.

Lemma qa6_step_inv seen st p :
  qa6_inv seen st ->
  exists st', Qa6.step st p = Ok st' /\ qa6_inv (seen ++ [p]) st'.
Proof.
  intros (Hc & Hlen & Hq & Ha & Hnl & Hcq & Hk).
  unfold qa6_inv. rewrite question_starts_snoc, <- Hk. clear Hk.
  destruct (truthy (strip p)) eqn:Ht.
  2:{ rewrite qa6_step_blank by assumption. eexists. split; [reflexivity|].
      cbn [andb]. rewrite Nat.add_0_r.
      repeat (split; [first [assumption | lia]|]). reflexivity. }
  unfold has_question_marker.
  destruct (search_question_marker (strip p)) as [g|] eqn:Hs.
  - rewrite (qa6_step_start _ _ g) by (assumption || lia).
    eexists. split; [reflexivity|]. cbn [andb].
    destruct (truthy (Qa6.current_question st)) eqn:Hopen;
      cbn [Qa6.questions Qa6.answers Qa6.current_question Qa6.question_counter].
    + destruct (Hcq eq_refl) as [body Hbody].

      rewrite !length_app. cbn [length].
      split; [lia|]. split; [lia|].
      split.
      { apply indexed_snoc. split; [assumption|].
        rewrite Hbody, strip_index_prefix by lia.
        exists (rstrip body). do 2 f_equal. lia. }
      split.
      { apply indexed_snoc. split; [assumption|].
        rewrite CLOSE_SP_eq. eexists. rewrite Hlen.
        replace (1 + Z.of_nat (length (Qa6.questions st))) with (Qa6.question_counter st) by lia.
        reflexivity. }
      split; [apply new_question_shape|].
      split.
      { intros _. rewrite CLOSE_SP_eq. eexists. reflexivity. }
      rewrite CLOSE_SP_eq. cbn [app]. rewrite truthy_index_prefix by lia. lia.
    + split; [lia|]. split; [lia|]. split; [assumption|]. split; [assumption|].
      split; [apply new_question_shape|].
      split.
      { intros _. rewrite CLOSE_SP_eq. eexists. reflexivity. }
      rewrite CLOSE_SP_eq. cbn [app]. rewrite truthy_index_prefix by lia. lia.
  - rewrite qa6_step_plain by assumption. eexists. split; [reflexivity|].
    cbn [andb]. rewrite Nat.add_0_r.
    destruct (truthy (Qa6.current_question st)) eqn:Hopen; cbn [andb].
    + destruct (tseg_search (Qa6.current_question st));
        cbn [Qa6.questions Qa6.answers Qa6.current_question Qa6.question_counter].
      * split; [lia|]. split; [lia|]. split; [assumption|]. split; [assumption|].
        split.
        { rewrite app_assoc. apply ends_nonspace_no_newline.
          - now apply strip_nonempty_truthy.
          - apply ends_nonspace_rstrip. }
        split.
        { intros _. destruct (Hcq eq_refl) as [body ->].
          exists (body ++ [SPACE] ++ strip p). now rewrite <- app_assoc. }
        rewrite truthy_app_l by assumption. reflexivity.
      * rewrite Hopen. repeat (split; [first [assumption | lia]|]). reflexivity.
    + cbn [Qa6.questions Qa6.answers Qa6.current_question Qa6.question_counter].
      rewrite Hopen. repeat (split; [first [assumption | lia]|]). reflexivity.
Qed.

Lemma qa6_inv_init : qa6_inv [] Qa6.init.
Proof. unfold qa6_inv. cbn. repeat split; try discriminate; auto. Qed.

(** The loop of qa_6.py never raises, and its state satisfies the
    invariant. *)
Lemma qa6_run_inv paragraphs :
  exists st, Qa6.run paragraphs = Ok st /\ qa6_inv paragraphs st.
Proof.
  induction paragraphs as [|p ps IH] using rev_ind.
  - exists Qa6.init. split; [reflexivity | apply qa6_inv_init].
  - destruct IH as (st & Hrun & Hinv).
    destruct (qa6_step_inv ps st p Hinv) as (st' & Hstep & Hinv').
    exists st'. split; [|assumption].
    unfold Qa6.run in *. rewrite foldM_app, Hrun, bind_ok. cbn [foldM].
    now rewrite Hstep.
Qed.

(** X1 (the behaviour claim C4 is about).  Under variant E a line
    without marker that arrives while a record is open is appended to the question exactly when the question
    text accumulated so far ends with the tseg, and to the answer buffer
    otherwise.  The new state is [Qa6.step] of the state before the line
    and the line, whatever follows in the stream. *)
Theorem continuation_reads_question_text (before : list str) :
  exists st,
    Qa6.run before = Ok st /\
    forall p,
      truthy (strip p) = true ->
      search_question_marker (strip p) = None ->
      truthy (Qa6.current_question st) = true ->
      let st' :=
        if endswith (Qa6.current_question st) [TSEG]
        then Qa6.mk (Qa6.questions st) (Qa6.answers st)
                    (Qa6.current_question st ++ [SPACE] ++ strip p)
                    (Qa6.current_answer st) (Qa6.question_counter st)
        else Qa6.mk (Qa6.questions st) (Qa6.answers st) (Qa6.current_question st)
                    (Qa6.current_answer st ++ [strip p]) (Qa6.question_counter st) in
      Qa6.step st p = Ok st' /\
      forall after, Qa6.run (before ++ p :: after) = foldM Qa6.step after st'.
Proof.
  destruct (qa6_run_inv before) as (st & Hrun & Hinv).
  exists st. split; [assumption|].
  intros p Ht Hs Hopen. cbv zeta.
  destruct Hinv as (_ & _ & _ & _ & Hnl & _).
  assert (Hstep : Qa6.step st p =
    Ok (if endswith (Qa6.current_question st) [TSEG]
        then Qa6.mk (Qa6.questions st) (Qa6.answers st)
                    (Qa6.current_question st ++ [SPACE] ++ strip p)
                    (Qa6.current_answer st) (Qa6.question_counter st)
        else Qa6.mk (Qa6.questions st) (Qa6.answers st) (Qa6.current_question st)
                    (Qa6.current_answer st ++ [strip p]) (Qa6.question_counter st))).
  { rewrite qa6_step_plain by assumption.
    now rewrite Hopen, tseg_search_endswith by assumption. }
  split; [assumption|].
  intros after. unfold Qa6.run in *.
  rewrite foldM_app, Hrun, bind_ok. cbn [foldM]. now rewrite Hstep, bind_ok.
Qed.

Example continuation_to_question :
  Qa6.process_docx [u "༼༡༽ ཁྱེད་"; u "more text།"; u "the answer་"]
  = Ok ([u "༡༽ ཁྱེད་ more text།"], [u "༡༽ the answer་"]).
Proof. reflexivity. Qed.

(** ** qa_2.py (variant A) *)

Lemma qa2_process st :
  0 <= Qa2.question_counter st ->
  Qa2._process_current_qa (default [] (Qa2.current_question st)) (Qa2.current_answer st)
    (Qa2.question_counter st) (Qa2.parsed_questions st) (Qa2.parsed_answers st)
  = Ok (Qa2.parsed_questions st ++ [fst (qa2_entry st)],
        Qa2.parsed_answers st ++ [snd (qa2_entry st)]).
Proof.
  intros Hc. unfold Qa2._process_current_qa.
  rewrite int_to_tibetan_numeral_ok by assumption. now rewrite !bind_ok.
Qed.

Lemma qa2_step_blank st p : truthy (strip p) = false -> Qa2.step st p = Ok st.
Proof. intros H. unfold Qa2.step. now rewrite H. Qed.

Lemma qa2_step_plain st p :
  truthy (strip p) = true -> starts_with_numeral (strip p) = false ->
  Qa2.step st p
  = Ok (Qa2.mk (Qa2.parsed_questions st) (Qa2.parsed_answers st) (Qa2.current_question st)
               (Qa2.current_answer st ++ [strip p]) (Qa2.question_counter st)).
Proof.
  unfold starts_with_numeral. intros Ht Hs. unfold Qa2.step. now rewrite Ht, Hs.
Qed.

Lemma qa2_step_start st p :
  truthy (strip p) = true -> starts_with_numeral (strip p) = true ->
  0 <= Qa2.question_counter st ->
  Qa2.step st p
  = Ok (if truthy_opt (Qa2.current_question st)
        then Qa2.mk (Qa2.parsed_questions st ++ [fst (qa2_entry st)])
                    (Qa2.parsed_answers st ++ [snd (qa2_entry st)])
                    (Some (strip p)) [] (Qa2.question_counter st + 1)
        else Qa2.mk (Qa2.parsed_questions st) (Qa2.parsed_answers st)
                    (Some (strip p)) [] (Qa2.question_counter st)).
Proof.
  unfold starts_with_numeral. intros Ht Hs Hc. unfold Qa2.step. rewrite Ht, Hs. cbn [negb].
  destruct (truthy_opt (Qa2.current_question st)).
  - rewrite qa2_process by assumption. now rewrite !bind_ok.
  - now rewrite bind_ok.
Qed.

Lemma qa2_finish st :
  0 <= Qa2.question_counter st ->
  Qa2.finish st
  = Ok (if truthy_opt (Qa2.current_question st)
        then (Qa2.parsed_questions st ++ [fst (qa2_entry st)],
              Qa2.parsed_answers st ++ [snd (qa2_entry st)])
        else (Qa2.parsed_questions st, Qa2.parsed_answers st)).
Proof.
  intros Hc. unfold Qa2.finish.
  destruct (truthy_opt (Qa2.current_question st)); [now apply qa2_process | reflexivity].
Qed.

Lemma indexed_snoc_entry enc l (k : Z) body :
  indexed enc 1 l -> k = 1 + Z.of_nat (length l) ->
  indexed enc 1 (l ++ [enc k ++ CLOSE_SP ++ body]).
Proof.
  intros Hl ->. apply indexed_snoc. split; [assumption|].
  rewrite CLOSE_SP_eq. eexists. reflexivity.
Qed.

Lemma qa2_step_inv seen st p :
  qa2_inv seen st ->
  exists st', Qa2.step st p = Ok st' /\ qa2_inv (seen ++ [p]) st'.
Proof.
  intros (Hc & Hlen & Hq & Ha & Hk).
  unfold qa2_inv. rewrite question_starts_snoc, <- Hk. clear Hk.
  destruct (truthy (strip p)) eqn:Ht.
  2:{ rewrite qa2_step_blank by assumption. eexists. split; [reflexivity|].
      cbn [andb]. rewrite Nat.add_0_r.
      repeat (split; [first [assumption | lia]|]). reflexivity. }
  cbn [andb]. destruct (starts_with_numeral (strip p)) eqn:Hs.
  - rewrite qa2_step_start by (assumption || lia).
    eexists. split; [reflexivity|].
    destruct (truthy_opt (Qa2.current_question st)) eqn:Hopen;
      cbn [Qa2.parsed_questions Qa2.parsed_answers Qa2.current_question
           Qa2.question_counter truthy_opt].
    + rewrite !length_app. cbn [length]. rewrite Ht.
      split; [lia|]. split; [lia|].
      split; [now apply indexed_snoc_entry|].
      split; [apply indexed_snoc_entry; [assumption | lia]|]. lia.
    + rewrite Ht. repeat (split; [first [assumption | lia]|]). lia.
  - rewrite qa2_step_plain by assumption. eexists. split; [reflexivity|].
    cbn [Qa2.parsed_questions Qa2.parsed_answers Qa2.current_question Qa2.question_counter].
    rewrite Nat.add_0_r. repeat (split; [first [assumption | lia]|]). reflexivity.
Qed.

(** The loop of qa_2.py never raises, and its state satisfies the
    invariant. *)
Lemma qa2_run_inv paragraphs :
  exists st, Qa2.run paragraphs = Ok st /\ qa2_inv paragraphs st.
Proof.
  induction paragraphs as [|p ps IH] using rev_ind.
  - exists Qa2.init. split; [reflexivity|]. unfold qa2_inv. cbn. auto.
  - destruct IH as (st & Hrun & Hinv).
    destruct (qa2_step_inv ps st p Hinv) as (st' & Hstep & Hinv').
    exists st'. split; [|assumption].
    unfold Qa2.run in *. rewrite foldM_app, Hrun, bind_ok. cbn [foldM].
    now rewrite Hstep.
Qed.

(** What [parse_docx] of qa_2.py returns. *)
Lemma qa2_parse paragraphs :
  exists st,
    Qa2.run paragraphs = Ok st /\ qa2_inv paragraphs st /\
    Qa2.parse_docx paragraphs = Ok (qa2_result st) /\
    length (fst (qa2_result st)) = question_starts starts_with_numeral paragraphs /\
    length (snd (qa2_result st)) = question_starts starts_with_numeral paragraphs /\
    indexed tib 1 (fst (qa2_result st)) /\ indexed tib 1 (snd (qa2_result st)).
Proof.
  destruct (qa2_run_inv paragraphs) as (st & Hrun & Hinv).
  pose proof Hinv as (Hc & Hlen & Hq & Ha & Hk).
  exists st. unfold Qa2.parse_docx. rewrite Hrun, bind_ok, qa2_finish by lia.
  split; [reflexivity|]. split; [assumption|].
  split; [reflexivity|]. unfold qa2_result.
  destruct (truthy_opt (Qa2.current_question st)); cbn [fst snd].
  - rewrite !length_app. cbn [length].
    split; [lia|]. split; [lia|].
    split; apply indexed_snoc_entry; (assumption || lia).
  - repeat (split; [first [assumption | lia]|]). assumption.
Qed.

(** ** qa_3.py (variant B) *)

Lemma qa3_emit st :
  0 <= Qa3.question_counter st ->
  Qa3.emit st
  = Ok (Qa3.parsed_questions st ++ [fst (qa3_entry st)],
        Qa3.parsed_answers st ++ [snd (qa3_entry st)]).
Proof.
  intros Hc. unfold Qa3.emit.
  rewrite int_to_tibetan_numeral_ok by assumption. now rewrite !bind_ok.
Qed.

Lemma qa3_step_blank st p : truthy (strip p) = false -> Qa3.step st p = Ok st.
Proof. intros H. unfold Qa3.step. now rewrite H. Qed.

Lemma qa3_step_start st p :
  truthy (strip p) = true -> starts_with_number (strip p) = true ->
  0 <= Qa3.question_counter st ->
  Qa3.step st p
  = Ok (if qa3_pending st
        then Qa3.mk (Qa3.parsed_questions st ++ [fst (qa3_entry st)])
                    (Qa3.parsed_answers st ++ [snd (qa3_entry st)])
                    (strip p) [] false (Qa3.question_counter st + 1)
        else Qa3.mk (Qa3.parsed_questions st) (Qa3.parsed_answers st)
                    (strip p) (Qa3.current_answer st) false (Qa3.question_counter st)).
Proof.
  unfold starts_with_number, qa3_pending. intros Ht Hs Hc.
  unfold Qa3.step. rewrite Ht, Hs. cbn [negb].
  destruct (truthy (Qa3.current_question st) && truthy (Qa3.current_answer st)).
  - rewrite qa3_emit by assumption. now rewrite !bind_ok.
  - now rewrite bind_ok.
Qed.

Lemma qa3_step_answer st p :
  truthy (strip p) = true -> starts_with_number (strip p) = false ->
  is_answer_line p = true ->
  Qa3.step st p
  = Ok (Qa3.mk (Qa3.parsed_questions st) (Qa3.parsed_answers st) (Qa3.current_question st)
               (Qa3.current_answer st
                ++ [strip (drop (length Qa3.answer_prefix) (strip p))])
               true (Qa3.question_counter st)).
Proof.
  unfold starts_with_number, is_answer_line. intros Ht Hs Ha.
  unfold Qa3.step. now rewrite Ht, Hs, Ha.
Qed.

Lemma qa3_step_plain st p :
  truthy (strip p) = true -> starts_with_number (strip p) = false ->
  is_answer_line p = false ->
  Qa3.step st p
  = Ok (if Qa3.is_answer st
        then Qa3.mk (Qa3.parsed_questions st) (Qa3.parsed_answers st)
                    (Qa3.current_question st) (Qa3.current_answer st ++ [strip p])
                    (Qa3.is_answer st) (Qa3.question_counter st)
        else Qa3.mk (Qa3.parsed_questions st) (Qa3.parsed_answers st)
                    (Qa3.current_question st ++ [SPACE] ++ strip p)
                    (Qa3.current_answer st) (Qa3.is_answer st) (Qa3.question_counter st)).
Proof.
  unfold starts_with_number, is_answer_line. intros Ht Hs Ha.
  unfold Qa3.step. rewrite Ht, Hs, Ha. cbn [negb]. now destruct (Qa3.is_answer st).
Qed.

Lemma qa3_finish st :
  0 <= Qa3.question_counter st -> Qa3.finish st = Ok (qa3_result st).
Proof.
  intros Hc. unfold Qa3.finish, qa3_result, qa3_pending.
  destruct (truthy (Qa3.current_question st) && truthy (Qa3.current_answer st));
    [now apply qa3_emit | reflexivity].
Qed.

Lemma is_answer_line_blank p : truthy (strip p) = false -> is_answer_line p = false.
Proof.
  unfold is_answer_line. destruct (strip p); [reflexivity | discriminate].
Qed.

Lemma qa3_step_inv st p :
  qa3_inv st -> exists st', Qa3.step st p = Ok st' /\ qa3_inv st'.
Proof.
  intros (Hc & Hlen & Hq & Ha). unfold qa3_inv.
  destruct (truthy (strip p)) eqn:Ht.
  2:{ rewrite qa3_step_blank by assumption. eexists. split; [reflexivity|]. auto. }
  destruct (starts_with_number (strip p)) eqn:Hs.
  - rewrite qa3_step_start by (assumption || lia).
    eexists. split; [reflexivity|].
    destruct (qa3_pending st);
      cbn [Qa3.parsed_questions Qa3.parsed_answers Qa3.question_counter]; [|auto].
    rewrite !length_app. cbn [length].
    split; [lia|]. split; [lia|].
    split; apply indexed_snoc_entry; (assumption || lia).
  - destruct (is_answer_line p) eqn:Hal.
    + rewrite qa3_step_answer by assumption. eexists. split; [reflexivity|]. cbn. auto.
    + rewrite qa3_step_plain by assumption. eexists. split; [reflexivity|].
      destruct (Qa3.is_answer st); cbn; auto.
Qed.

Lemma qa3_foldM_inv paragraphs : forall st,
  qa3_inv st -> exists st', foldM Qa3.step paragraphs st = Ok st' /\ qa3_inv st'.
Proof.
  induction paragraphs as [|p ps IH]; intros st Hinv.
  - exists st. split; [reflexivity | assumption].
  - destruct (qa3_step_inv st p Hinv) as (st1 & Hstep & Hinv1).
    destruct (IH st1 Hinv1) as (st' & Hrun & Hinv').
    exists st'. split; [|assumption]. cbn [foldM]. now rewrite Hstep, bind_ok.
Qed.

Lemma qa3_inv_init : qa3_inv Qa3.init.
Proof. unfold qa3_inv. cbn. auto. Qed.

Lemma qa3_result_inv st :
  qa3_inv st ->
  length (snd (qa3_result st)) = length (fst (qa3_result st)) /\
  indexed tib 1 (fst (qa3_result st)) /\ indexed tib 1 (snd (qa3_result st)).
Proof.
  intros (Hc & Hlen & Hq & Ha). unfold qa3_result.
  destruct (qa3_pending st); cbn [fst snd]; [|auto].
  rewrite !length_app. cbn [length]. split; [lia|].
  split; apply indexed_snoc_entry; (assumption || lia).
Qed.

(** What [parse_docx] of qa_3.py returns. *)
Lemma qa3_parse paragraphs :
  exists st,
    Qa3.run paragraphs = Ok st /\ qa3_inv st /\
    Qa3.parse_docx paragraphs = Ok (qa3_result st).
Proof.
  destruct (qa3_foldM_inv paragraphs Qa3.init qa3_inv_init) as (st & Hrun & Hinv).
  exists st. split; [assumption|]. split; [assumption|].
  unfold Qa3.parse_docx, Qa3.run. rewrite Hrun, bind_ok.
  destruct Hinv as (Hc & _). apply qa3_finish. lia.
Qed.

(** *** Streams of records *)

(** The lines of a record behind its question line leave the lists and
    the counter alone; afterwards the answer buffer is non-empty exactly
    if it was before or one of the lines has the answer keyword. *)
Lemma qa3_body body : forall st,
  Forall (fun l => starts_with_number (strip l) = false) body ->
  truthy (Qa3.current_question st) = true ->
  Qa3.is_answer st = truthy (Qa3.current_answer st) ->
  exists st',
    foldM Qa3.step body st = Ok st' /\
    Qa3.parsed_questions st' = Qa3.parsed_questions st /\
    Qa3.parsed_answers st' = Qa3.parsed_answers st /\
    Qa3.question_counter st' = Qa3.question_counter st /\
    truthy (Qa3.current_question st') = true /\
    Qa3.is_answer st' = truthy (Qa3.current_answer st') /\
    truthy (Qa3.current_answer st')
    = truthy (Qa3.current_answer st) || existsb is_answer_line body.
Proof.
  induction body as [|l body IH]; intros st Hb Hq Hia.
  - exists st. cbn. rewrite orb_false_r. auto 10.
  - inversion Hb as [|? ? Hl Hb']; subst. cbn [foldM existsb].
    destruct (truthy (strip l)) eqn:Ht.
    2:{ rewrite qa3_step_blank, bind_ok by assumption.
        rewrite is_answer_line_blank by assumption. cbn [orb]. now apply IH. }
    destruct (is_answer_line l) eqn:Hal.
    + rewrite qa3_step_answer, bind_ok by assumption.
      match goal with |- context [foldM _ _ ?s] =>
        destruct (IH s Hb') as (st' & Hrun & H1 & H2 & H3 & H4 & H5 & H6) end.
      { exact Hq. }
      { cbn. now destruct (Qa3.current_answer st). }
      exists st'. rewrite Hrun, H1, H2, H3, H4, H5, H6. cbn.
      rewrite orb_true_r.
      repeat (split; [reflexivity|]). now destruct (Qa3.current_answer st).
    + rewrite qa3_step_plain, bind_ok by assumption.
      destruct (Qa3.is_answer st) eqn:Hflag.
      * match goal with |- context [foldM _ _ ?s] =>
          destruct (IH s Hb') as (st' & Hrun & H1 & H2 & H3 & H4 & H5 & H6) end.
        { exact Hq. }
        { cbn. now destruct (Qa3.current_answer st). }
        exists st'. rewrite Hrun, H1, H2, H3, H4, H5, H6. cbn.
        rewrite <- Hia.
        repeat (split; [reflexivity|]). now destruct (Qa3.current_answer st).
      * match goal with |- context [foldM _ _ ?s] =>
          destruct (IH s Hb') as (st' & Hrun & H1 & H2 & H3 & H4 & H5 & H6) end.
        { cbn. now apply truthy_app_l. }
        { cbn. exact Hia. }
        exists st'. rewrite Hrun, H1, H2, H3, H4, H5, H6. cbn. auto 10.
Qed.

Lemma count_pending (b : bool) (n : nat) : (n + (if b then 1 else 0))%nat = (if b then S n else n).
Proof. destruct b; lia. Qed.

(** Over a stream of records the number of pairs emitted and pending
    grows by one for every record with an answer line. *)
Lemma qa3_records recs : forall st,
  Forall record_wf recs ->
  qa3_inv st ->
  (truthy (Qa3.current_question st) = false -> Qa3.current_answer st = []) ->
  exists st',
    foldM Qa3.step (flatten_records recs) st = Ok st' /\
    qa3_inv st' /\
    (length (Qa3.parsed_questions st') + (if qa3_pending st' then 1 else 0)
     = length (Qa3.parsed_questions st) + (if qa3_pending st then 1 else 0)
       + length (List.filter has_answer_line recs))%nat.
Proof.
  induction recs as [|[q body] recs IH]; intros st Hwf Hinv Hstale.
  - exists st. cbn. split; [reflexivity|]. split; [assumption | lia].
  - inversion Hwf as [|? ? (Ht & Hs & Hb) Hwf']; subst. cbn [fst snd] in *.
    unfold flatten_records. cbn [map concat fst snd].
    change (concat (map (fun r => fst r :: snd r) recs)) with (flatten_records recs).
    change ((q :: body) ++ flatten_records recs)
      with ([q] ++ body ++ flatten_records recs).
    rewrite foldM_app. cbn [foldM].
    pose proof Hinv as (Hc & Hlen & Hq & Ha).
    rewrite qa3_step_start, !bind_ok by (assumption || lia).
    set (st1 := if qa3_pending st then _ else _).
    assert (Hinv1 : qa3_inv st1).
    { destruct (qa3_step_inv st q Hinv) as (s & Hstep & Hs').
      rewrite qa3_step_start in Hstep by (assumption || lia).
      injection Hstep as <-. exact Hs'. }
    assert (H1 : Qa3.current_question st1 = strip q /\ Qa3.current_answer st1 = [] /\
                 Qa3.is_answer st1 = false /\
                 length (Qa3.parsed_questions st1)
                 = (length (Qa3.parsed_questions st) + (if qa3_pending st then 1 else 0))%nat).
    { unfold st1. destruct (qa3_pending st) eqn:Hp; cbn.
      - rewrite length_app. cbn. auto.
      - split; [reflexivity|]. split; [|split; [reflexivity | lia]].
        unfold qa3_pending in Hp.
        destruct (truthy (Qa3.current_question st)) eqn:Hopen; [|now apply Hstale].
        cbn in Hp. now destruct (Qa3.current_answer st). }
    destruct H1 as (Hq1 & Ha1 & Hf1 & Hl1).
    rewrite foldM_app.
    destruct (qa3_body body st1 Hb) as (st2 & Hrun2 & P1 & P2 & P3 & P4 & P5 & P6).
    { now rewrite Hq1. }
    { now rewrite Hf1, Ha1. }
    rewrite Hrun2, bind_ok.
    assert (Hinv2 : qa3_inv st2).
    { destruct Hinv1 as (? & ? & ? & ?). unfold qa3_inv. now rewrite P1, P2, P3. }
    destruct (IH st2 Hwf' Hinv2) as (st' & Hrun & Hinv' & Hcount).
    { rewrite P4. discriminate. }
    exists st'. split; [assumption|]. split; [assumption|].
    rewrite Hcount, P1, Hl1. cbn [List.filter].
    change (has_answer_line (q, body)) with (existsb is_answer_line body).
    assert (Hp2 : qa3_pending st2 = existsb is_answer_line body).
    { unfold qa3_pending. rewrite P4, P6, Ha1. reflexivity. }
    rewrite Hp2.
    destruct (existsb is_answer_line body); cbn [length]; lia.
Qed.

(** Variant B on a stream of records emits one pair for every record
    that has an answer line, and no other. *)
Lemma qa3_parse_records recs :
  Forall record_wf recs ->
  exists qs ans,
    Qa3.parse_docx (flatten_records recs) = Ok (qs, ans) /\
    length qs = length (List.filter has_answer_line recs) /\
    length ans = length (List.filter has_answer_line recs).
Proof.
  intros Hwf.
  destruct (qa3_records recs Qa3.init Hwf qa3_inv_init) as (st & Hrun & Hinv & Hcount);
    [reflexivity|].
  exists (fst (qa3_result st)), (snd (qa3_result st)).
  unfold Qa3.parse_docx, Qa3.run. rewrite Hrun, bind_ok.
  pose proof Hinv as (Hc & Hlen & _).
  rewrite qa3_finish by lia.
  split; [now destruct (qa3_result st)|].
  cbn in Hcount. rewrite <- Hcount. unfold qa3_result.
  destruct (qa3_pending st); cbn [fst snd]; rewrite ?length_app; cbn [length]; lia.
Qed.

(** ** qa_4.py (variant C) *)

Lemma contains_partition s sep :
  contains s sep = true -> exists a b, partition_first s sep = Some (a, b).
Proof.
  induction s as [|c r IH]; cbn [contains partition_first].
  - destruct (startswith [] sep); [eauto | discriminate].
  - destruct (startswith (c :: r) sep); [eauto|]. cbn [orb]. intros H.
    destruct (IH H) as (a & b & ->). eauto.
Qed.

Lemma not_contains_partition s sep :
  contains s sep = false -> partition_first s sep = None.
Proof.
  induction s as [|c r IH]; cbn [contains partition_first].
  - destruct (startswith [] sep); [discriminate | reflexivity].
  - destruct (startswith (c :: r) sep); [discriminate|]. cbn [orb]. intros H.
    now rewrite IH.
Qed.

(** The index [1] behind the test [shey in text] never raises. *)
Lemma qa4_clean_question_text text :
  Qa4.clean_question_text text = Ok (cleaned_question text).
Proof.
  unfold Qa4.clean_question_text, cleaned_question, split1.
  destruct (contains text Qa4.shey_character) eqn:E.
  - destruct (contains_partition _ _ E) as (a & b & ->). reflexivity.
  - now rewrite not_contains_partition.
Qed.

Lemma qa4_step_blank st p : truthy (strip p) = false -> Qa4.step st p = Ok st.
Proof. intros H. unfold Qa4.step. now rewrite H. Qed.

Lemma qa4_step_other st p :
  truthy (strip p) = true -> starts_with_sentinel (strip p) = false ->
  Qa4.step st p
  = Ok (Qa4.mk (Qa4.parsed_questions st) (Qa4.parsed_answers st) (Qa4.current_question st)
               (Qa4.current_answer st ++ [answer_fragment4 (strip p)])
               (Qa4.question_counter st)).
Proof.
  unfold starts_with_sentinel, answer_fragment4. intros Ht Hs.
  unfold Qa4.step. rewrite Ht, Hs. cbn [negb].
  now destruct (re_match m_answer_phrase (strip p)).
Qed.

Lemma qa4_step_start st p :
  truthy (strip p) = true -> starts_with_sentinel (strip p) = true ->
  Qa4.step st p
  = Ok (let '(qs, ans) := qa4_result st in
        Qa4.mk qs ans (Some (cleaned_question (strip p))) []
               (if truthy_opt (Qa4.current_question st)
                then Qa4.question_counter st + 1 else Qa4.question_counter st)).
Proof.
  unfold starts_with_sentinel, qa4_result. intros Ht Hs.
  unfold Qa4.step. rewrite Ht, Hs. cbn [negb].
  rewrite qa4_clean_question_text, bind_ok.
  now destruct (truthy_opt (Qa4.current_question st)).
Qed.

Lemma qa4_finish st : Qa4.finish st = qa4_result st.
Proof. reflexivity. Qed.

Lemma qa4_step_inv seen st p :
  qa4_inv seen st ->
  exists st', Qa4.step st p = Ok st' /\ qa4_inv (seen ++ [p]) st'.
Proof.
  intros (Hc & Hlen & Hq & Ha & Hk).
  unfold qa4_inv. rewrite question_starts_snoc, <- Hk. clear Hk.
  destruct (truthy (strip p)) eqn:Ht.
  2:{ rewrite qa4_step_blank by assumption. eexists. split; [reflexivity|].
      cbn [andb]. rewrite Nat.add_0_r.
      repeat (split; [first [assumption | lia]|]). reflexivity. }
  cbn [andb]. unfold opens_question4.
  destruct (starts_with_sentinel (strip p)) eqn:Hs; cbn [andb].
  - rewrite qa4_step_start by assumption. unfold qa4_result.
    eexists. split; [reflexivity|].
    destruct (truthy_opt (Qa4.current_question st)) eqn:Hopen;
      cbn [Qa4.parsed_questions Qa4.parsed_answers Qa4.current_question
           Qa4.question_counter truthy_opt].
    + rewrite !length_app. cbn [length].
      split; [lia|]. split; [lia|].
      split; [now apply indexed_snoc_entry|].
      split; [apply indexed_snoc_entry; [assumption | lia]|]. lia.
    + repeat (split; [first [assumption | lia]|]). lia.
  - rewrite qa4_step_other by assumption. eexists. split; [reflexivity|].
    cbn [Qa4.parsed_questions Qa4.parsed_answers Qa4.current_question Qa4.question_counter].
    rewrite Nat.add_0_r. repeat (split; [first [assumption | lia]|]). reflexivity.
Qed.

Lemma qa4_run_inv paragraphs :
  exists st, Qa4.run paragraphs = Ok st /\ qa4_inv paragraphs st.
Proof.
  induction paragraphs as [|p ps IH] using rev_ind.
  - exists Qa4.init. split; [reflexivity|]. unfold qa4_inv. cbn. auto.
  - destruct IH as (st & Hrun & Hinv).
    destruct (qa4_step_inv ps st p Hinv) as (st' & Hstep & Hinv').
    exists st'. split; [|assumption].
    unfold Qa4.run in *. rewrite foldM_app, Hrun, bind_ok. cbn [foldM].
    now rewrite Hstep.
Qed.

Lemma qa4_parse paragraphs :
  exists st,
    Qa4.run paragraphs = Ok st /\ qa4_inv paragraphs st /\
    Qa4.parse_docx paragraphs = Ok (qa4_result st) /\
    length (fst (qa4_result st)) = question_starts opens_question4 paragraphs /\
    length (snd (qa4_result st)) = question_starts opens_question4 paragraphs /\
    indexed py_str_int 1 (fst (qa4_result st)) /\
    indexed py_str_int 1 (snd (qa4_result st)).
Proof.
  destruct (qa4_run_inv paragraphs) as (st & Hrun & Hinv).
  pose proof Hinv as (Hc & Hlen & Hq & Ha & Hk).
  exists st. unfold Qa4.parse_docx. rewrite Hrun, bind_ok, qa4_finish.
  split; [reflexivity|]. split; [assumption|].
  split; [reflexivity|]. unfold qa4_result.
  destruct (truthy_opt (Qa4.current_question st)); cbn [fst snd].
  - rewrite !length_app. cbn [length].
    split; [lia|]. split; [lia|].
    split; apply indexed_snoc_entry; (assumption || lia).
  - repeat (split; [first [assumption | lia]|]). assumption.
Qed.

(** ** qa_5.py (variant D): counts and indices *)

Lemma qa5_process st :
  Qa5._process_current_qa (Qa5.current_question st) (Qa5.current_answer st)
    (Qa5.question_counter st) (Qa5.parsed_questions st) (Qa5.parsed_answers st)
  = (Qa5.parsed_questions st ++ [fst (qa5_entry st)],
     Qa5.parsed_answers st ++ [snd (qa5_entry st)]).
Proof. reflexivity. Qed.

Lemma qa5_step_marker_eq st p :
  truthy (strip p) = true -> alphabet_match (strip p) = true ->
  (truthy (Qa5.current_question st) = false -> Qa5.current_answer st = []) ->
  Qa5.step st p
  = if truthy (Qa5.current_question st)
    then Qa5.mk (Qa5.parsed_questions st ++ [fst (qa5_entry st)])
                (Qa5.parsed_answers st ++ [snd (qa5_entry st)])
                [strip p] [] (Qa5.question_counter st + 1)
    else Qa5.mk (Qa5.parsed_questions st) (Qa5.parsed_answers st)
                [strip p] [] (Qa5.question_counter st).
Proof.
  intros Ht Hm Hstale. unfold Qa5.step. rewrite Ht, Hm. cbn [negb].
  destruct (truthy (Qa5.current_question st)) eqn:Hopen.
  - cbn [orb]. rewrite qa5_process. reflexivity.
  - rewrite (Hstale eq_refl). cbn [truthy orb].
    rewrite (Hstale eq_refl).
    destruct (Qa5.current_question st); [reflexivity | discriminate].
Qed.

Lemma qa5_step_other st p :
  truthy (strip p) = true -> alphabet_match (strip p) = false ->
  Qa5.step st p
  = if truthy (Qa5.current_question st)
    then if (length (Qa5.current_question st) =? 1)%nat
         then Qa5.mk (Qa5.parsed_questions st) (Qa5.parsed_answers st)
                     (Qa5.current_question st ++ [strip p]) (Qa5.current_answer st)
                     (Qa5.question_counter st)
         else Qa5.mk (Qa5.parsed_questions st) (Qa5.parsed_answers st)
                     (Qa5.current_question st) (Qa5.current_answer st ++ [strip p])
                     (Qa5.question_counter st)
    else st.
Proof. intros Ht Hm. unfold Qa5.step. now rewrite Ht, Hm. Qed.

Lemma qa5_step_inv seen st p :
  qa5_inv seen st -> qa5_inv (seen ++ [p]) (Qa5.step st p).
Proof.
  intros (Hc & Hlen & Hq & Ha & Hstale & Hk).
  unfold qa5_inv. rewrite question_starts_snoc, <- Hk. clear Hk.
  destruct (truthy (strip p)) eqn:Ht.
  2:{ rewrite qa5_step_skip by assumption. cbn [andb]. rewrite Nat.add_0_r.
      split; [lia|]. split; [lia|]. split; [assumption|]. split; [assumption|].
      split; [assumption | reflexivity]. }
  cbn [andb]. destruct (alphabet_match (strip p)) eqn:Hm.
  - rewrite qa5_step_marker_eq by assumption.
    destruct (truthy (Qa5.current_question st)) eqn:Hopen;
      cbn [Qa5.parsed_questions Qa5.parsed_answers Qa5.current_question
           Qa5.current_answer Qa5.question_counter truthy].
    + rewrite !length_app. cbn [length].
      split; [lia|]. split; [lia|].
      split; [now apply indexed_snoc_entry|].
      split; [apply indexed_snoc_entry; [assumption | lia]|].
      split; [discriminate | lia].
    + split; [lia|]. split; [lia|]. split; [assumption|]. split; [assumption|].
      split; [discriminate | lia].
  - rewrite qa5_step_other by assumption. rewrite Nat.add_0_r.
    destruct (truthy (Qa5.current_question st)) eqn:Hopen.
    + destruct (length (Qa5.current_question st) =? 1)%nat;
        cbn [Qa5.parsed_questions Qa5.parsed_answers Qa5.current_question
             Qa5.current_answer Qa5.question_counter].
      * rewrite truthy_app_l by assumption.
        split; [lia|]. split; [lia|]. split; [assumption|]. split; [assumption|].
        split; [discriminate | reflexivity].
      * rewrite Hopen.
        split; [lia|]. split; [lia|]. split; [assumption|]. split; [assumption|].
        split; [discriminate | reflexivity].
    + rewrite Hopen.
      split; [lia|]. split; [lia|]. split; [assumption|]. split; [assumption|].
      split; [assumption | reflexivity].
Qed.

Lemma qa5_run_inv paragraphs : qa5_inv paragraphs (Qa5.run paragraphs).
Proof.
  induction paragraphs as [|p ps IH] using rev_ind.
  - unfold qa5_inv. cbn. auto 10.
  - unfold Qa5.run in *. rewrite fold_left_app. cbn [fold_left].
    now apply qa5_step_inv.
Qed.

Lemma qa5_finish st :
  (truthy (Qa5.current_question st) = false -> Qa5.current_answer st = []) ->
  Qa5.finish st
  = if truthy (Qa5.current_question st)
    then (Qa5.parsed_questions st ++ [fst (qa5_entry st)],
          Qa5.parsed_answers st ++ [snd (qa5_entry st)])
    else (Qa5.parsed_questions st, Qa5.parsed_answers st).
Proof.
  intros Hstale. unfold Qa5.finish.
  destruct (truthy (Qa5.current_question st)) eqn:Hopen.
  - cbn [orb]. apply qa5_process.
  - rewrite (Hstale eq_refl). reflexivity.
Qed.

(** *** The text of an emitted question *)

Lemma sub_all_never m repl s :
  (forall s', m false s' = None) -> sub_all m repl false 0 s = s.
Proof.
  intros Hm. induction s as [|c r IH]; [reflexivity|].
  cbn [sub_all]. now rewrite Hm, IH.
Qed.

Lemma span_len_nonspace c r : py_isspace c = false -> span_len py_isspace (c :: r) = O.
Proof. intros E. cbn. now rewrite E. Qed.

Lemma letter_nonspace c : is_tib_letter c = true -> py_isspace c = false.
Proof.
  unfold is_tib_letter, TIB_KA, TIB_A. intros H.
  apply andb_prop in H as [H1 H2]. apply Z.leb_le in H1, H2.
  unfold py_isspace.
  repeat match goal with
         | |- context [?a <=? ?b] => destruct (Z.leb_spec a b); try lia
         | |- context [?a =? ?b] => destruct (Z.eqb_spec a b); try lia
         end; reflexivity.
Qed.

(** A stripped line that matches the marker pattern is the letter
    alone. *)
Lemma alphabet_match_strip p :
  alphabet_match (strip p) = true -> exists c, strip p = [c] /\ is_tib_letter c = true.
Proof.
  intros H. pose proof (ends_nonspace_rstrip (lstrip p)) as He. fold (strip p) in He.
  destruct (strip p) as [|c r]; [discriminate|].
  cbn in H. apply andb_prop in H as [Hc Hr].
  exists c. split; [|assumption]. f_equal.
  destruct r as [|d r _] using rev_ind; [reflexivity|].
  change (c :: r ++ [d]) with ((c :: r) ++ [d]) in He.
  rewrite ends_nonspace_snoc in He. rewrite forallb_app in Hr.
  apply andb_prop in Hr as [_ Hd]. cbn in Hd. rewrite andb_true_r in Hd.
  now rewrite Hd in He.
Qed.

(** The marker letter and the space behind it are removed from the
    question text; a stripped first line comes out as it is. *)
Lemma qa5_question_text c (l1 : str) :
  is_tib_letter c = true -> l1 <> [] -> strip l1 = l1 ->
  strip (re_sub m_alphabet_marker [] (strip (join [SPACE] [[c]; l1]))) = l1.
Proof.
  intros Hc Hne Hs.
  pose proof (letter_nonspace c Hc) as Hcs.
  assert (Hl : lstrip l1 = l1).
  { rewrite <- Hs. apply strip_lstrip_fixed. }
  assert (He : ends_nonspace l1 = true).
  { rewrite <- Hs. apply ends_nonspace_rstrip. }
  destruct (lstrip_fixed_cases l1 Hl) as [->|(d & r & -> & Hd)]; [congruence|].
  cbn [join app].
  assert (Hj : strip (c :: SPACE :: d :: r) = c :: SPACE :: d :: r).
  { apply strip_fixed.
    - now apply lstrip_head_nonspace.
    - rewrite !ends_nonspace_cons by discriminate. exact He. }
  rewrite Hj. unfold re_sub. cbn [sub_all m_alphabet_marker]. rewrite Hc.
  cbn [span_len]. rewrite space_is_space, Hd.
  cbn [app Nat.sub sub_all].
  rewrite sub_all_never by reflexivity. exact Hs.
Qed.

Lemma qa5_marker_only_text c :
  is_tib_letter c = true ->
  strip (re_sub m_alphabet_marker [] (strip (join [SPACE] [[c]]))) = [].
Proof.
  intros Hc. pose proof (letter_nonspace c Hc) as Hcs.
  cbn [join].
  assert (Hj : strip [c] = [c]).
  { apply strip_fixed; [now apply lstrip_head_nonspace | cbn; now rewrite Hcs]. }
  rewrite Hj. unfold re_sub. cbn [sub_all m_alphabet_marker]. rewrite Hc. reflexivity.
Qed.

(** ** qa_7.py (variant F) *)

Lemma partition_first_startswith s sep :
  startswith s sep = true -> partition_first s sep = Some ([], drop (length sep) s).
Proof. intros H. destruct s; cbn [partition_first]; now rewrite H. Qed.

Lemma digits_dot_partition isdecimal s :
  Qa7.digits_dot isdecimal s = true -> exists a b, partition_first s [DOT] = Some (a, b).
Proof.
  induction s as [|c r IH]; [discriminate|].
  cbn [Qa7.digits_dot]. intros H. apply andb_prop in H as [_ H].
  cbn [partition_first].
  destruct (startswith (c :: r) [DOT]); [eauto|].
  apply orb_prop in H as [H|H].
  - rewrite (partition_first_startswith _ _ H). eauto.
  - destruct (IH H) as (a & b & ->). eauto.
Qed.

(** The index [1] behind the pattern [^\d+\.] never raises. *)
Lemma digits_dot_index isdecimal text :
  Qa7.digits_dot isdecimal text = true ->
  py_index (split1 text [DOT]) 1 = Ok (after_dot text).
Proof.
  intros H. destruct (digits_dot_partition _ _ H) as (a & b & E).
  unfold split1, after_dot. now rewrite E.
Qed.

Lemma qa7_step_blank isdecimal st p :
  truthy (strip p) = false -> Qa7.step isdecimal st p = Ok st.
Proof. intros H. unfold Qa7.step. now rewrite H. Qed.

Lemma qa7_step_numbered isdecimal st p :
  truthy (strip p) = true -> Qa7.digits_dot isdecimal (strip p) = true ->
  Qa7.step isdecimal st p
  = Ok (Qa7.mk (if truthy (Qa7.current_question st)
                then Qa7.questions st ++ [strip (join [SPACE] (Qa7.current_question st))]
                else Qa7.questions st)
               (Qa7.answers st) [strip (after_dot (strip p))]
               (Qa7.current_answer st) true false).
Proof.
  intros Ht Hd. unfold Qa7.step. rewrite Ht, Hd. cbn [negb].
  rewrite (digits_dot_index _ _ Hd), bind_ok.
  destruct (Qa7.current_question st) eqn:E; cbn [truthy]; cbv iota;
    cbn [Qa7.questions Qa7.answers Qa7.current_question Qa7.current_answer];
    rewrite ?E; reflexivity.
Qed.

Lemma qa7_step_answer isdecimal st p :
  truthy (strip p) = true -> is_answer_start7 isdecimal (strip p) = true ->
  Qa7.step isdecimal st p
  = Ok (Qa7.mk (Qa7.questions st)
               (if truthy (Qa7.current_answer st)
                then Qa7.answers st ++ [strip (join [SPACE] (Qa7.current_answer st))]
                else Qa7.answers st)
               (Qa7.current_question st)
               [strip (replace (strip p) Qa7.ANSWER_KEYWORD [])] false true).
Proof.
  unfold is_answer_start7. intros Ht H. apply andb_prop in H as [Hd Hk].
  apply negb_true_iff in Hd.
  unfold Qa7.step. rewrite Ht, Hd, Hk. cbn [negb].
  destruct (Qa7.current_answer st) eqn:E; cbn [truthy]; cbv iota;
    cbn [Qa7.questions Qa7.answers Qa7.current_question Qa7.current_answer];
    rewrite ?E; reflexivity.
Qed.

Lemma qa7_step_plain isdecimal st p :
  truthy (strip p) = true -> Qa7.digits_dot isdecimal (strip p) = false ->
  is_answer_start7 isdecimal (strip p) = false ->
  Qa7.step isdecimal st p
  = Ok (if Qa7.is_question st
        then Qa7.mk (Qa7.questions st) (Qa7.answers st)
                    (Qa7.current_question st ++ [strip p]) (Qa7.current_answer st)
                    (Qa7.is_question st) (Qa7.is_answer st)
        else if Qa7.is_answer st
        then Qa7.mk (Qa7.questions st) (Qa7.answers st) (Qa7.current_question st)
                    (Qa7.current_answer st ++ [strip p])
                    (Qa7.is_question st) (Qa7.is_answer st)
        else st).
Proof.
  unfold is_answer_start7. intros Ht Hd Hk. rewrite Hd in Hk. cbn [negb andb] in Hk.
  unfold Qa7.step. rewrite Ht, Hd, Hk. cbn [negb].
  destruct (Qa7.is_question st); [reflexivity|].
  now destruct (Qa7.is_answer st).
Qed.

Lemma qa7_step_inv isdecimal seen st p :
  qa7_inv isdecimal seen st ->
  exists st', Qa7.step isdecimal st p = Ok st' /\ qa7_inv isdecimal (seen ++ [p]) st'.
Proof.
  intros (Hiq & Hia & Hkq & Hka).
  unfold qa7_inv. rewrite !question_starts_snoc, <- Hkq, <- Hka. clear Hkq Hka.
  destruct (truthy (strip p)) eqn:Ht.
  2:{ rewrite qa7_step_blank by assumption. eexists. split; [reflexivity|].
      cbn [andb]. rewrite !Nat.add_0_r. auto. }
  cbn [andb]. destruct (Qa7.digits_dot isdecimal (strip p)) eqn:Hd.
  - rewrite qa7_step_numbered by assumption. eexists. split; [reflexivity|].
    unfold is_answer_start7. rewrite Hd. cbn [negb andb].
    cbn [Qa7.questions Qa7.answers Qa7.current_question Qa7.current_answer
         Qa7.is_question Qa7.is_answer truthy].
    split; [reflexivity|]. split; [discriminate|].
    split; [|lia].
    destruct (truthy (Qa7.current_question st)); rewrite ?length_app; cbn [length]; lia.
  - destruct (is_answer_start7 isdecimal (strip p)) eqn:Hk.
    + rewrite qa7_step_answer by assumption. eexists. split; [reflexivity|].
      cbn [Qa7.questions Qa7.answers Qa7.current_question Qa7.current_answer
           Qa7.is_question Qa7.is_answer truthy].
      split; [discriminate|]. split; [reflexivity|].
      split; [lia|].
      destruct (truthy (Qa7.current_answer st)); rewrite ?length_app; cbn [length]; lia.
    + rewrite qa7_step_plain by assumption. eexists. split; [reflexivity|].
      destruct (Qa7.is_question st) eqn:Eq.
      * cbn [Qa7.questions Qa7.answers Qa7.current_question Qa7.current_answer
             Qa7.is_question Qa7.is_answer].
        rewrite (truthy_app_l _ [strip p] (Hiq eq_refl)), (Hiq eq_refl).
        split; [reflexivity|]. split; [assumption|]. split; lia.
      * destruct (Qa7.is_answer st) eqn:Ea.
        -- cbn [Qa7.questions Qa7.answers Qa7.current_question Qa7.current_answer
                Qa7.is_question Qa7.is_answer].
           rewrite (truthy_app_l _ [strip p] (Hia eq_refl)), (Hia eq_refl).
           split; [discriminate|]. split; [reflexivity|]. split; lia.
        -- rewrite Eq, Ea. split; [discriminate|]. split; [discriminate|]. split; lia.
Qed.

Lemma qa7_run_inv isdecimal paragraphs :
  exists st, Qa7.run isdecimal paragraphs = Ok st /\ qa7_inv isdecimal paragraphs st.
Proof.
  induction paragraphs as [|p ps IH] using rev_ind.
  - exists Qa7.init. split; [reflexivity|]. unfold qa7_inv. cbn. auto.
  - destruct IH as (st & Hrun & Hinv).
    destruct (qa7_step_inv isdecimal ps st p Hinv) as (st' & Hstep & Hinv').
    exists st'. split; [|assumption].
    unfold Qa7.run in *. rewrite foldM_app, Hrun, bind_ok. cbn [foldM].
    now rewrite Hstep.
Qed.

(** *** [save_to_files] *)

Lemma imap_enumerate_cons {A} (k : Z) (a : A) (l : list A) :
  imap (fun i x => (Z.of_nat i + k, x)) (a :: l)
  = (k, a) :: imap (fun i x => (Z.of_nat i + (k + 1), x)) l.
Proof.
  cbn [imap]. f_equal. apply imap_ext. intros i x _. cbn. f_equal. lia.
Qed.

Lemma write_numbered_from entries : forall k,
  0 <= k ->
  traverse (fun '(idx, entry) =>
              tibetan_num ← int_to_tibetan idx;
              Ok (tibetan_num ++ CLOSE_SP ++ entry ++ [NEWLINE; NEWLINE]))
           (imap (fun i x => (Z.of_nat i + k, x)) entries)
  = Ok (imap (fun i x => tib (Z.of_nat i + k) ++ CLOSE_SP ++ x ++ [NEWLINE; NEWLINE])
             entries).
Proof.
  induction entries as [|e entries IH]; intros k Hk; [reflexivity|].
  rewrite imap_enumerate_cons. cbn [traverse].
  rewrite int_to_tibetan_ok, !bind_ok by assumption.
  rewrite IH, bind_ok by lia.
  cbn [imap]. do 2 f_equal. apply imap_ext. intros i x _. cbn.
  do 2 f_equal. lia.
Qed.

Lemma write_numbered_eq entries :
  Qa7.write_numbered entries
  = Ok (imap (fun i x => tib (Z.of_nat i + 1) ++ CLOSE_SP ++ x ++ [NEWLINE; NEWLINE])
             entries).
Proof. unfold Qa7.write_numbered, Qa7.enumerate1. now apply write_numbered_from. Qed.

(** ** html_parser.py (variant G) *)

Lemma html_question_text content :
  (if contains content [SPACE]
   then py_index (split1 content [SPACE]) (-1)
   else Ok content)
  = Ok (after_index content).
Proof.
  destruct (contains content [SPACE]) eqn:E.
  - apply remove_indexing_total.
  - unfold after_index. now rewrite not_contains_partition.
Qed.

Lemma html_step_none st : HtmlParser.step st None = Ok st.
Proof. reflexivity. Qed.

Lemma html_step_some st text :
  0 <= HtmlParser.question_index st -> 0 <= HtmlParser.answer_index st ->
  HtmlParser.step st (Some text)
  = Ok (if is_answer_unit text
        then HtmlParser.mk (HtmlParser.questions st)
               (HtmlParser.answers st
                ++ [(tib (HtmlParser.answer_index st) ++ [ANG_CLOSE]) ++ [SPACE]
                    ++ strip (replace (strip text) HtmlParser.ANSWER_KEYWORD [])])
               (HtmlParser.question_index st) (HtmlParser.answer_index st + 1)
        else HtmlParser.mk
               (HtmlParser.questions st
                ++ [(tib (HtmlParser.question_index st) ++ [ANG_CLOSE]) ++ [SPACE]
                    ++ after_index (strip text)])
               (HtmlParser.answers st)
               (HtmlParser.question_index st + 1) (HtmlParser.answer_index st)).
Proof.
  intros Hq Ha. unfold HtmlParser.step, is_answer_unit, HtmlParser.get_tibetan_number.
  destruct (contains (strip text) HtmlParser.ANSWER_KEYWORD).
  - now rewrite convert_to_tibetan_number_ok, bind_ok by assumption.
  - rewrite html_question_text, bind_ok.
    now rewrite convert_to_tibetan_number_ok, bind_ok by assumption.
Qed.

Lemma indexed_snoc_unit l (k : Z) body :
  indexed tib 1 l -> k = 1 + Z.of_nat (length l) ->
  indexed tib 1 (l ++ [(tib k ++ [ANG_CLOSE]) ++ [SPACE] ++ body]).
Proof.
  intros Hl ->. apply indexed_snoc. split; [assumption|].
  rewrite <- app_assoc. eexists. reflexivity.
Qed.

Lemma span_texts_snoc seen o :
  span_texts (seen ++ [o]) = span_texts seen ++ match o with Some t => [t] | None => [] end.
Proof. unfold span_texts. rewrite omap_app. now destruct o. Qed.

Lemma html_step_inv seen st o :
  html_inv seen st ->
  exists st', HtmlParser.step st o = Ok st' /\ html_inv (seen ++ [o]) st'.
Proof.
  intros (Hq & Ha & Hiq & Hia & Hna & Hnq).
  unfold html_inv. rewrite span_texts_snoc, !List.filter_app, !length_app.
  destruct o as [text|].
  2:{ rewrite html_step_none. eexists. split; [reflexivity|].
      cbn [List.filter length]. rewrite !Nat.add_0_r. auto 10. }
  rewrite html_step_some by lia. eexists. split; [reflexivity|].
  cbn [List.filter]. destruct (is_answer_unit text) eqn:E;
    cbn [negb length HtmlParser.questions HtmlParser.answers
         HtmlParser.question_index HtmlParser.answer_index];
    rewrite ?length_app; cbn [length].
  - split; [lia|]. split; [lia|]. split; [assumption|].
    split; [now apply indexed_snoc_unit|]. split; lia.
  - split; [lia|]. split; [lia|]. split; [now apply indexed_snoc_unit|].
    split; [assumption|]. split; lia.
Qed.

Lemma html_run_inv paragraphs :
  exists st, foldM HtmlParser.step paragraphs HtmlParser.init = Ok st /\
             html_inv paragraphs st.
Proof.
  induction paragraphs as [|p ps IH] using rev_ind.
  - exists HtmlParser.init. split; [reflexivity|]. unfold html_inv. cbn. auto 10.
  - destruct IH as (st & Hrun & Hinv).
    destruct (html_step_inv ps st p Hinv) as (st' & Hstep & Hinv').
    exists st'. split; [|assumption].
    rewrite foldM_app, Hrun, bind_ok. cbn [foldM]. now rewrite Hstep.
Qed.

(** ** Lemmas on the parsers as a whole *)

Lemma result_pair {A B} (p : A * B) : p = (fst p, snd p).
Proof. now destruct p. Qed.

(** *** qa_2.py: what precedes the first question *)

Lemma qa2_preamble_state pre : forall ans,
  Forall (fun p => starts_with_numeral (strip p) = false) pre ->
  exists ans', foldM Qa2.step pre (Qa2.mk [] [] None ans 1) = Ok (Qa2.mk [] [] None ans' 1).
Proof.
  induction pre as [|p pre IH]; intros ans H.
  - exists ans. reflexivity.
  - inversion H as [|? ? Hp Hpre]; subst. cbn [foldM].
    destruct (truthy (strip p)) eqn:Ht.
    + rewrite qa2_step_plain, bind_ok by assumption. apply IH, Hpre.
    + rewrite qa2_step_blank, bind_ok by assumption. apply IH, Hpre.
Qed.

Lemma qa2_preamble_forgotten rest : forall ans ans',
  (st ← foldM Qa2.step rest (Qa2.mk [] [] None ans 1); Qa2.finish st)
  = (st ← foldM Qa2.step rest (Qa2.mk [] [] None ans' 1); Qa2.finish st).
Proof.
  induction rest as [|p rest IH]; intros ans ans'; [reflexivity|].
  cbn [foldM]. destruct (truthy (strip p)) eqn:Ht.
  - destruct (starts_with_numeral (strip p)) eqn:Hs.
    + rewrite !qa2_step_start by (assumption || (cbn; lia)). reflexivity.
    + rewrite !qa2_step_plain, !bind_ok by assumption. apply IH.
  - rewrite !qa2_step_blank, !bind_ok by assumption. apply IH.
Qed.

(** *** qa_5.py: the marker line *)

Lemma all_space_ends s :
  s <> [] -> forallb py_isspace s = true -> ends_nonspace s = false.
Proof.
  induction s as [|c r IH]; [congruence|]. intros _ H.
  cbn [forallb] in H. apply andb_prop in H as [Hc Hr].
  destruct r as [|d r'].
  - cbn. now rewrite Hc.
  - rewrite ends_nonspace_cons by discriminate. now apply IH.
Qed.

(** A stripped line the pattern accepts is the letter alone. *)
Lemma alphabet_match_letter p :
  alphabet_match (strip p) = true ->
  exists c, is_tib_letter c = true /\ strip p = [c].
Proof.
  intros H. pose proof (ends_nonspace_rstrip (lstrip p)) as He.
  change (rstrip (lstrip p)) with (strip p) in He.
  destruct (strip p) as [|c r]; [discriminate|].
  cbn [alphabet_match] in H. apply andb_prop in H as [Hc Hr].
  exists c. split; [assumption|].
  destruct r as [|d r']; [reflexivity|].
  rewrite ends_nonspace_cons in He by discriminate.
  rewrite all_space_ends in He by (assumption || discriminate). discriminate.
Qed.

Lemma alphabet_match_truthy p : alphabet_match (strip p) = true -> truthy (strip p) = true.
Proof. now destruct (strip p). Qed.

(** *** qa_6.py: what precedes the first question *)

Lemma search_marker_truthy p g :
  search_question_marker (strip p) = Some g -> truthy (strip p) = true.
Proof. now destruct (strip p). Qed.

Lemma qa6_preamble_state pre : forall ans,
  Forall (fun p => search_question_marker (strip p) = None) pre ->
  foldM Qa6.step pre (Qa6.mk [] [] [] ans 1)
  = Ok (Qa6.mk [] [] [] (ans ++ seen_lines pre) 1).
Proof.
  induction pre as [|p pre IH]; intros ans H.
  - cbn. now rewrite app_nil_r.
  - inversion H as [|? ? Hp Hpre]; subst. cbn [foldM]. rewrite seen_lines_cons.
    destruct (truthy (strip p)) eqn:Ht.
    + rewrite qa6_step_plain, bind_ok by assumption.
      cbn [Qa6.current_question truthy andb Qa6.questions Qa6.answers
           Qa6.current_answer Qa6.question_counter].
      rewrite IH by assumption.
      now rewrite <- app_assoc.
    + rewrite qa6_step_blank, bind_ok by assumption. now apply IH.
Qed.

(** *** The index in front of an entry *)

Lemma nonspace_not_in (s : str) :
  Forall (fun c => py_isspace c = false) s -> ~ In SPACE s.
Proof.
  intros H Hin. rewrite Forall_forall in H.
  apply list_elem_of_In in Hin. specialize (H _ Hin). discriminate.
Qed.

Lemma ascii_digit_nonspace c : is_ascii_digit c -> py_isspace c = false.
Proof.
  unfold is_ascii_digit, ASCII_ZERO. intros H.
  assert (c = 48 \/ c = 49 \/ c = 50 \/ c = 51 \/ c = 52 \/ c = 53 \/ c = 54 \/
          c = 55 \/ c = 56 \/ c = 57) as Hc by lia.
  repeat destruct Hc as [->|Hc]; try reflexivity. now subst.
Qed.

Lemma py_str_int_nonspace n : 0 <= n -> Forall (fun c => py_isspace c = false) (py_str_int n).
Proof.
  intros Hn. rewrite py_str_int_nonneg by assumption.
  eapply Forall_impl; [apply digits_acc_ascii|].
  intros c Hc. now apply ascii_digit_nonspace.
Qed.

Lemma py_str_int_nonempty n : 0 <= n -> py_str_int n <> [].
Proof.
  intros Hn. rewrite py_str_int_nonneg by assumption. apply digits_acc_nonempty.
Qed.

Lemma lstrip_snoc_space a :
  lstrip (a ++ [SPACE]) = if truthy (lstrip a) then lstrip a ++ [SPACE] else [].
Proof.
  induction a as [|c a IH]; [reflexivity|].
  cbn [app lstrip]. destruct (py_isspace c); [exact IH | reflexivity].
Qed.

Lemma rstrip_cons_space text :
  rstrip (SPACE :: text) = if truthy (rstrip text) then SPACE :: rstrip text else [].
Proof.
  unfold rstrip. cbn [rev]. rewrite lstrip_snoc_space.
  destruct (lstrip (rev text)) as [|c r] eqn:E; [reflexivity|].
  cbn [truthy].
  assert (Hne : rev (c :: r) <> []).
  { intros H. apply (f_equal (@rev _)) in H. rewrite rev_involutive in H. discriminate. }
  rewrite rev_unit. now destruct (rev (c :: r)).
Qed.

(** The line [parse_text_file] keeps of an entry [index༽ text], and
    what is left of it behind the first space. *)
Lemma after_index_entry (idx text : str) :
  idx <> [] -> Forall (fun c => py_isspace c = false) idx ->
  after_index (strip (idx ++ CLOSE_SP ++ text))
  = if truthy (rstrip text) then rstrip text else idx ++ [ANG_CLOSE].
Proof.
  intros Hne Hidx. rewrite CLOSE_SP_eq.
  assert (Hpre : Forall (fun c => py_isspace c = false) (idx ++ [ANG_CLOSE])).
  { apply Forall_app. split; [assumption|]. now repeat constructor. }
  change (idx ++ [ANG_CLOSE; SPACE] ++ text) with (idx ++ [ANG_CLOSE] ++ SPACE :: text).
  rewrite app_assoc, strip_app_nonspace; [|now destruct idx|assumption].
  rewrite rstrip_cons_space.
  destruct (rstrip text) as [|c r]; cbn [truthy].
  - rewrite app_nil_r. apply after_index_no_space. now apply nonspace_not_in.
  - apply after_index_token. now apply nonspace_not_in.
Qed.

(** *** The encoders off their domain *)

Lemma py_str_int_negative n : n < 0 -> py_str_int n = MINUS :: str_of_nonneg (- n).
Proof. intros Hn. unfold py_str_int. destruct (Z.ltb_spec n 0); [reflexivity | lia]. Qed.

Lemma tibetan_digits_of_negative n : n < 0 -> tibetan_digits_of n = Raise ValueError.
Proof.
  intros Hn. unfold tibetan_digits_of. now rewrite py_str_int_negative.
Qed.

(** *** The normalizer on blank text *)

Lemma lstrip_nil_iff s : lstrip s = [] <-> forallb py_isspace s = true.
Proof.
  induction s as [|c r IH]; [easy|].
  cbn [lstrip forallb]. destruct (py_isspace c); [exact IH|].
  split; discriminate.
Qed.

Lemma strip_nil_iff s : strip s = [] <-> forallb py_isspace s = true.
Proof.
  rewrite <- lstrip_nil_iff. unfold strip.
  destruct (lstrip_fixed_cases (lstrip s) (lstrip_idem s)) as [->|(c & r & -> & E)].
  - easy.
  - rewrite rstrip_cons_nonspace by assumption. split; discriminate.
Qed.

Lemma sub_ws_nil_iff s : sub_ws false s = [] <-> s = [].
Proof.
  destruct s as [|c r]; [easy|].
  cbn [sub_ws]. destruct (py_isspace c); split; discriminate.
Qed.

(** *** The aggregator without pairs *)

Lemma combine_skip dir names : forall st,
  (forall f, In f names -> endswith f Combine.QUESTIONS_SUFFIX = true ->
     Combine.path_exists dir
       (replace f Combine.QUESTIONS_SUFFIX [] ++ Combine.ANSWERS_SUFFIX) = false) ->
  foldM (Combine.step dir) names st = Ok st.
Proof.
  induction names as [|f names IH]; intros st H; [reflexivity|].
  cbn [foldM].
  assert (Hs : Combine.step dir st f = Ok st).
  { unfold Combine.step.
    destruct (endswith f Combine.QUESTIONS_SUFFIX) eqn:E; [|reflexivity].
    now rewrite (H f (or_introl eq_refl) E). }
  rewrite Hs, bind_ok. apply IH. intros g Hg. apply H. now right.
Qed.

Lemma text_lines_entries file :
  Forall (fun l => l <> [] /\ strip l = l) (text_lines file).
Proof.
  unfold text_lines. induction file as [|l file IH]; [constructor|].
  cbn [List.filter]. destruct (truthy (strip l)) eqn:E; [|exact IH].
  cbn [map]. constructor; [|exact IH].
  split; [now apply strip_nonempty_truthy | apply strip_idem].
Qed.

(** *** qa_6.py: the preamble stays in the first answer *)

Lemma qa6_prefixed_step a pool st st' p :
  (truthy (strip p) = true -> In (strip p) pool) ->
  qa6_prefixed a pool st st' ->
  exists s s', Qa6.step st p = Ok s /\ Qa6.step st' p = Ok s' /\ qa6_prefixed a pool s s'.
Proof.
  intros Hin (Hq & Hcq & Hc & Hpos & Hphase).
  destruct (truthy (strip p)) eqn:Ht.
  2:{ exists st, st'. rewrite !qa6_step_blank by assumption.
      split; [reflexivity|]. split; [reflexivity|]. repeat split; assumption. }
  specialize (Hin eq_refl).
  destruct (search_question_marker (strip p)) as [g|] eqn:Hs.
  - rewrite (qa6_step_start st p g), (qa6_step_start st' p g) by (assumption || lia).
    rewrite Hcq, Hq, Hc.
    destruct Hphase as [(Ha & Ha' & Hone & Hopen & Hca & Hpool)
                       |(lines & ans & Ha & Ha' & Hca & Hpool)].
    + rewrite Hopen, Ha, Ha', Hca, Hone. eexists _, _.
      split; [reflexivity|]. split; [reflexivity|].
      unfold qa6_prefixed.
      cbn [Qa6.questions Qa6.answers Qa6.current_question Qa6.current_answer
           Qa6.question_counter app].
      split; [reflexivity|]. split; [reflexivity|]. split; [reflexivity|].
      split; [lia|]. right. exists (Qa6.current_answer st), []. auto.
    + rewrite Ha, Ha', Hca.
      destruct (truthy (Qa6.current_question st)); eexists _, _;
        (split; [reflexivity|]); (split; [reflexivity|]);
        unfold qa6_prefixed;
        cbn [Qa6.questions Qa6.answers Qa6.current_question Qa6.current_answer
             Qa6.question_counter app];
        (split; [reflexivity|]); (split; [reflexivity|]); (split; [reflexivity|]);
        (split; [lia|]); right; eexists lines, _; auto.
  - rewrite (qa6_step_plain st p), (qa6_step_plain st' p) by assumption.
    rewrite Hcq, Hq, Hc.
    destruct (truthy (Qa6.current_question st) && tseg_search (Qa6.current_question st));
      eexists _, _; (split; [reflexivity|]); (split; [reflexivity|]);
      unfold qa6_prefixed;
      cbn [Qa6.questions Qa6.answers Qa6.current_question Qa6.current_answer
           Qa6.question_counter];
      (split; [reflexivity|]); (split; [reflexivity|]); (split; [reflexivity|]);
      (split; [assumption|]);
      (destruct Hphase as [(Ha & Ha' & Hone & Hopen & Hca & Hpool)
                          |(lines & ans & Ha & Ha' & Hca & Hpool)];
       [left | right; exists lines, ans]).
    + split; [assumption|]. split; [assumption|]. split; [assumption|].
      split; [now apply truthy_app_l|]. split; assumption.
    + split; [assumption|]. split; [assumption|]. split; assumption.
    + split; [assumption|]. split; [assumption|]. split; [assumption|].
      split; [assumption|]. split; [rewrite Hca; now rewrite app_assoc|].
      apply Forall_app. split; [assumption|]. now constructor.
    + split; [assumption|]. split; [assumption|]. split; [now rewrite Hca | assumption].
Qed.

Lemma qa6_prefixed_run a pool rest : forall st st',
  Forall (fun p => truthy (strip p) = true -> In (strip p) pool) rest ->
  qa6_prefixed a pool st st' ->
  exists s s', foldM Qa6.step rest st = Ok s /\ foldM Qa6.step rest st' = Ok s' /\
               qa6_prefixed a pool s s'.
Proof.
  induction rest as [|p rest IH]; intros st st' Hin H.
  - exists st, st'. auto.
  - inversion Hin as [|? ? Hp Hrest]; subst.
    destruct (qa6_prefixed_step a pool st st' p Hp H) as (s1 & s1' & H1 & H1' & HR).
    destruct (IH s1 s1' Hrest HR) as (s & s' & H2 & H2' & HR').
    exists s, s'. cbn [foldM]. rewrite H1, H1', !bind_ok. auto.
Qed.

Lemma qa6_prefixed_finish a pool st st' :
  qa6_prefixed a pool st st' ->
  exists qs lines ans,
    Forall (fun l => In l pool) lines /\
    Qa6.finish st = Ok (qs, (tib 1 ++ CLOSE_SP ++ strip (join [NEWLINE] lines)) :: ans) /\
    Qa6.finish st'
    = Ok (qs, (tib 1 ++ CLOSE_SP ++ strip (join [NEWLINE] (a ++ lines))) :: ans).
Proof.
  intros (Hq & Hcq & Hc & Hpos & Hphase).
  unfold Qa6.finish, Qa6.emit. rewrite Hcq, Hq, Hc.
  destruct Hphase as [(Ha & Ha' & Hone & Hopen & Hca & Hpool)
                     |(lines & ans & Ha & Ha' & Hca & Hpool)].
  - rewrite Hopen, Ha, Ha', Hca, Hone.
    rewrite int_to_tibetan_ok, !bind_ok by lia.
    eexists _, (Qa6.current_answer st), []. split; [assumption|]. split; reflexivity.
  - rewrite Ha, Ha', Hca.
    destruct (truthy (Qa6.current_question st)).
    + rewrite int_to_tibetan_ok, !bind_ok by lia.
      eexists _, lines, _. split; [assumption|]. split; reflexivity.
    + eexists _, lines, _. split; [assumption|]. split; reflexivity.
Qed.

Lemma seen_lines_pool rest :
  Forall (fun p => truthy (strip p) = true -> In (strip p) (seen_lines rest)) rest.
Proof.
  apply List.Forall_forall. intros p Hp Ht. unfold seen_lines.
  apply List.filter_In. split; [|assumption]. now apply List.in_map.
Qed.


(** ** Text files *)

Lemma universal_newlines_id text :
  ~ In TextFile.CR text -> TextFile.universal_newlines text = text.
Proof.
  induction text as [|c r IH]; [reflexivity|]. intros H.
  cbn [TextFile.universal_newlines].
  destruct (Z.eqb_spec c TextFile.CR) as [->|_]; [destruct H; now left|].
  rewrite IH; [reflexivity|]. intros Hin. apply H. now right.
Qed.

Lemma join_not_in (c : char) sep entries :
  ~ In c sep -> Forall (fun e => ~ In c e) entries -> ~ In c (join sep entries).
Proof.
  intros Hsep. induction 1 as [|e entries He Hes IH]; [easy|].
  destruct entries as [|e' entries]; [exact He|].
  change (join sep (e :: e' :: entries)) with (e ++ sep ++ join sep (e' :: entries)).
  rewrite !in_app_iff. tauto.
Qed.

Lemma split_newline_nonempty text : split_newline text <> [].
Proof.
  destruct text as [|c r]; [discriminate|]. cbn [split_newline].
  destruct (c =? NEWLINE); [discriminate|].
  destruct (split_newline r); discriminate.
Qed.

Lemma split_newline_app x y :
  split_newline (x ++ NEWLINE :: y) = split_newline x ++ split_newline y.
Proof.
  induction x as [|c x IH]; [reflexivity|].
  cbn [app split_newline]. rewrite IH.
  destruct (c =? NEWLINE); [reflexivity|].
  pose proof (split_newline_nonempty x).
  now destruct (split_newline x).
Qed.

Lemma split_newline_line text : ~ In NEWLINE text -> split_newline text = [text].
Proof.
  induction text as [|c r IH]; [reflexivity|]. intros H.
  cbn [split_newline].
  destruct (Z.eqb_spec c NEWLINE) as [->|_]; [destruct H; now left|].
  rewrite IH; [reflexivity|]. intros Hin. apply H. now right.
Qed.

(** [readlines()] against [split("\n")]. *)
Lemma readlines_split text : TextFile.readlines text = line_ends (split_newline text).
Proof.
  induction text as [|c r IH]; [reflexivity|].
  cbn [TextFile.readlines split_newline]. rewrite IH.
  pose proof (split_newline_nonempty r) as Hne.
  destruct (Z.eqb_spec c NEWLINE) as [->|_].
  - destruct (split_newline r) as [|l ls]; [congruence | reflexivity].
  - destruct (split_newline r) as [|l ls]; [congruence|].
    destruct ls as [|l2 ls].
    + cbn [line_ends]. now destruct l.
    + reflexivity.
Qed.

Lemma lstrip_snoc a c :
  py_isspace c = true ->
  lstrip (a ++ [c]) = if truthy (lstrip a) then lstrip a ++ [c] else [].
Proof.
  intros Hc. induction a as [|d a IH].
  - cbn. now rewrite Hc.
  - cbn [app lstrip]. destruct (py_isspace d); [exact IH | reflexivity].
Qed.

Lemma strip_snoc_space l c : py_isspace c = true -> strip (l ++ [c]) = strip l.
Proof.
  intros Hc. unfold strip. rewrite lstrip_snoc by assumption.
  destruct (lstrip l) as [|d r]; [reflexivity|].
  cbn [truthy]. now apply rstrip_snoc_space.
Qed.

Lemma text_lines_seen file : text_lines file = seen_lines file.
Proof.
  unfold text_lines, seen_lines. induction file as [|l file IH]; [reflexivity|].
  cbn [List.filter map]. destruct (truthy (strip l)); cbn [map]; now rewrite IH.
Qed.

Lemma seen_lines_line_ends ls : seen_lines (line_ends ls) = seen_lines ls.
Proof.
  induction ls as [|l ls IH]; [reflexivity|].
  cbn [line_ends]. destruct ls as [|l2 ls].
  - destruct l; reflexivity.
  - rewrite !seen_lines_cons, IH.
    now rewrite strip_snoc_space by reflexivity.
Qed.

(** What [parse_text_file] makes of a text read back: its lines,
    stripped, without the blank ones. *)
Lemma text_lines_readlines text :
  text_lines (TextFile.readlines text) = seen_lines (split_newline text).
Proof. now rewrite text_lines_seen, readlines_split, seen_lines_line_ends. Qed.

Lemma seen_lines_blank : seen_lines [[]] = [].
Proof. reflexivity. Qed.

Lemma seen_lines_saved entries :
  seen_lines (split_newline (TextFile.save_output entries))
  = concat (map (fun e => seen_lines (split_newline e)) entries).
Proof.
  unfold TextFile.save_output.
  induction entries as [|e entries IH]; [reflexivity|].
  destruct entries as [|e' entries].
  - cbn [join map concat]. now rewrite app_nil_r.
  - change (join [NEWLINE; NEWLINE] (e :: e' :: entries))
      with (e ++ NEWLINE :: [] ++ NEWLINE :: join [NEWLINE; NEWLINE] (e' :: entries)).
    rewrite !split_newline_app, !seen_lines_app, IH. reflexivity.
Qed.

Lemma parse_saved dir name entries :
  Forall (fun e => ~ In TextFile.CR e) entries ->
  Combine.readlines dir name = Some (TextFile.written (TextFile.save_output entries)) ->
  Combine.parse_text_file dir name
  = Ok (concat (map (fun e => seen_lines (split_newline e)) entries)).
Proof.
  intros Hcr Hfile. rewrite (parse_text_file_lines _ _ _ Hfile).
  unfold TextFile.written. rewrite universal_newlines_id.
  - now rewrite text_lines_readlines, seen_lines_saved.
  - apply join_not_in; [|assumption].
    intros [H|[H|[]]]; discriminate H.
Qed.

(** ** Substitution with an anchored pattern *)

(** A pattern that starts with [^] is replaced at most once, at the
    start of the text. *)
Lemma re_sub_anchored m (s : str) :
  (forall s', m false s' = None) ->
  (forall s' n, m true s' = Some n -> (1 <= n)%nat) ->
  re_sub m [] s = match m true s with Some n => drop n s | None => s end.
Proof.
  intros Hm Hn. unfold re_sub. destruct s as [|c r].
  - cbn [sub_all]. destruct (m true []); [now rewrite drop_nil | reflexivity].
  - cbn [sub_all]. destruct (m true (c :: r)) as [n|] eqn:E.
    + pose proof (Hn _ _ E) as Hle. destruct n as [|n]; [lia|].
      cbn [app Nat.sub]. rewrite Nat.sub_0_r, sub_all_skip', sub_all_never by assumption.
      reflexivity.
    + now rewrite sub_all_never by assumption.
Qed.

Lemma answer_phrase_match_length s n : m_answer_phrase true s = Some n -> (1 <= n)%nat.
Proof.
  unfold m_answer_phrase.
  assert (H1 : (1 <= length ANSWER_PHRASE_1)%nat) by (vm_compute; lia).
  assert (H2 : (1 <= length ANSWER_PHRASE_2)%nat) by (vm_compute; lia).
  destruct (startswith s ANSWER_PHRASE_1); [intros [= <-]; exact H1|].
  destruct (startswith s ANSWER_PHRASE_2); [intros [= <-]; exact H2 | discriminate].
Qed.

Lemma question_number_match_length s n : m_question_number true s = Some n -> (1 <= n)%nat.
Proof.
  unfold m_question_number, m_initial_number.
  destruct (span_len is_tib_digit s); [discriminate|]. intros [= <-]. lia.
Qed.

(** * Further properties of the sources *)

(** ** qa_2.py *)

(** X3. [parse_docx] of qa_2.py never raises.  It returns one question
    and one answer for every paragraph that, stripped, starts with a
    Tibetan numeral, whatever lies between these paragraphs; entry [i]
    (from 0) of either list starts with the numeral of [i + 1] and the
    closing bracket. *)
Theorem qa2_pair_per_numeral_line (paragraphs : list str) :
  exists qs ans,
    Qa2.parse_docx paragraphs = Ok (qs, ans) /\
    length qs = question_starts starts_with_numeral paragraphs /\
    length ans = length qs /\
    forall (i : nat) e, qs !! i = Some e \/ ans !! i = Some e ->
      exists n body,
        int_to_tibetan_numeral (1 + Z.of_nat i) = Ok n /\ e = n ++ ANG_CLOSE :: body.
Proof.
  destruct (qa2_parse paragraphs) as (st & _ & _ & Hp & Hq & Ha & Hiq & Hia).
  exists (fst (qa2_result st)), (snd (qa2_result st)).
  split; [now rewrite <- result_pair|]. split; [assumption|]. split; [lia|].
  intros i e [H|H];
    [destruct (indexed_lookup _ _ _ _ _ Hiq H) as [body ->]
    |destruct (indexed_lookup _ _ _ _ _ Hia H) as [body ->]];
    exists (tib (1 + Z.of_nat i)), body;
    (split; [apply int_to_tibetan_numeral_ok; lia | reflexivity]).
Qed.

(** X4. Under qa_2.py the paragraphs in front of the first one that
    starts with a Tibetan numeral leave no trace in the result. *)
Theorem qa2_text_before_first_question_dropped (pre rest : list str)
    (Hpre : Forall (fun p => starts_with_numeral (strip p) = false) pre) :
  Qa2.parse_docx (pre ++ rest) = Qa2.parse_docx rest.
Proof.
  unfold Qa2.parse_docx, Qa2.run, Qa2.init. rewrite foldM_app.
  destruct (qa2_preamble_state pre [] Hpre) as [ans ->]. rewrite bind_ok.
  apply qa2_preamble_forgotten.
Qed.

Lemma qa2_text_before_first_question_dropped_witness :
  Qa2.parse_docx ([u "title"; u " ལན། early "] ++ [u "༡ question"; u "ལན། answer"])
  = Qa2.parse_docx [u "༡ question"; u "ལན། answer"].
Proof.
  apply (qa2_text_before_first_question_dropped [u "title"; u " ལན། early "]).
  repeat constructor.
Defined.

(** ** qa_3.py *)

(** X5. [parse_docx] of qa_3.py never raises and returns lists of the
    same length; entry [i] (from 0) of either list starts with the
    numeral of [i + 1] and the closing bracket. *)
Theorem qa3_lists_aligned (paragraphs : list str) :
  exists qs ans,
    Qa3.parse_docx paragraphs = Ok (qs, ans) /\
    length ans = length qs /\
    forall (i : nat) e, qs !! i = Some e \/ ans !! i = Some e ->
      exists n body,
        int_to_tibetan_numeral (1 + Z.of_nat i) = Ok n /\ e = n ++ ANG_CLOSE :: body.
Proof.
  destruct (qa3_parse paragraphs) as (st & _ & Hinv & Hp).
  destruct (qa3_result_inv st Hinv) as (Hlen & Hiq & Hia).
  exists (fst (qa3_result st)), (snd (qa3_result st)).
  split; [now rewrite <- result_pair|]. split; [assumption|].
  intros i e [H|H];
    [destruct (indexed_lookup _ _ _ _ _ Hiq H) as [body ->]
    |destruct (indexed_lookup _ _ _ _ _ Hia H) as [body ->]];
    exists (tib (1 + Z.of_nat i)), body;
    (split; [apply int_to_tibetan_numeral_ok; lia | reflexivity]).
Qed.

(** X6. On a stream of records (a line that starts with a numeral, then
    lines that do not), qa_3.py returns one pair for every record that
    has a line starting with the answer keyword, and nothing for the
    others: a question without such a line is dropped. *)
Theorem qa3_question_without_answer_dropped (recs : list (str * list str))
    (Hwf : Forall record_wf recs) :
  exists qs ans,
    Qa3.parse_docx (flatten_records recs) = Ok (qs, ans) /\
    length qs = length (List.filter has_answer_line recs) /\
    length ans = length (List.filter has_answer_line recs).
Proof.
  destruct (qa3_records recs Qa3.init Hwf qa3_inv_init) as (st & Hrun & Hinv & Hcount);
    [reflexivity|].
  exists (fst (qa3_result st)), (snd (qa3_result st)).
  unfold Qa3.parse_docx, Qa3.run. rewrite Hrun, bind_ok.
  pose proof Hinv as (Hc & Hlen & _).
  rewrite qa3_finish by lia.
  split; [now rewrite <- result_pair|].
  change (qa3_pending Qa3.init) with false in Hcount.
  change (length (Qa3.parsed_questions Qa3.init)) with 0%nat in Hcount.
  unfold qa3_result. destruct (qa3_pending st); cbn [fst snd];
    rewrite ?length_app; cbn [length]; lia.
Qed.

Lemma qa3_question_without_answer_dropped_witness :
  exists qs ans,
    Qa3.parse_docx
      (flatten_records [(u "༡ first", [u "more"]);
                        (u "༢ second", [u "ལན། yes"; u "indeed"])])
    = Ok (qs, ans) /\
    length qs
    = length (List.filter has_answer_line
                [(u "༡ first", [u "more"]); (u "༢ second", [u "ལན། yes"; u "indeed"])]) /\
    length ans
    = length (List.filter has_answer_line
                [(u "༡ first", [u "more"]); (u "༢ second", [u "ལན། yes"; u "indeed"])]).
Proof.
  apply (qa3_question_without_answer_dropped
           [(u "༡ first", [u "more"]); (u "༢ second", [u "ལན། yes"; u "indeed"])]).
  repeat constructor.
Defined.

(** ** qa_4.py *)

(** X7. [parse_docx] of qa_4.py never raises.  It returns one pair for
    every paragraph that starts with the sentinel and has text left
    after cleaning; the entries are numbered with the digits of
    [str(counter)], not with Tibetan numerals. *)
Theorem qa4_pair_per_sentinel_line (paragraphs : list str) :
  exists qs ans,
    Qa4.parse_docx paragraphs = Ok (qs, ans) /\
    length qs = question_starts opens_question4 paragraphs /\
    length ans = length qs /\
    forall (i : nat) e, qs !! i = Some e \/ ans !! i = Some e ->
      exists body, e = py_str_int (1 + Z.of_nat i) ++ ANG_CLOSE :: body.
Proof.
  destruct (qa4_parse paragraphs) as (st & _ & _ & Hp & Hq & Ha & Hiq & Hia).
  exists (fst (qa4_result st)), (snd (qa4_result st)).
  split; [now rewrite <- result_pair|]. split; [assumption|]. split; [lia|].
  intros i e [H|H];
    [exact (indexed_lookup _ _ _ _ _ Hiq H) | exact (indexed_lookup _ _ _ _ _ Hia H)].
Qed.

(** X8. [clean_question_text] of qa_4.py never raises: the index [1]
    into the split is taken only when the shey occurs.  The result is
    the stripped text behind the first shey, or the stripped text when
    there is none; stripping it again changes nothing. *)
Theorem qa4_question_text_after_shey (text : str) :
  exists r,
    Qa4.clean_question_text text = Ok r /\
    strip r = r /\
    match partition_first text Qa4.shey_character with
    | Some (_, rest) => contains text Qa4.shey_character = true /\ r = strip rest
    | None => contains text Qa4.shey_character = false /\ r = strip text
    end.
Proof.
  exists (cleaned_question text). split; [apply qa4_clean_question_text|].
  unfold cleaned_question.
  destruct (contains text Qa4.shey_character) eqn:E.
  - destruct (contains_partition _ _ E) as (a & b & ->).
    split; [apply strip_idem|]. split; reflexivity.
  - rewrite (not_contains_partition _ _ E).
    split; [apply strip_idem|]. split; reflexivity.
Qed.

(** ** qa_5.py *)

(** X9. [parse_docx] of qa_5.py returns one pair for every paragraph
    that is a letter of the alphabet alone, whether or not a question or
    an answer follows it; the entries are numbered with the digits of
    [str(counter)]. *)
Theorem qa5_pair_per_marker_line (paragraphs : list str) :
  exists qs ans,
    Qa5.parse_docx paragraphs = (qs, ans) /\
    length qs = question_starts alphabet_match paragraphs /\
    length ans = length qs /\
    forall (i : nat) e, qs !! i = Some e \/ ans !! i = Some e ->
      exists body, e = py_str_int (1 + Z.of_nat i) ++ ANG_CLOSE :: body.
Proof.
  pose proof (qa5_run_inv paragraphs) as (Hc & Hlen & Hiq & Hia & Hstale & Hk).
  unfold Qa5.parse_docx. rewrite qa5_finish by assumption.
  destruct (truthy (Qa5.current_question (Qa5.run paragraphs))).
  - eexists _, _. split; [reflexivity|].
    rewrite !length_app. cbn [length]. split; [lia|]. split; [lia|].
    assert (Hq' : indexed py_str_int 1
                    (Qa5.parsed_questions (Qa5.run paragraphs)
                     ++ [fst (qa5_entry (Qa5.run paragraphs))])).
    { apply indexed_snoc_entry; [assumption | lia]. }
    assert (Ha' : indexed py_str_int 1
                    (Qa5.parsed_answers (Qa5.run paragraphs)
                     ++ [snd (qa5_entry (Qa5.run paragraphs))])).
    { apply indexed_snoc_entry; [assumption | lia]. }
    intros i e [H|H];
      [exact (indexed_lookup _ _ _ _ _ Hq' H) | exact (indexed_lookup _ _ _ _ _ Ha' H)].
  - eexists _, _. split; [reflexivity|].
    split; [lia|]. split; [lia|].
    intros i e [H|H];
      [exact (indexed_lookup _ _ _ _ _ Hiq H) | exact (indexed_lookup _ _ _ _ _ Hia H)].
Qed.

(** X10. Under qa_5.py a marker paragraph at the end of the document
    still yields a pair: its question and its answer are the bare index
    and the text between index and entry, with no text behind. *)
Theorem qa5_marker_alone_yields_empty_pair (before : list str) (marker : str)
    (Hm : alphabet_match (strip marker) = true) :
  exists qs ans,
    length ans = length qs /\
    Qa5.parse_docx (before ++ [marker])
    = (qs ++ [py_str_int (1 + Z.of_nat (length qs)) ++ CLOSE_SP],
       ans ++ [py_str_int (1 + Z.of_nat (length qs)) ++ CLOSE_SP]).
Proof.
  pose proof (qa5_run_inv (before ++ [marker])) as (Hc & Hlen & _ & _ & Hstale & _).
  unfold Qa5.parse_docx. rewrite qa5_finish by assumption.
  assert (Hst : Qa5.current_question (Qa5.run (before ++ [marker])) = [strip marker] /\
                Qa5.current_answer (Qa5.run (before ++ [marker])) = []).
  { unfold Qa5.run. rewrite fold_left_app. cbn [fold_left]. now apply qa5_step_marker. }
  destruct Hst as [Hq Ha].
  destruct (alphabet_match_letter marker Hm) as (c & Hc' & Hs).
  exists (Qa5.parsed_questions (Qa5.run (before ++ [marker]))),
         (Qa5.parsed_answers (Qa5.run (before ++ [marker]))).
  split; [assumption|].
  unfold qa5_entry. rewrite Hq, Ha, Hc, Hs. cbn [truthy fst snd].
  rewrite (qa5_marker_only_text c Hc').
  change (strip (join [SPACE] [])) with (@nil Z). now rewrite !app_nil_r.
Qed.

Lemma qa5_marker_alone_yields_empty_pair_witness :
  exists qs ans,
    length ans = length qs /\
    Qa5.parse_docx ([u "ཀ"; u "question"; u "answer"] ++ [u " ཁ "])
    = (qs ++ [py_str_int (1 + Z.of_nat (length qs)) ++ CLOSE_SP],
       ans ++ [py_str_int (1 + Z.of_nat (length qs)) ++ CLOSE_SP]).
Proof.
  apply (qa5_marker_alone_yields_empty_pair [u "ཀ"; u "question"; u "answer"] (u " ཁ ")).
  reflexivity.
Defined.

(** X11. Under qa_5.py the last record of a document (marker, a line,
    further lines without marker) is returned as the stripped line,
    without the marker, and the further lines joined by spaces, both
    behind the index. *)
Theorem qa5_last_record_text (before : list str) (marker line : str) (body : list str)
    (Hm : alphabet_match (strip marker) = true)
    (Ht : truthy (strip line) = true)
    (Hl : alphabet_match (strip line) = false)
    (Hb : Forall (fun l => alphabet_match (strip l) = false) body) :
  exists qs ans,
    length ans = length qs /\
    Qa5.parse_docx (before ++ marker :: line :: body)
    = (qs ++ [py_str_int (1 + Z.of_nat (length qs)) ++ CLOSE_SP ++ strip line],
       ans ++ [py_str_int (1 + Z.of_nat (length qs)) ++ CLOSE_SP
               ++ strip (join [SPACE] (seen_lines body))]).
Proof.
  pose proof (qa5_run_inv (before ++ marker :: line :: body))
    as (Hc & Hlen & _ & _ & Hstale & _).
  unfold Qa5.parse_docx. rewrite qa5_finish by assumption.
  assert (Hst : Qa5.current_question (Qa5.run (before ++ marker :: line :: body))
                = [strip marker; strip line] /\
                Qa5.current_answer (Qa5.run (before ++ marker :: line :: body))
                = seen_lines body).
  { unfold Qa5.run. rewrite fold_left_app. cbn [fold_left].
    destruct (qa5_step_marker (fold_left Qa5.step before Qa5.init) marker Hm) as [Hq Ha].
    change (fold_left Qa5.step body
              (Qa5.step (Qa5.step (fold_left Qa5.step before Qa5.init) marker) line))
      with (fold_left Qa5.step (line :: body)
              (Qa5.step (fold_left Qa5.step before Qa5.init) marker)).
    assert (Hb' : Forall (fun l => alphabet_match (strip l) = false) (line :: body))
      by (constructor; assumption).
    destruct (qa5_body_after_marker (line :: body) _ _ Hb' Hq Ha) as [H1 H2].
    rewrite H1, H2, seen_lines_cons, Ht. split; reflexivity. }
  destruct Hst as [Hq Ha].
  destruct (alphabet_match_letter marker Hm) as (c & Hc' & Hs).
  exists (Qa5.parsed_questions (Qa5.run (before ++ marker :: line :: body))),
         (Qa5.parsed_answers (Qa5.run (before ++ marker :: line :: body))).
  split; [assumption|].
  unfold qa5_entry. rewrite Hq, Ha, Hc, Hs. cbn [truthy fst snd].
  rewrite (qa5_question_text c (strip line) Hc');
    [reflexivity | now apply strip_nonempty_truthy | apply strip_idem].
Qed.

Lemma qa5_last_record_text_witness :
  exists qs ans,
    length ans = length qs /\
    Qa5.parse_docx ([u "title"] ++ u "ཀ " :: u " what is it? " :: [u "this"; u ""; u " that "])
    = (qs ++ [py_str_int (1 + Z.of_nat (length qs)) ++ CLOSE_SP ++ strip (u " what is it? ")],
       ans ++ [py_str_int (1 + Z.of_nat (length qs)) ++ CLOSE_SP
               ++ strip (join [SPACE] (seen_lines [u "this"; u ""; u " that "]))]).
Proof.
  apply (qa5_last_record_text [u "title"] (u "ཀ ") (u " what is it? ")
           [u "this"; u ""; u " that "]).
  - reflexivity.
  - reflexivity.
  - reflexivity.
  - repeat constructor.
Defined.

(** ** qa_6.py *)

(** X12. [process_docx] of qa_6.py never raises.  The two lists it
    saves have one entry for every paragraph that holds a bracketed
    Tibetan numeral; entry [i] (from 0) of either list starts with the
    numeral of [i + 1] and the closing bracket, whatever numeral the
    paragraph had. *)
Theorem qa6_pair_per_marker_line (paragraphs : list str) :
  exists qs ans,
    Qa6.process_docx paragraphs = Ok (qs, ans) /\
    length qs = question_starts has_question_marker paragraphs /\
    length ans = length qs /\
    forall (i : nat) e, qs !! i = Some e \/ ans !! i = Some e ->
      exists n body, int_to_tibetan (1 + Z.of_nat i) = Ok n /\ e = n ++ ANG_CLOSE :: body.
Proof.
  destruct (qa6_run_inv paragraphs) as (st & Hrun & Hinv).
  destruct Hinv as (Hc & Hlen & Hiq & Hia & _ & Hcq & Hk).
  unfold Qa6.process_docx. rewrite Hrun, bind_ok. unfold Qa6.finish, Qa6.emit.
  assert (Hshape : forall l : list str, indexed tib 1 l ->
            forall (i : nat) e, l !! i = Some e ->
            exists n body, int_to_tibetan (1 + Z.of_nat i) = Ok n /\
                           e = n ++ ANG_CLOSE :: body).
  { intros l Hl i e H. destruct (indexed_lookup _ _ _ _ _ Hl H) as [body ->].
    exists (tib (1 + Z.of_nat i)), body.
    split; [apply int_to_tibetan_ok; lia | reflexivity]. }
  destruct (truthy (Qa6.current_question st)) eqn:Hopen.
  - rewrite int_to_tibetan_ok, bind_ok by lia.
    eexists _, _. split; [reflexivity|].
    rewrite !length_app. cbn [length]. split; [lia|]. split; [lia|].
    destruct (Hcq eq_refl) as [body Hbody].
    assert (Hq' : indexed tib 1 (Qa6.questions st ++ [strip (Qa6.current_question st)])).
    { apply indexed_snoc. split; [assumption|].
      rewrite Hbody, strip_index_prefix by lia.
      eexists. do 2 f_equal. lia. }
    assert (Ha' : indexed tib 1
                    (Qa6.answers st
                     ++ [tib (Qa6.question_counter st) ++ CLOSE_SP
                         ++ strip (join [NEWLINE] (Qa6.current_answer st))])).
    { apply indexed_snoc_entry; [assumption | lia]. }
    intros i e [H|H]; [exact (Hshape _ Hq' _ _ H) | exact (Hshape _ Ha' _ _ H)].
  - eexists _, _. split; [reflexivity|].
    split; [lia|]. split; [lia|].
    intros i e [H|H]; [exact (Hshape _ Hiq _ _ H) | exact (Hshape _ Hia _ _ H)].
Qed.

(** X13. Under qa_6.py the paragraphs in front of the first question
    marker are not dropped: whatever follows the first marker paragraph,
    the document is processed like the document without them, except
    that their lines stand in front of the answer lines of the first
    question.  The answer lines of the first question are lines of what
    follows the marker paragraph. *)
Theorem qa6_text_before_first_question_kept (pre : list str) (q g : str) (rest : list str)
    (Hpre : Forall (fun p => search_question_marker (strip p) = None) pre)
    (Hq : search_question_marker (strip q) = Some g) :
  exists n qs lines ans,
    int_to_tibetan 1 = Ok n /\
    Forall (fun l => In l (seen_lines rest)) lines /\
    Qa6.process_docx (q :: rest)
    = Ok (qs, (n ++ CLOSE_SP ++ strip (join [NEWLINE] lines)) :: ans) /\
    Qa6.process_docx (pre ++ q :: rest)
    = Ok (qs, (n ++ CLOSE_SP ++ strip (join [NEWLINE] (seen_lines pre ++ lines))) :: ans).
Proof.
  pose proof (search_marker_truthy q g Hq) as Ht.
  assert (Hfirst : forall a,
            Qa6.step (Qa6.mk [] [] [] a 1) q
            = Ok (Qa6.mk [] [] (tib 1 ++ CLOSE_SP ++ strip (replace (strip q) g [])) a 1)).
  { intros a. rewrite (qa6_step_start _ q g Ht Hq) by (cbn; lia). reflexivity. }
  assert (HR : qa6_prefixed (seen_lines pre) (seen_lines rest)
                 (Qa6.mk [] [] (tib 1 ++ CLOSE_SP ++ strip (replace (strip q) g [])) [] 1)
                 (Qa6.mk [] [] (tib 1 ++ CLOSE_SP ++ strip (replace (strip q) g []))
                         (seen_lines pre) 1)).
  { unfold qa6_prefixed.
    cbn [Qa6.questions Qa6.answers Qa6.current_question Qa6.current_answer
         Qa6.question_counter].
    split; [reflexivity|]. split; [reflexivity|]. split; [reflexivity|]. split; [lia|].
    left. rewrite app_nil_r. repeat split. constructor. }
  destruct (qa6_prefixed_run _ _ rest _ _ (seen_lines_pool rest) HR)
    as (s & s' & Hs & Hs' & HR').
  destruct (qa6_prefixed_finish _ _ _ _ HR') as (qs & lines & ans & Hpool & Hf & Hf').
  exists (tib 1), qs, lines, ans. split; [reflexivity|]. split; [assumption|].
  unfold Qa6.process_docx, Qa6.run, Qa6.init. split.
  - cbn [foldM]. rewrite Hfirst, bind_ok, Hs, bind_ok. exact Hf.
  - rewrite foldM_app, (qa6_preamble_state pre [] Hpre), bind_ok. cbn [foldM app].
    rewrite Hfirst, bind_ok, Hs', bind_ok. exact Hf'.
Qed.

Lemma qa6_text_before_first_question_kept_witness :
  exists n qs lines ans,
    int_to_tibetan 1 = Ok n /\
    Forall (fun l => In l (seen_lines [u "the answer"; u ""; u " more "])) lines /\
    Qa6.process_docx (u "༼༧༽ question" :: [u "the answer"; u ""; u " more "])
    = Ok (qs, (n ++ CLOSE_SP ++ strip (join [NEWLINE] lines)) :: ans) /\
    Qa6.process_docx
      ([u "title"; u " by someone "] ++ u "༼༧༽ question" :: [u "the answer"; u ""; u " more "])
    = Ok (qs, (n ++ CLOSE_SP
               ++ strip (join [NEWLINE]
                           (seen_lines [u "title"; u " by someone "] ++ lines))) :: ans).
Proof.
  apply (qa6_text_before_first_question_kept
           [u "title"; u " by someone "] (u "༼༧༽ question") (u "༼༧༽")
           [u "the answer"; u ""; u " more "]).
  - repeat constructor.
  - reflexivity.
Defined.

Example preamble_in_first_answer :
  Qa6.process_docx [u "title"; u "༼༧༽ question"; u "the answer"]
  = Ok ([u "༡༽ question"], [u "༡༽ title" ++ [NEWLINE] ++ u "the answer"]).
Proof. vm_compute. reflexivity. Qed.

(** ** qa_7.py *)

(** X14. [process] of qa_7.py, on a fresh processor, never raises.  It
    collects one question for every paragraph that starts with digits
    and a dot and one answer for every other paragraph that starts with
    the answer keyword; the two counts are independent of each other. *)
Theorem qa7_questions_and_answers_counted_apart
    (isdecimal : char -> bool) (paragraphs : list str) :
  exists qs ans,
    Qa7.process isdecimal paragraphs = Ok (qs, ans) /\
    length qs = question_starts (Qa7.digits_dot isdecimal) paragraphs /\
    length ans = question_starts (is_answer_start7 isdecimal) paragraphs.
Proof.
  destruct (qa7_run_inv isdecimal paragraphs) as (st & Hrun & _ & _ & Hq & Ha).
  unfold Qa7.process. rewrite Hrun, bind_ok. unfold Qa7.finish.
  eexists _, _. split; [reflexivity|].
  rewrite <- Hq, <- Ha.
  destruct (truthy (Qa7.current_question st)), (truthy (Qa7.current_answer st));
    rewrite ?length_app; cbn [length]; lia.
Qed.

(** X15. [save_to_files] of qa_7.py never raises; either file gets one
    block per entry, block [i] (from 0) being the numeral of [i + 1],
    the closing bracket, a space, the entry and two newlines.  Questions
    and answers are numbered each on their own. *)
Theorem qa7_files_numbered_apart (qs ans : list str) :
  exists qf af,
    Qa7.save_to_files qs ans = Ok (qf, af) /\
    length qf = length qs /\ length af = length ans /\
    (forall (i : nat) e, qs !! i = Some e ->
       exists n, int_to_tibetan (1 + Z.of_nat i) = Ok n /\
                 qf !! i = Some (n ++ CLOSE_SP ++ e ++ [NEWLINE; NEWLINE])) /\
    (forall (i : nat) e, ans !! i = Some e ->
       exists n, int_to_tibetan (1 + Z.of_nat i) = Ok n /\
                 af !! i = Some (n ++ CLOSE_SP ++ e ++ [NEWLINE; NEWLINE])).
Proof.
  unfold Qa7.save_to_files. rewrite !write_numbered_eq, !bind_ok.
  eexists _, _. split; [reflexivity|]. rewrite !length_imap.
  split; [reflexivity|]. split; [reflexivity|].
  split; intros i e H; exists (tib (1 + Z.of_nat i));
    (split; [apply int_to_tibetan_ok; lia|]);
    rewrite list_lookup_imap, H; cbn; do 3 f_equal; lia.
Qed.

(** ** html_parser.py *)

(** X16. [parse_html] never raises.  Every paragraph with a span gives
    one entry: an answer when the stripped text holds the answer
    keyword, a question otherwise.  The two lists are numbered each on
    their own: entry [i] (from 0) starts with [get_tibetan_number] of
    [i + 1]. *)
Theorem html_units_numbered_apart (paragraphs : list (option str)) :
  exists qs ans,
    HtmlParser.parse_html paragraphs = Ok (qs, ans) /\
    length ans = length (List.filter is_answer_unit (span_texts paragraphs)) /\
    length qs
    = length (List.filter (fun t => negb (is_answer_unit t)) (span_texts paragraphs)) /\
    forall (i : nat) e, qs !! i = Some e \/ ans !! i = Some e ->
      exists n body,
        HtmlParser.get_tibetan_number (1 + Z.of_nat i) = Ok n /\ e = n ++ body.
Proof.
  destruct (html_run_inv paragraphs) as (st & Hrun & _ & _ & Hiq & Hia & Hna & Hnq).
  unfold HtmlParser.parse_html. rewrite Hrun, bind_ok.
  eexists _, _. split; [reflexivity|]. split; [assumption|]. split; [assumption|].
  intros i e [H|H];
    [destruct (indexed_lookup _ _ _ _ _ Hiq H) as [body ->]
    |destruct (indexed_lookup _ _ _ _ _ Hia H) as [body ->]];
    exists (tib (1 + Z.of_nat i) ++ [ANG_CLOSE]), body;
    (split; [apply convert_to_tibetan_number_ok; lia | now rewrite <- app_assoc]).
Qed.

(** ** The numeral encoders *)

(** X17. For a negative number every encoder raises [ValueError]: the
    sign [str] puts in front is no digit. *)
Theorem encoders_reject_negative (n : Z) (Hn : n < 0) :
  int_to_tibetan_numeral n = Raise ValueError /\
  int_to_tibetan n = Raise ValueError /\
  convert_to_tibetan_number n = Raise ValueError.
Proof.
  unfold int_to_tibetan_numeral, int_to_tibetan, convert_to_tibetan_number.
  rewrite tibetan_digits_of_negative by assumption. now repeat split.
Qed.

Lemma encoders_reject_negative_witness :
  int_to_tibetan_numeral (-12) = Raise ValueError /\
  int_to_tibetan (-12) = Raise ValueError /\
  convert_to_tibetan_number (-12) = Raise ValueError.
Proof. apply (encoders_reject_negative (-12)). lia. Defined.

(** ** qa.py *)

(** X18. [clean_tibetan_text] returns the empty string exactly for a
    text of white space only (the empty text included). *)
Theorem clean_tibetan_text_empty_iff_blank (text : str) :
  clean_tibetan_text text = [] <-> forallb py_isspace text = true.
Proof.
  rewrite clean_tibetan_text_eq, sub_ws_nil_iff. apply strip_nil_iff.
Qed.

(** ** combine_q_n_a.py *)

(** X19. [parse_text_file] raises when the file is not there; what it
    returns otherwise has no empty entry and no entry with white space
    at either end. *)
Theorem parse_text_file_entries_stripped (dir : Combine.directory) (name : str) :
  match Combine.parse_text_file dir name with
  | Ok entries =>
      Combine.path_exists dir name = true /\
      Forall (fun l => l <> [] /\ strip l = l) entries
  | Raise e => Combine.path_exists dir name = false /\ e = OSError
  end.
Proof.
  unfold Combine.path_exists.
  destruct (Combine.readlines dir name) as [file|] eqn:E.
  - rewrite (parse_text_file_lines _ _ _ E). split; [reflexivity|].
    apply text_lines_entries.
  - unfold Combine.parse_text_file. rewrite E. now split.
Qed.

(** X20. A questions file without its answers file is passed over
    without an error: when no questions file of the directory has a
    partner, the aggregator returns no records, the total 0 and empty
    statistics. *)
Theorem unpaired_question_files_skipped (dir : Combine.directory)
    (H : forall f, In f (Combine.listdir dir) ->
           endswith f Combine.QUESTIONS_SUFFIX = true ->
           Combine.path_exists dir
             (replace f Combine.QUESTIONS_SUFFIX [] ++ Combine.ANSWERS_SUFFIX) = false) :
  Combine.combine_question_answer_files dir = Ok ([], 0, ∅).
Proof.
  unfold Combine.combine_question_answer_files.
  now rewrite (combine_skip dir (Combine.listdir dir) Combine.init H).
Qed.

Lemma unpaired_question_files_skipped_witness :
  Combine.combine_question_answer_files
    [(u "a_questions.txt", [u "1 q"]); (u "b_answers.txt", [u "1 a"]); (u "notes.txt", [])]
  = Ok ([], 0, ∅).
Proof.
  apply (unpaired_question_files_skipped
           [(u "a_questions.txt", [u "1 q"]); (u "b_answers.txt", [u "1 a"]);
            (u "notes.txt", [])]).
  intros f [<-|[<-|[<-|[]]]]; intros E; solve [reflexivity | discriminate E].
Defined.

(** X21. The index a parser puts in front of an entry is what the
    aggregator takes off again.  For an index [k >= 0], written with
    Tibetan numerals or with the digits of [str(k)], the line
    [parse_text_file] keeps of the entry [index༽ text] is reduced by the
    aggregator to the text without its trailing white space; but when
    nothing of the text is left, the record holds the index and the
    bracket instead. *)
Theorem index_removed_by_aggregator (k : Z) (text : str) (Hk : 0 <= k) :
  exists n,
    int_to_tibetan_numeral k = Ok n /\
    Combine.remove_indexing (strip (n ++ CLOSE_SP ++ text))
    = Ok (if truthy (rstrip text) then rstrip text else n ++ [ANG_CLOSE]) /\
    Combine.remove_indexing (strip (py_str_int k ++ CLOSE_SP ++ text))
    = Ok (if truthy (rstrip text) then rstrip text else py_str_int k ++ [ANG_CLOSE]).
Proof.
  exists (tib k). split; [now apply int_to_tibetan_numeral_ok|].
  rewrite !remove_indexing_total.
  rewrite (after_index_entry (tib k)) by (now apply tib_nonempty || now apply tib_nonspace).
  rewrite (after_index_entry (py_str_int k))
    by (now apply py_str_int_nonempty || now apply py_str_int_nonspace).
  split; reflexivity.
Qed.

Lemma index_removed_by_aggregator_witness :
  exists n,
    int_to_tibetan_numeral 12 = Ok n /\
    Combine.remove_indexing (strip (n ++ CLOSE_SP ++ u "two words "))
    = Ok (if truthy (rstrip (u "two words ")) then rstrip (u "two words ")
          else n ++ [ANG_CLOSE]) /\
    Combine.remove_indexing (strip (py_str_int 12 ++ CLOSE_SP ++ u "two words "))
    = Ok (if truthy (rstrip (u "two words ")) then rstrip (u "two words ")
          else py_str_int 12 ++ [ANG_CLOSE]).
Proof. apply (index_removed_by_aggregator 12 (u "two words ")). lia. Defined.

(** ** From the parsers' files to the aggregator *)

(** X22. Entries saved with [save_output] and read with
    [parse_text_file] come back as they were, provided every entry is
    non-empty, has no white space at its ends and holds neither a
    newline nor a carriage return. *)
Theorem saved_entries_read_back
    (dir : Combine.directory) (name : str) (entries : list str)
    (Hentries : Forall (fun e => e <> [] /\ strip e = e /\
                                 ~ In NEWLINE e /\ ~ In TextFile.CR e) entries)
    (Hfile : Combine.readlines dir name
             = Some (TextFile.written (TextFile.save_output entries))) :
  Combine.parse_text_file dir name = Ok entries.
Proof.
  rewrite (parse_saved dir name entries); [|clear Hfile|assumption].
  - f_equal. clear Hfile.
    induction Hentries as [|e entries (Hne & Hs & Hnl & _) _ IH]; [reflexivity|].
    cbn [map concat]. rewrite IH, (split_newline_line e Hnl), seen_lines_cons, Hs.
    now destruct e.
  - eapply Forall_impl; [exact Hentries|]. cbn. tauto.
Qed.

Lemma saved_entries_read_back_witness :
  Combine.parse_text_file
    [(u "d_questions.txt",
      TextFile.written (TextFile.save_output [u "༡༽ first question"; u "༢༽ second"]))]
    (u "d_questions.txt")
  = Ok [u "༡༽ first question"; u "༢༽ second"].
Proof.
  apply (saved_entries_read_back
           [(u "d_questions.txt",
             TextFile.written (TextFile.save_output [u "༡༽ first question"; u "༢༽ second"]))]
           (u "d_questions.txt") [u "༡༽ first question"; u "༢༽ second"]).
  - repeat (apply List.Forall_cons || apply List.Forall_nil);
      (split; [vm_compute; discriminate|]);
      (split; [vm_compute; reflexivity|]);
      split; intros H; vm_compute in H;
      repeat destruct H as [H|H]; try discriminate H; exact H.
  - vm_compute. reflexivity.
Defined.

(** X23. In general [parse_text_file] reads one entry for every line of
    a saved entry that is not blank: an answer of several lines comes
    back as several entries, and the entries behind it move on. *)
Theorem saved_entries_split_at_newlines
    (dir : Combine.directory) (name : str) (entries : list str)
    (Hcr : Forall (fun e => ~ In TextFile.CR e) entries)
    (Hfile : Combine.readlines dir name
             = Some (TextFile.written (TextFile.save_output entries))) :
  Combine.parse_text_file dir name
  = Ok (concat (map (fun e => seen_lines (split_newline e)) entries)).
Proof.
  rewrite (parse_text_file_lines _ _ _ Hfile).
  unfold TextFile.written. rewrite universal_newlines_id.
  - now rewrite text_lines_readlines, seen_lines_saved.
  - apply join_not_in; [|assumption].
    intros [H|[H|[]]]; discriminate H.
Qed.

Lemma saved_entries_split_at_newlines_witness :
  Combine.parse_text_file
    [(u "d_answers.txt",
      TextFile.written
        (TextFile.save_output [u "༡༽ one" ++ [NEWLINE] ++ u "more"; u "༢༽ two"]))]
    (u "d_answers.txt")
  = Ok (concat (map (fun e => seen_lines (split_newline e))
                    [u "༡༽ one" ++ [NEWLINE] ++ u "more"; u "༢༽ two"])).
Proof.
  apply (saved_entries_split_at_newlines
           [(u "d_answers.txt",
             TextFile.written
               (TextFile.save_output [u "༡༽ one" ++ [NEWLINE] ++ u "more"; u "༢༽ two"]))]
           (u "d_answers.txt") [u "༡༽ one" ++ [NEWLINE] ++ u "more"; u "༢༽ two"]).
  - repeat (apply List.Forall_cons || apply List.Forall_nil);
      intros H; vm_compute in H;
      repeat destruct H as [H|H]; try discriminate H; exact H.
  - vm_compute. reflexivity.
Defined.

(** ** The cleaning functions *)

(** X24. [clean_answer_text] of qa_4.py takes an answer phrase off the
    start of the text only; the same words further on stay. *)
Theorem qa4_answer_phrase_removed_at_start (text : str) :
  Qa4.clean_answer_text text
  = strip (if startswith text ANSWER_PHRASE_1 then drop (length ANSWER_PHRASE_1) text
           else if startswith text ANSWER_PHRASE_2 then drop (length ANSWER_PHRASE_2) text
           else text).
Proof.
  unfold Qa4.clean_answer_text.
  rewrite re_sub_anchored; [|reflexivity|exact answer_phrase_match_length].
  unfold m_answer_phrase.
  destruct (startswith text ANSWER_PHRASE_1); [reflexivity|].
  now destruct (startswith text ANSWER_PHRASE_2).
Qed.

(** X25. [clean_question_text] of qa_3.py takes the leading run of
    Tibetan digits off the text and strips what is left; digits further
    on stay. *)
Theorem qa3_leading_numeral_removed (text : str) :
  Qa3.clean_question_text text = strip (drop (span_len is_tib_digit text) text).
Proof.
  unfold Qa3.clean_question_text.
  rewrite re_sub_anchored; [|reflexivity|exact question_number_match_length].
  unfold m_question_number, m_initial_number.
  destruct (span_len is_tib_digit text) as [|n]; [reflexivity|].
  rewrite <- drop_drop, <- lstrip_span. unfold strip. now rewrite lstrip_idem.
Qed.
